(** * reviewInsight: the review-analysis route [src/app/api/analyze/route.ts]

    A shallow embedding of the [POST] handler and of the JavaScript
    primitives it relies on ([String.prototype.match] with the pattern
    [/\{[\s\S]*\}/], [JSON.parse], [typeof], [isNaN], the [>] and [/]
    operators on parsed values), followed by the properties of the
    analysis pipeline, and of the handlers of the page
    [src/app/pages_back.tsx] that sends the reviews to the route.

    Numbers are IEEE 754 binary64 values, as in JavaScript: the kernel's
    primitive [float].  Strings are sequences of UTF-16 code units. *)

From Stdlib Require Import Ascii String.
From Stdlib Require Import List Bool Arith NArith ZArith Lia.
From Stdlib Require Import Floats.PrimFloat Floats.FloatOps.
From Stdlib Require Floats.SpecFloat.
Import ListNotations.

Set Implicit Arguments.

(* ================================================================= *)
(** ** Strings *)

(** A JavaScript string: its UTF-16 code units. *)
Definition char16 := N.
Definition jsstring := list char16.

Definition ch (a : ascii) : char16 := N_of_ascii a.

(** The string of an ASCII literal. *)
Fixpoint str (s : string) : jsstring :=
  match s with
  | EmptyString => []
  | String a s' => ch a :: str s'
  end.

Definition jsstring_eqb (a b : jsstring) : bool :=
  if list_eq_dec N.eq_dec a b then true else false.

(** The double quote, U+0022. *)
Definition dquote : jsstring := [34%N].

Definition is_char (a : ascii) (c : char16) : bool := N.eqb c (ch a).

Definition is_digit (c : char16) : bool :=
  (N.leb 48 c && N.leb c 57)%N.

Definition digit_val (c : char16) : Z := (Z.of_N c - 48)%Z.

(** Value of a hexadecimal digit, when [c] is one. *)
Definition hex_val (c : char16) : option Z :=
  if is_digit c then Some (digit_val c)
  else if (N.leb 97 c && N.leb c 102)%N then Some (Z.of_N c - 87)%Z
  else if (N.leb 65 c && N.leb c 70)%N then Some (Z.of_N c - 55)%Z
  else None.

(* ================================================================= *)
(** ** Numbers *)

Module Num.

Local Open Scope Z_scope.

(** [x * 2^k] for [k >= 0], [x] otherwise. *)
Definition scale (x k : Z) : Z := if 0 <=? k then x * 2 ^ k else x.

(** The Number value of the rational [n / d] ([0 <= n], [0 < d]) with
    the sign [neg]: the nearest binary64 value, ties to even, as
    [JSON.parse] and [ToNumber] round the mathematical value of a
    numeric literal. *)
Definition of_ratio (neg : bool) (n d : Z) : float :=
  if n =? 0 then (if neg then neg_zero else zero)
  else
    let e0 := Z.log2 n - Z.log2 d in
    (* floor (log2 (n / d)) *)
    let e := if scale d e0 <=? scale n (- e0) then e0 else e0 - 1 in
    (* exponent of the last kept bit: 53 significant bits, or the
       subnormal grid *)
    let k := Z.max (e - 52) (-1074) in
    let num := scale n (- k) in
    let den := scale d k in
    let q := num / den in
    let r := num mod den in
    let q' := if (den <? 2 * r) || ((den =? 2 * r) && Z.odd q)
              then q + 1 else q in
    let f := Z.ldexp (of_uint63 (Uint63Axioms.of_Z q')) k in
    if neg then (- f)%float else f.

(** The mathematical value [m * 10^e] of a decimal literal. *)
Definition of_decimal (neg : bool) (m e : Z) : float :=
  if 0 <=? e then of_ratio neg (m * 10 ^ e) 1
  else of_ratio neg m (10 ^ (- e)).

(** Value of a run of digits in base [b], most significant first,
    continuing from [acc]. *)
Fixpoint digits_val (b : Z) (val : char16 -> Z) (ds : jsstring) (acc : Z) : Z :=
  match ds with
  | [] => acc
  | c :: ds' => digits_val b val ds' (b * acc + val c)
  end.

End Num.

(* ================================================================= *)
(** ** JSON values *)

(** What [JSON.parse] produces.  An object is the list of its own
    properties, keys pairwise distinct. *)
#[local] Unset Elimination Schemes.
Inductive json : Type :=
| JNull
| JBool (b : bool)
| JNum (x : float)
| JStr (s : jsstring)
| JArr (elems : list json)
| JObj (members : list (jsstring * json)).
#[local] Set Elimination Schemes.

(** A JavaScript value as the handler sees it: a parsed value, or
    [undefined] ([None]), the result of reading a property that is not
    there. *)
Definition jsvalue := option json.

Definition members_t := list (jsstring * json).

(** [o[k]] on the own properties of an object. *)
Fixpoint obj_get (m : members_t) (k : jsstring) : jsvalue :=
  match m with
  | [] => None
  | (k', v) :: m' => if jsstring_eqb k' k then Some v else obj_get m' k
  end.

(** [o[k] = v]: overwrite the property where it is, or add it last. *)
Fixpoint obj_set (m : members_t) (k : jsstring) (v : json) : members_t :=
  match m with
  | [] => [(k, v)]
  | (k', v') :: m' =>
      if jsstring_eqb k' k then (k', v) :: m'
      else (k', v') :: obj_set m' k v
  end.

(** [v.k] for a property name [k] that no prototype defines (the names
    the handler reads: sentiments, positive, negative, totalCount,
    positiveCount, negativeCount): the own property of an object,
    [undefined] on every other non-null value. *)
Definition prop (v : json) (k : jsstring) : jsvalue :=
  match v with
  | JObj m => obj_get m k
  | _ => None
  end.

(* ================================================================= *)
(** ** JSON.parse *)

Module JSON.

Local Open Scope N_scope.

(** Outcome of a parsing function on a suffix of the text. *)
Inductive parsed (A : Type) : Type :=
| Parsed (a : A) (rest : jsstring)
| Unexpected            (* SyntaxError *)
| Exhausted.            (* the recursion budget ran out *)
Arguments Unexpected {A}.
Arguments Exhausted {A}.

(** JSON white space: tab, line feed, carriage return, space. *)
Definition is_ws (c : char16) : bool :=
  (c =? 9) || (c =? 10) || (c =? 13) || (c =? 32).

Fixpoint skip_ws (s : jsstring) : jsstring :=
  match s with
  | c :: s' => if is_ws c then skip_ws s' else s
  | [] => []
  end.

(** The character after a backslash, other than [u]. *)
Definition simple_escape (c : char16) : option char16 :=
  if c =? 34 then Some 34            (* quote *)
  else if c =? 92 then Some 92       (* backslash *)
  else if is_char "/" c then Some (ch "/")
  else if is_char "b" c then Some 8
  else if is_char "f" c then Some 12
  else if is_char "n" c then Some 10
  else if is_char "r" c then Some 13
  else if is_char "t" c then Some 9
  else None.

Definition hex4 (a b c d : char16) : option char16 :=
  match hex_val a, hex_val b, hex_val c, hex_val d with
  | Some x, Some y, Some z, Some w =>
      Some (Z.to_N (((x * 16 + y) * 16 + z) * 16 + w)%Z)
  | _, _, _, _ => None
  end.

(** The characters of a string literal after its opening quote, up to
    the closing one; [acc] holds the code units read so far, last
    first. *)
Fixpoint string_body (s acc : jsstring) : parsed jsstring :=
  match s with
  | [] => Unexpected
  | c :: s' =>
      if c =? 34 then Parsed (rev acc) s'
      else if c =? 92 then
        match s' with
        | [] => Unexpected
        | e :: s'' =>
            if is_char "u" e then
              match s'' with
              | h1 :: h2 :: h3 :: h4 :: s4 =>
                  match hex4 h1 h2 h3 h4 with
                  | Some u => string_body s4 (u :: acc)
                  | None => Unexpected
                  end
              | _ => Unexpected
              end
            else
              match simple_escape e with
              | Some x => string_body s'' (x :: acc)
              | None => Unexpected
              end
        end
      else if c <? 32 then Unexpected
      else string_body s' (c :: acc)
  end.

(** The longest run of decimal digits at the head of [s]. *)
Fixpoint span_digits (s : jsstring) : jsstring * jsstring :=
  match s with
  | c :: s' =>
      if is_digit c then
        let (ds, r) := span_digits s' in (c :: ds, r)
      else ([], s)
  | [] => ([], [])
  end.

(** [e] or [E], an optional sign and at least one digit: the decimal
    exponent, 0 when there is no exponent part. *)
Definition exponent (s : jsstring) : parsed Z :=
  match s with
  | c :: s1 =>
      if is_char "e" c || is_char "E" c then
        let (neg, s2) :=
          match s1 with
          | g :: s2 =>
              if is_char "-" g then (true, s2)
              else if is_char "+" g then (false, s2)
              else (false, s1)
          | [] => (false, s1)
          end in
        match span_digits s2 with
        | ([], _) => Unexpected
        | (ds, r) =>
            let e := Num.digits_val 10 digit_val ds 0 in
            Parsed (if neg then (- e)%Z else e) r
        end
      else Parsed 0%Z s
  | [] => Parsed 0%Z s
  end.

(** A fraction: a point and at least one digit, or nothing. *)
Definition fraction (s : jsstring) : parsed jsstring :=
  match s with
  | c :: s1 =>
      if is_char "." c then
        match span_digits s1 with
        | ([], _) => Unexpected
        | (ds, r) => Parsed ds r
        end
      else Parsed [] s
  | [] => Parsed [] s
  end.

(** A JSON number: an optional minus sign; 0, or a digit 1-9 and any
    digits; an optional fraction; an optional exponent. *)
Definition number (s : jsstring) : parsed float :=
  let (neg, s1) :=
    match s with
    | c :: s' => if is_char "-" c then (true, s') else (false, s)
    | [] => (false, s)
    end in
  let int_part :=
    match s1 with
    | c :: s2 =>
        if is_char "0" c then Parsed [c] s2
        else if is_digit c then
          let (ds, r) := span_digits s1 in Parsed ds r
        else Unexpected
    | [] => Unexpected
    end in
  match int_part with
  | Parsed ip s2 =>
      match fraction s2 with
      | Parsed fd s3 =>
          match exponent s3 with
          | Parsed e s4 =>
              let m := Num.digits_val 10 digit_val (ip ++ fd) 0 in
              Parsed (Num.of_decimal neg m (e - Z.of_nat (length fd))) s4
          | Unexpected => Unexpected
          | Exhausted => Exhausted
          end
      | Unexpected => Unexpected
      | Exhausted => Exhausted
      end
  | Unexpected => Unexpected
  | Exhausted => Exhausted
  end.

(** [s] without the prefix [p], when it starts with it. *)
Fixpoint strip_prefix (p s : jsstring) : option jsstring :=
  match p, s with
  | [], _ => Some s
  | a :: p', b :: s' => if a =? b then strip_prefix p' s' else None
  | _ :: _, [] => None
  end.

(** A value, the elements of an array after its opening bracket, and
    the members of an object after its opening brace.  A later
    duplicate of a key overwrites the earlier value. *)
Fixpoint value (fuel : nat) (s : jsstring) : parsed json :=
  match fuel with
  | O => Exhausted
  | S fuel' =>
      match skip_ws s with
      | [] => Unexpected
      | c :: s' =>
          if is_char "{" c then
            match skip_ws s' with
            | c' :: r => if is_char "}" c' then Parsed (JObj []) r
                         else members fuel' s' []
            | [] => Unexpected
            end
          else if is_char "[" c then
            match skip_ws s' with
            | c' :: r => if is_char "]" c' then Parsed (JArr []) r
                         else elements fuel' s' []
            | [] => Unexpected
            end
          else if c =? 34 then
            match string_body s' [] with
            | Parsed x r => Parsed (JStr x) r
            | Unexpected => Unexpected
            | Exhausted => Exhausted
            end
          else
            match strip_prefix (str "true") (c :: s'),
                  strip_prefix (str "false") (c :: s'),
                  strip_prefix (str "null") (c :: s') with
            | Some r, _, _ => Parsed (JBool true) r
            | _, Some r, _ => Parsed (JBool false) r
            | _, _, Some r => Parsed JNull r
            | None, None, None =>
                match number (c :: s') with
                | Parsed x r => Parsed (JNum x) r
                | Unexpected => Unexpected
                | Exhausted => Exhausted
                end
            end
      end
  end

with elements (fuel : nat) (s : jsstring) (acc : list json) : parsed json :=
  match fuel with
  | O => Exhausted
  | S fuel' =>
      match value fuel' s with
      | Parsed v r =>
          match skip_ws r with
          | c :: r' =>
              if is_char "," c then elements fuel' r' (v :: acc)
              else if is_char "]" c then Parsed (JArr (rev (v :: acc))) r'
              else Unexpected
          | [] => Unexpected
          end
      | Unexpected => Unexpected
      | Exhausted => Exhausted
      end
  end

with members (fuel : nat) (s : jsstring) (acc : members_t) : parsed json :=
  match fuel with
  | O => Exhausted
  | S fuel' =>
      match skip_ws s with
      | c :: s1 =>
          if c =? 34 then
            match string_body s1 [] with
            | Parsed k r =>
                match skip_ws r with
                | c' :: r1 =>
                    if is_char ":" c' then
                      match value fuel' r1 with
                      | Parsed v r2 =>
                          match skip_ws r2 with
                          | c'' :: r3 =>
                              if is_char "," c'' then
                                members fuel' r3 (obj_set acc k v)
                              else if is_char "}" c'' then
                                Parsed (JObj (obj_set acc k v)) r3
                              else Unexpected
                          | [] => Unexpected
                          end
                      | Unexpected => Unexpected
                      | Exhausted => Exhausted
                      end
                    else Unexpected
                | [] => Unexpected
                end
            | Unexpected => Unexpected
            | Exhausted => Exhausted
            end
          else Unexpected
      | [] => Unexpected
      end
  end.

(** Recursion budget that no text exhausts (see [parse_total]). *)
Definition budget (text : jsstring) : nat := 2 * length text + 1.

(** [JSON.parse text]: one value, white space around it and nothing
    else; [None] stands for the SyntaxError it throws otherwise. *)
Definition parse (text : jsstring) : option json :=
  match value (budget text) text with
  | Parsed v r =>
      match skip_ws r with
      | [] => Some v
      | _ :: _ => None
      end
  | Unexpected | Exhausted => None
  end.

(** The rest of a successful parse is shorter than the text. *)
Definition shrinks {A : Type} (s : jsstring) (p : parsed A) : Prop :=
  match p with
  | Parsed _ r => (length r < length s)%nat
  | _ => True
  end.

End JSON.

(* ================================================================= *)
(** ** JavaScript operators on parsed values *)

Module JS.

Local Open Scope N_scope.

(** WhiteSpace and LineTerminator code units, which [StringToNumber]
    strips from both ends. *)
Definition is_str_ws (c : char16) : bool :=
  ((9 <=? c) && (c <=? 13)) || (c =? 32) || (c =? 160) || (c =? 5760)
  || ((8192 <=? c) && (c <=? 8202)) || (c =? 8232) || (c =? 8233)
  || (c =? 8239) || (c =? 8287) || (c =? 12288) || (c =? 65279).

Fixpoint trim_start (s : jsstring) : jsstring :=
  match s with
  | c :: s' => if is_str_ws c then trim_start s' else s
  | [] => []
  end.

Definition trim (s : jsstring) : jsstring :=
  rev (trim_start (rev (trim_start s))).

(** Every code unit of [s] is a digit of base [b]. *)
Fixpoint all_digits (val : char16 -> option Z) (b : Z) (s : jsstring) : bool :=
  match s with
  | [] => true
  | c :: s' =>
      match val c with
      | Some d => (d <? b)%Z && all_digits val b s'
      | None => false
      end
  end.

Definition hex_or_zero (c : char16) : Z :=
  match hex_val c with Some d => d | None => 0%Z end.

(** NonDecimalIntegerLiteral after its two-character prefix. *)
Definition non_decimal (b : Z) (ds : jsstring) : float :=
  match ds with
  | [] => nan
  | _ :: _ =>
      if all_digits hex_val b ds
      then Num.of_ratio false (Num.digits_val b hex_or_zero ds 0) 1
      else nan
  end.

(** StrUnsignedDecimalLiteral: [Infinity], or digits with an optional
    point and an optional exponent, at least one digit before the
    exponent. *)
Definition unsigned_decimal (neg : bool) (s : jsstring) : float :=
  if jsstring_eqb s (str "Infinity")
  then (if neg then neg_infinity else infinity)
  else
    let (ip, s1) := JSON.span_digits s in
    let (fd, s2) :=
      match s1 with
      | c :: s1' => if is_char "." c then JSON.span_digits s1' else ([], s1)
      | [] => ([], s1)
      end in
    match ip ++ fd with
    | [] => nan
    | _ :: _ =>
        match JSON.exponent s2 with
        | JSON.Parsed e [] =>
            Num.of_decimal neg (Num.digits_val 10 digit_val (ip ++ fd) 0)
                           (e - Z.of_nat (length fd))
        | _ => nan
        end
    end.

(** [StringToNumber]: the Number a string converts to, NaN when it is
    not a StringNumericLiteral. *)
Definition StringToNumber (s : jsstring) : float :=
  match trim s with
  | [] => zero
  | c :: r =>
      if is_char "+" c then unsigned_decimal false r
      else if is_char "-" c then unsigned_decimal true r
      else
        match r with
        | p :: ds =>
            if is_char "0" c && (is_char "x" p || is_char "X" p)
            then non_decimal 16 ds
            else if is_char "0" c && (is_char "o" p || is_char "O" p)
            then non_decimal 8 ds
            else if is_char "0" c && (is_char "b" p || is_char "B" p)
            then non_decimal 2 ds
            else unsigned_decimal false (c :: r)
        | [] => unsigned_decimal false (c :: r)
        end
  end.

(** [ToPrimitive] of a parsed value, for both hints.  A primitive is
    its own value.  An object goes through its [toString]: the one of
    [Object.prototype], unless the object has an own property of that
    name; a parsed value is never callable, so with such a property
    neither [toString] nor [valueOf] gives a primitive and a TypeError
    is thrown.  An array goes through [Array.prototype.join], which
    converts each element other than [null] in turn.  The result says
    whether the conversion completes. *)
Fixpoint has_primitive_value (v : json) : bool :=
  match v with
  | JObj m =>
      match obj_get m (str "toString") with
      | Some _ => false
      | None => true
      end
  | JArr l => forallb has_primitive_value l
  | _ => true
  end.

(** [ToNumber] of a parsed value; [None] when [ToPrimitive] throws.
    An object without a [toString] of its own reads "[object Object]";
    an array is the join of its elements with commas, [null] rendered
    empty.  No numeric literal has a comma; the string of a single
    number converts back to that number, a negative zero printing as
    "0". *)
Fixpoint ToNumber (v : json) : option float :=
  match v with
  | JNull => Some zero
  | JBool b => Some (if b then one else zero)
  | JNum x => Some x
  | JStr s => Some (StringToNumber s)
  | JObj _ => if has_primitive_value v then Some nan else None
  | JArr [] => Some zero
  | JArr [e] =>
      match e with
      | JNull => Some zero
      | JBool _ => Some nan
      | JNum x => Some (if is_zero x then zero else x)
      | JStr _ | JArr _ | JObj _ => ToNumber e
      end
  | JArr (_ :: _ :: _) => if has_primitive_value v then Some nan else None
  end.

(** [ToNumber] of a value that may be [undefined]. *)
Definition to_number (v : jsvalue) : option float :=
  match v with
  | None => Some nan
  | Some j => ToNumber j
  end.

(** [typeof v !== 'number'] *)
Definition typeof_not_number (v : jsvalue) : bool :=
  match v with
  | Some (JNum _) => false
  | _ => true
  end.

(** The global [isNaN(v)]; [None] when the conversion throws. *)
Definition isNaN (v : jsvalue) : option bool :=
  option_map is_nan (to_number v).

(** [v > 0]; [None] when the conversion throws. *)
Definition gt_zero (v : jsvalue) : option bool :=
  option_map (fun x => (zero <? x)%float) (to_number v).

(** [(a / b) * 100]: [a] is converted first, then [b]; [None] when
    either conversion throws. *)
Definition percent_of (a b : jsvalue) : option float :=
  match to_number a with
  | Some x =>
      match to_number b with
      | Some y => Some (x / y * 100)%float
      | None => None
      end
  | None => None
  end.

(** [ToBoolean v], the test of [!v] and [v || w] *)
Definition truthy (v : jsvalue) : bool :=
  match v with
  | None | Some JNull => false
  | Some (JBool b) => b
  | Some (JNum x) => negb (is_zero x || is_nan x)
  | Some (JStr s) => match s with [] => false | _ :: _ => true end
  | Some (JArr _) | Some (JObj _) => true
  end.

(** [Array.isArray v] *)
Definition isArray (v : jsvalue) : bool :=
  match v with
  | Some (JArr _) => true
  | _ => false
  end.

(** [text.match(/\{[\s\S]*\}/)].  The pattern has no flags: the match
    is the one at the leftmost start that succeeds, and within it the
    star takes as many code units as still let the closing brace
    match. *)

(** [[\s\S]*\}] matched at the head of [s]: the star is greedy, it
    first takes the head and gives it back only when the rest fails. *)
Fixpoint match_star_rbrace (s : jsstring) : option jsstring :=
  match s with
  | [] => None
  | c :: s' =>
      match match_star_rbrace s' with
      | Some m => Some (c :: m)
      | None => if is_char "}" c then Some [c] else None
      end
  end.

(** The whole pattern tried at each start in turn; the result is
    [match[0]], [None] for a [null] match. *)
Fixpoint regex_match (s : jsstring) : option jsstring :=
  match s with
  | [] => None
  | c :: s' =>
      if is_char "{" c then
        match match_star_rbrace s' with
        | Some m => Some (c :: m)
        | None => regex_match s'
        end
      else regex_match s'
  end.

End JS.

(* ================================================================= *)
(** ** The inference service and asynchronous computations *)

(** The system message of a chat request: one of the four literals of
    the route. *)
Inductive SystemMessage : Type :=
| SentimentAssistantKo      (* line 59 *)
| KeywordAssistantKo        (* line 110 *)
| ReviewAssistantKo         (* line 136, first branch *)
| ReviewAssistantEn.        (* line 136, second branch *)

(** The user message: the template and the values interpolated in it. *)
Inductive Prompt : Type :=
| promptEn (reviews : list json)                        (* lines 16-43 *)
| sentimentPrompt (reviews : list json)                 (* lines 47-53 *)
| keywordPrompt (reviews sentiments : list json).       (* lines 80-105 *)

(** The argument of [openai.chat.completions.create]. *)
Record ChatRequest : Type := {
  model : jsstring;
  system : SystemMessage;
  user : Prompt;
  temperature : float;
  max_tokens : Z
}.

(** [choices[i].message.content] is a string or [null]. *)
Record Choice : Type := { content : option jsstring }.
Record Completion : Type := { choices : list Choice }.

(** A thrown value, seen through its [message] property. *)
Inductive Exn : Type := Thrown (message : jsstring).

Definition message_of (e : Exn) : jsstring :=
  match e with Thrown m => m end.

(** What the promise of a [create] call settles to. *)
Inductive ApiOutcome : Type :=
| Resolves (c : Completion)
| Rejects (e : Exn).

(** An [async] function body: it returns, throws, or awaits an
    inference call and goes on with what the call settled to. *)
Inductive Async (A : Type) : Type :=
| Return (a : A)
| Throw (e : Exn)
| Await (req : ChatRequest) (k : ApiOutcome -> Async A).
Arguments Throw {A}.
Arguments Await {A}.

Fixpoint bind {A B : Type} (m : Async A) (f : A -> Async B) : Async B :=
  match m with
  | Return a => f a
  | Throw e => Throw e
  | Await req k => Await req (fun o => bind (k o) f)
  end.

(** [try { m } catch (err) { h err }] *)
Fixpoint try_catch {A : Type} (m : Async A) (h : Exn -> Async A) : Async A :=
  match m with
  | Return a => Return a
  | Throw e => h e
  | Await req k => Await req (fun o => try_catch (k o) h)
  end.

Notation "x <- m ;; k" := (bind m (fun x => k))
  (at level 61, m at next level, right associativity).

(** [await openai.chat.completions.create(req)] *)
Definition create (req : ChatRequest) : Async Completion :=
  Await req (fun o =>
    match o with
    | Resolves c => Return c
    | Rejects e => Throw e
    end).

(** The service as the handler meets it: what each call settles to,
    given the calls made before it. *)
Definition Service := list ChatRequest -> ChatRequest -> ApiOutcome.

Inductive Settled (A : Type) : Type :=
| Fulfilled (a : A)
| Rejected (e : Exn).
Arguments Rejected {A}.

(** Runs a computation against a service; the first component is the
    log of the inference calls, in the order they were made. *)
Fixpoint run {A : Type} (svc : Service) (log : list ChatRequest) (m : Async A)
  : list ChatRequest * Settled A :=
  match m with
  | Return a => (log, Fulfilled a)
  | Throw e => (log, Rejected e)
  | Await req k => run svc (log ++ [req]) (k (svc log req))
  end.

(* ================================================================= *)
(** ** The route *)

(** [NextResponse.json(body, { status })]: [body] is the value handed
    over, before it is serialized. *)
Record Response : Type := { status : Z; body : json }.

(** What the handler takes from its surroundings: the environment
    variable, and the messages of the errors the engine itself throws. *)
Record Runtime : Type := {
  OPENAI_API_KEY : option jsstring;
  (** message of the SyntaxError [JSON.parse] throws on a text *)
  syntax_error_message : jsstring -> jsstring;
  (** message of the TypeError of destructuring [null] (line 7) *)
  destructure_error_message : jsstring;
  (** message of the TypeError of [choices[0].message] on an empty
      [choices] *)
  no_choice_error_message : jsstring;
  (** message of the TypeError of [ToPrimitive] on a value that has no
      primitive value *)
  to_primitive_error_message : jsstring
}.

Definition k_error := str "error".
Definition k_reviews := str "reviews".
Definition k_locale := str "locale".
Definition k_sentiments := str "sentiments".
Definition k_positive := str "positive".
Definition k_negative := str "negative".
Definition k_totalCount := str "totalCount".
Definition k_positiveCount := str "positiveCount".
Definition k_negativeCount := str "negativeCount".
Definition k_keywords := str "keywords".
Definition k_reviewIndices := str "reviewIndices".

Definition gpt_4_1_mini := str "gpt-4.1-mini".

(** [NextResponse.json({ error: msg }, { status })] *)
Definition error_response (msg : jsstring) (st : Z) : Response :=
  {| status := st; body := JObj [(k_error, JStr msg)] |}.

(** [NextResponse.json(v)] *)
Definition ok_response (v : json) : Response :=
  {| status := 200; body := v |}.

(** [msg || fallback] on strings *)
Definition or_else (msg fallback : jsstring) : jsstring :=
  match msg with
  | [] => fallback
  | _ :: _ => msg
  end.

(** [v.k = x] on a parsed value; every value the handler assigns to is
    an object (see [extracted_is_object]). *)
Definition set_prop (v : json) (k : jsstring) (x : json) : json :=
  match v with
  | JObj m => JObj (obj_set m k x)
  | _ => v
  end.

(** [v.length] of an array *)
Definition array_length (v : jsvalue) : nat :=
  match v with
  | Some (JArr l) => length l
  | _ => 0
  end.

Definition array_elems (v : jsvalue) : list json :=
  match v with
  | Some (JArr l) => l
  | _ => []
  end.

(** [v === s] for a string literal [s] *)
Definition strict_eq_string (v : jsvalue) (s : jsstring) : bool :=
  match v with
  | Some (JStr x) => jsstring_eqb x s
  | _ => false
  end.

(** Lines 121-126 and 148-153, the same statements on [keywordJson] and
    on [json]:
<<
    if (typeof json.positive !== 'number' || isNaN(json.positive)) {
      json.positive = json.totalCount > 0
        ? (json.positiveCount / json.totalCount) * 100 : 0;
    }
    if (typeof json.negative !== 'number' || isNaN(json.negative)) {
      json.negative = json.totalCount > 0
        ? (json.negativeCount / json.totalCount) * 100 : 0;
    }
>>
    The comparison and the division convert their operands to numbers,
    which throws a TypeError on a value that has no primitive value. *)
Definition fallback_percentage (payload : json) (count : jsstring)
  : option float :=
  match JS.gt_zero (prop payload k_totalCount) with
  | Some true => JS.percent_of (prop payload count) (prop payload k_totalCount)
  | Some false => Some zero
  | None => None
  end.

(** One of the two statements; [None] when it throws.  The second
    operand of [||] is evaluated only when the first is false. *)
Definition ensure_percentage (payload : json) (field count : jsstring)
  : option json :=
  match (if JS.typeof_not_number (prop payload field) then Some true
         else JS.isNaN (prop payload field)) with
  | Some true =>
      match fallback_percentage payload count with
      | Some x => Some (set_prop payload field (JNum x))
      | None => None
      end
  | Some false => Some payload
  | None => None
  end.

Definition ensure_percentages (payload : json) : option json :=
  match ensure_percentage payload k_positive k_positiveCount with
  | Some payload => ensure_percentage payload k_negative k_negativeCount
  | None => None
  end.

Section Route.

Variable rt : Runtime.

(** [JSON.parse(text)] inside a [try] *)
Definition JSON_parse (text : jsstring) : Async json :=
  match JSON.parse text with
  | Some v => Return v
  | None => Throw (Thrown (syntax_error_message rt text))
  end.

(** [completion.choices[0].message.content || ''] *)
Definition message_content (c : Completion) : Async jsstring :=
  match choices c with
  | [] => Throw (Thrown (no_choice_error_message rt))
  | c0 :: _ =>
      Return (match content c0 with
              | Some s => or_else s []
              | None => []
              end)
  end.

(** [const match = text.match(/\{[\s\S]*\}/);
     const json = match ? JSON.parse(match[0]) : null;] *)
Definition extract (text : jsstring) : Async json :=
  match JS.regex_match text with
  | Some m => JSON_parse m
  | None => Return JNull
  end.

(** [catch (err) { return NextResponse.json(
                      { error: err.message || fallback }, { status: 500 }) }] *)
Definition catch_500 {A : Type} (wrap : Response -> A) (fallback : jsstring)
           (err : Exn) : Async A :=
  Return (wrap (error_response (or_else (message_of err) fallback) 500)).

(** [values.map((r, i) => `${i + 1}. ${r}`).join('\n')] inside a
    template (lines 42, 52, 101 and 104): each value is converted to a
    string in turn, which throws a TypeError on a value that has no
    primitive value.  The text itself is kept as the template and its
    values, see [Prompt]. *)
Definition renders (values : list json) : bool :=
  forallb JS.has_primitive_value values.

Definition interpolate (values : list json) : Async unit :=
  if renders values then Return tt
  else Throw (Thrown (to_primitive_error_message rt)).

Definition sentiment_request (reviews : list json) : ChatRequest :=
  {| model := gpt_4_1_mini;
     system := SentimentAssistantKo;
     user := sentimentPrompt reviews;
     temperature := Num.of_decimal false 2 (-1);
     max_tokens := 512 |}.

Definition keyword_request (reviews sentiments : list json) : ChatRequest :=
  {| model := gpt_4_1_mini;
     system := KeywordAssistantKo;
     user := keywordPrompt reviews sentiments;
     temperature := Num.of_decimal false 3 (-1);
     max_tokens := 2048 |}.

Definition single_request (locale : jsvalue) (reviews : list json)
  : ChatRequest :=
  {| model := gpt_4_1_mini;
     system := if strict_eq_string locale (str "ko")
               then ReviewAssistantKo else ReviewAssistantEn;
     user := promptEn reviews;
     temperature := Num.of_decimal false 3 (-1);
     max_tokens := 2048 |}.

(** Lines 65-74: the checks on the first answer of the two-pass
    branch; the result is [sentiments]. *)
Definition check_sentiments (sentimentJson : json) (reviews : list json)
  : Async (list json) :=
  if negb (JS.truthy (Some sentimentJson))
     || negb (JS.isArray (prop sentimentJson k_sentiments))
  then Throw (Thrown (str "No valid sentiments array in OpenAI response"))
  else
    let sentiments := array_elems (prop sentimentJson k_sentiments) in
    if negb (length sentiments =? length reviews)
    then Throw (Thrown (str "Sentiment array length mismatch"))
    else Return sentiments.

(** Lines 55-77: the first call of the two-pass branch.  [inl] is the
    response the [catch] block returns from the handler, [inr] the
    sentiments the handler goes on with. *)
Definition sentiment_step (reviews : list json)
  : Async (Response + list json) :=
  try_catch
    (sentimentCompletion <- create (sentiment_request reviews) ;;
     sentimentText <- message_content sentimentCompletion ;;
     sentimentJson <- extract sentimentText ;;
     sentiments <- check_sentiments sentimentJson reviews ;;
     Return (inr sentiments))
    (catch_500 inl (str "OpenAI sentiment step error")).

(** Lines 116-127 and 142-154: from the completion to the response. *)
Definition respond (completion : Completion) (no_json : jsstring)
  : Async Response :=
  text <- message_content completion ;;
  payload <- extract text ;;
  if negb (JS.truthy (Some payload)) then Throw (Thrown no_json)
  else
    match ensure_percentages payload with
    | Some payload => Return (ok_response payload)
    | None => Throw (Thrown (to_primitive_error_message rt))
    end.

(** Lines 106-130 *)
Definition keyword_step (reviews sentiments : list json) : Async Response :=
  try_catch
    (keywordCompletion <- create (keyword_request reviews sentiments) ;;
     respond keywordCompletion (str "No JSON in OpenAI keyword response"))
    (catch_500 (fun r => r) (str "OpenAI keyword step error")).

(** Lines 132-157 *)
Definition single_pass (locale : jsvalue) (reviews : list json)
  : Async Response :=
  try_catch
    (completion <- create (single_request locale reviews) ;;
     respond completion (str "No JSON in OpenAI response"))
    (catch_500 (fun r => r) (str "OpenAI error")).

(** The handler, on the value [req.json()] resolved to.  (A body that
    is not JSON rejects that promise at line 7, before anything else;
    the client of line 4 is taken as built.)  The three templates are
    evaluated where the source has them: [promptEn] before the test of
    the locale, [sentimentPrompt] before the first [try], and
    [keywordPrompt] between the two [try] blocks; none of them is
    inside a [try], so an error thrown there leaves the handler. *)
Definition POST (request : json) : Async Response :=
  match request with
  | JNull => Throw (Thrown (destructure_error_message rt))
  | _ =>
      let reviews := prop request k_reviews in
      let locale := prop request k_locale in
      if negb (JS.truthy (option_map JStr (OPENAI_API_KEY rt))) then
        Return (error_response (str "OpenAI API key not set.") 500)
      else if negb (JS.truthy reviews) || negb (JS.isArray reviews)
              || (array_length reviews =? 0) then
        Return (error_response (str "No reviews provided.") 400)
      else
        _ <- interpolate (array_elems reviews) ;;             (* lines 16-43 *)
        if strict_eq_string locale (str "ko") then
          _ <- interpolate (array_elems reviews) ;;           (* lines 47-53 *)
          r <- sentiment_step (array_elems reviews) ;;
          match r with
          | inl response => Return response
          | inr sentiments =>
              _ <- interpolate (array_elems reviews) ;;       (* line 101 *)
              _ <- interpolate sentiments ;;                  (* line 104 *)
              keyword_step (array_elems reviews) sentiments
          end
        else single_pass locale (array_elems reviews)
  end.

End Route.

(* ================================================================= *)
(** ** The extractor in the words of the specification *)

(** Index of the first occurrence of [c] in [s]. *)
Fixpoint index_of (c : char16) (s : jsstring) : option nat :=
  match s with
  | [] => None
  | x :: s' => if N.eqb x c then Some 0 else option_map S (index_of c s')
  end.

(** Index of the last occurrence of [c] in [s]. *)
Fixpoint last_index_of (c : char16) (s : jsstring) : option nat :=
  match s with
  | [] => None
  | x :: s' =>
      match last_index_of c s' with
      | Some i => Some (S i)
      | None => if N.eqb x c then Some 0 else None
      end
  end.

(** "Locate the first { and the last } in the raw text": the span from
    the one to the other, both included; no span when either is missing
    or the last closing brace comes before the first opening one. *)
Definition brace_span (text : jsstring) : option jsstring :=
  match index_of (ch "{") text, last_index_of (ch "}") text with
  | Some i, Some j =>
      if i <? j then Some (firstn (j + 1 - i) (skipn i text)) else None
  | _, _ => None
  end.

(* ================================================================= *)
(** ** The handler between two calls *)

(** The text of a choice: [message.content || ''] *)
Definition content_text (c0 : Choice) : jsstring :=
  match content c0 with
  | Some s => s
  | None => []
  end.

(** A completion with the single choice [text]. *)
Definition answer (text : jsstring) : Completion :=
  {| choices := [ {| content := Some text |} ] |}.

(** A computation that awaits nothing: it returns or throws. *)
Definition settles {A : Type} (m : Async A) : Prop :=
  (exists a, m = Return a) \/ (exists e, m = Throw e).

(** The value of [try { m } catch (err) { return error 500 }] for an
    [m] that settles: its own result, or the error response of the
    [catch] block. *)
Definition caught {A : Type} (wrap : Response -> A) (fallback : jsstring)
           (m : Async A) : A :=
  match m with
  | Return a => a
  | Throw e => wrap (error_response (or_else (message_of e) fallback) 500)
  | Await _ _ => wrap (error_response fallback 500)
  end.

(** What a call settled to, as the code after the [await] sees it. *)
Definition awaited (o : ApiOutcome) : Async Completion :=
  match o with
  | Resolves c => Return c
  | Rejects e => Throw e
  end.

(** The outcome of the last call of a log. *)
Definition last_outcome (svc : Service) (calls : list ChatRequest)
  : option ApiOutcome :=
  match rev calls with
  | req :: before => Some (svc (rev before) req)
  | [] => None
  end.

(** The code between the first [await] of the two-pass branch and the
    end of its [try] (lines 65-74). *)
Definition after_sentiment_call (rt : Runtime) (reviews : list json)
           (c : Completion) : Async (Response + list json) :=
  sentimentText <- message_content rt c ;;
  sentimentJson <- extract rt sentimentText ;;
  sentiments <- check_sentiments sentimentJson reviews ;;
  Return (inr sentiments).

(** What the first call of the two-pass branch leaves the handler with. *)
Definition stage1 (rt : Runtime) (svc : Service) (reviews : list json)
  : Response + list json :=
  caught inl (str "OpenAI sentiment step error")
         (bind (awaited (svc [] (sentiment_request reviews)))
               (after_sentiment_call rt reviews)).

(** The response after the second call of the two-pass branch. *)
Definition stage2 (rt : Runtime) (svc : Service)
           (reviews sentiments : list json) : Response :=
  caught (fun r => r) (str "OpenAI keyword step error")
         (bind (awaited (svc [sentiment_request reviews]
                             (keyword_request reviews sentiments)))
               (fun c => respond rt c
                           (str "No JSON in OpenAI keyword response"))).

(** The response after the call of the single-pass branch. *)
Definition single (rt : Runtime) (svc : Service) (locale : jsvalue)
           (reviews : list json) : Response :=
  caught (fun r => r) (str "OpenAI error")
         (bind (awaited (svc [] (single_request locale reviews)))
               (fun c => respond rt c (str "No JSON in OpenAI response"))).

(** A response of the [catch] blocks. *)
Definition failure (response : Response) : Prop :=
  exists msg, msg <> [] /\ response = error_response msg 500.

(** A response built from the payload of the outcome [o]. *)
Definition success_from (o : ApiOutcome) (response : Response) : Prop :=
  exists c0 rest span m result,
    o = Resolves {| choices := c0 :: rest |}
    /\ brace_span (content_text c0) = Some span
    /\ JSON.parse span = Some (JObj m)
    /\ ensure_percentages (JObj m) = Some result
    /\ response = ok_response result.

(** What ends a run without a response, for a request that passed the
    two checks of the handler: a TypeError thrown while a template is
    filled in, by a review before any call, or by a sentiment of the
    accepted first answer, after the first call. *)
Definition unrendered (rt : Runtime) (svc : Service) (request : json)
           (calls : list ChatRequest) (e : Exn) : Prop :=
  let reviews := array_elems (prop request k_reviews) in
  e = Thrown (to_primitive_error_message rt)
  /\ ((calls = [] /\ renders reviews = false)
      \/ exists sentiments,
           calls = [sentiment_request reviews]
           /\ renders reviews = true
           /\ prop request k_locale = Some (JStr (str "ko"))
           /\ stage1 rt svc reviews = inr sentiments
           /\ renders sentiments = false).

(* ================================================================= *)
(** ** The result in the words of the specification *)

Definition present (v : jsvalue) : bool :=
  match v with
  | Some _ => true
  | None => false
  end.

(** "Percentages numeric and in [0,100] (never NaN or undefined)" *)
Definition percentage_in_range (v : jsvalue) : bool :=
  match v with
  | Some (JNum x) => ((0 <=? x) && (x <=? 100))%float
  | _ => false
  end.

(** "A well-formed AnalysisResult: all required fields present,
    percentages numeric and in [0,100]" *)
Definition well_formed_AnalysisResult (v : json) : bool :=
  present (prop v k_totalCount)
  && present (prop v k_positiveCount)
  && present (prop v k_negativeCount)
  && present (prop v k_keywords)
  && percentage_in_range (prop v k_positive)
  && percentage_in_range (prop v k_negative).

(** A percentage the normalizer keeps: a number other than NaN. *)
Definition percentage_given (v : jsvalue) : bool :=
  match v with
  | Some (JNum x) => negb (is_nan x)
  | _ => false
  end.

(** "One of {positive, negative}" *)
Definition is_SentimentLabel (v : json) : bool :=
  match v with
  | JStr s => jsstring_eqb s (str "positive") || jsstring_eqb s (str "negative")
  | _ => false
  end.

(** "Every index inside any Keyword's reviewIndices must be < totalCount
    and >= 0" *)
Definition index_in_range (totalCount : jsvalue) (i : json) : bool :=
  match i with
  | JNum x =>
      match JS.to_number totalCount with
      | Some t => ((0 <=? x) && (x <? t))%float
      | None => false
      end
  | _ => false
  end.

Definition indices_in_range (result : json) : bool :=
  forallb (fun keyword =>
             forallb (index_in_range (prop result k_totalCount))
                     (array_elems (prop keyword k_reviewIndices)))
          (array_elems (prop result k_keywords)).

(** The batch the request validation turns down: "missing, not an
    array, or of length zero". *)
Definition batch_rejected (reviews : jsvalue) : bool :=
  match reviews with
  | Some (JArr (_ :: _)) => false
  | _ => true
  end.

(* ================================================================= *)
(** ** Sample surroundings *)

(** A runtime with the key [key] and the messages of V8. *)
Definition v8 (key : option jsstring) : Runtime :=
  {| OPENAI_API_KEY := key;
     syntax_error_message := fun _ => str "Unexpected token in JSON";
     destructure_error_message :=
       str "Cannot destructure property 'reviews' of null";
     no_choice_error_message :=
       str "Cannot read properties of undefined (reading 'message')";
     to_primitive_error_message :=
       str "Cannot convert object to primitive value" |}.

Definition some_key : option jsstring := Some (str "sk-test").

(** A service that answers the n-th call with the n-th text. *)
Definition scripted (answers : list jsstring) : Service :=
  fun log _ => Resolves (answer (nth (length log) answers [])).

(** [{ reviews, locale }] *)
Definition request_of (reviews : list json) (locale : string) : json :=
  JObj [(k_reviews, JArr reviews); (k_locale, JStr (str locale))].

(** ["k"], a key or string literal of a JSON text *)
Definition quoted (k : string) : jsstring := dquote ++ str k ++ dquote.

(** Texts a model may answer with. *)

(** [{"a":1}] in prose *)
Definition text_wrapped : jsstring :=
  str "Sure! {" ++ quoted "a" ++ str ":1} Thanks.".

(** A valid object followed by more braces: the outer span is not JSON. *)
Definition text_two_objects : jsstring :=
  str "{" ++ quoted "a" ++ str ":1} and {oops}".

(** An object whose inner brace is closed and whose outer one is not. *)
Definition text_unbalanced : jsstring :=
  str "x {" ++ quoted "a" ++ str ":{" ++ quoted "b" ++ str ":1} y".

(** [{"sentiments":["positive"]}] *)
Definition text_one_sentiment : jsstring :=
  str "{" ++ quoted "sentiments" ++ str ":[" ++ quoted "positive" ++ str "]}".

(** [{"sentiments":["neutral"]}] *)
Definition text_neutral_sentiment : jsstring :=
  str "{" ++ quoted "sentiments" ++ str ":[" ++ quoted "neutral" ++ str "]}".

(** A result whose percentages leave [0,100]. *)
Definition text_percentages_out_of_range : jsstring :=
  str "{" ++ quoted "totalCount" ++ str ":1,"
  ++ quoted "positiveCount" ++ str ":1,"
  ++ quoted "negativeCount" ++ str ":0,"
  ++ quoted "positive" ++ str ":150,"
  ++ quoted "negative" ++ str ":-50,"
  ++ quoted "keywords" ++ str ":[]}".

(** A result for one review whose keyword points at review 7. *)
Definition text_index_out_of_range : jsstring :=
  str "{" ++ quoted "totalCount" ++ str ":1,"
  ++ quoted "positiveCount" ++ str ":1,"
  ++ quoted "negativeCount" ++ str ":0,"
  ++ quoted "positive" ++ str ":100,"
  ++ quoted "negative" ++ str ":0,"
  ++ quoted "keywords" ++ str ":[{"
  ++ quoted "keyword" ++ str ":" ++ quoted "price" ++ str ","
  ++ quoted "sentiment" ++ str ":" ++ quoted "positive" ++ str ","
  ++ quoted "count" ++ str ":1,"
  ++ quoted "reviewIndices" ++ str ":[7],"
  ++ quoted "aspect" ++ str ":" ++ quoted "price" ++ str "}]}".

(** Counts and percentages that do not agree with each other. *)
Definition inconsistent_result : json :=
  JObj [(k_totalCount, JNum 10); (k_positiveCount, JNum 1);
        (k_negativeCount, JNum 1); (k_positive, JNum 90);
        (k_negative, JNum 90); (k_keywords, JArr [])].

(* ================================================================= *)
(** ** Further vocabulary for the route *)

(** The statuses the handler answers with. *)
Definition handler_status (st : Z) : bool :=
  (st =? 200)%Z || (st =? 400)%Z || (st =? 500)%Z.

(** A request as one of the three [create] calls writes it: the system
    message and the template go together, and the Korean message of
    line 136 is not among them. *)
Definition request_as_written (req : ChatRequest) : bool :=
  jsstring_eqb (model req) gpt_4_1_mini
  && match system req, user req with
     | SentimentAssistantKo, sentimentPrompt _ => (max_tokens req =? 512)%Z
     | KeywordAssistantKo, keywordPrompt _ _ => (max_tokens req =? 2048)%Z
     | ReviewAssistantEn, promptEn _ => (max_tokens req =? 2048)%Z
     | _, _ => false
     end.

Definition not_char (a : ascii) (c : char16) : bool := negb (is_char a c).

(** A service that settles the n-th call to the n-th outcome. *)
Definition replaying (outcomes : list ApiOutcome) : Service :=
  fun log _ => nth (length log) outcomes (Rejects (Thrown [])).

(** The first call of an accepted request, and the fallback message of
    its [catch] block. *)
Definition first_request (request : json) : ChatRequest :=
  if strict_eq_string (prop request k_locale) (str "ko")
  then sentiment_request (array_elems (prop request k_reviews))
  else single_request (prop request k_locale)
                      (array_elems (prop request k_reviews)).

Definition first_fallback (request : json) : jsstring :=
  if strict_eq_string (prop request k_locale) (str "ko")
  then str "OpenAI sentiment step error"
  else str "OpenAI error".

(** The message of the handler when the first answer holds no span. *)
Definition first_no_json (request : json) : jsstring :=
  if strict_eq_string (prop request k_locale) (str "ko")
  then str "No valid sentiments array in OpenAI response"
  else str "No JSON in OpenAI response".

(** A field is settled in [q] when a pass over it changes nothing. *)
Definition settled_field (q : json) (field count : jsstring) : Prop :=
  ensure_percentage q field count = Some q.

(* ================================================================= *)
(** * The page [src/app/pages_back.tsx]

    The handlers of the [Home] component on an explicit state: the
    batch of reviews it cuts out of the text area, the request it
    sends, the locale switch and the keyword modal. *)

(** [s.split(sep)] for a separator of one code unit: the pieces between
    its occurrences, at least one piece. *)
Fixpoint split (sep : char16) (s : jsstring) : list jsstring :=
  match s with
  | [] => [[]]
  | c :: s' =>
      if N.eqb c sep then [] :: split sep s'
      else
        match split sep s' with
        | piece :: pieces => (c :: piece) :: pieces
        | [] => [[c]]
        end
  end.

(** [pieces.join(sep)] on an array of strings *)
Fixpoint join (sep : jsstring) (pieces : list jsstring) : jsstring :=
  match pieces with
  | [] => []
  | piece :: pieces' =>
      match pieces' with
      | [] => piece
      | _ :: _ => piece ++ sep ++ join sep pieces'
      end
  end.

Definition line_feed : char16 := 10%N.
Definition slash : char16 := ch "/".

(** Lines 60-63:
<<
    const reviewsArr = input
      .split('\n')
      .map((r) => r.trim())
      .filter((r) => r.length > 0);
>> *)
Definition reviewsArr (input : jsstring) : list jsstring :=
  filter (fun r => 0 <? length r)
         (map JS.trim (split line_feed input)).

Definition head_not_ws (s : jsstring) : Prop :=
  match s with
  | [] => True
  | c :: _ => JS.is_str_ws c = false
  end.

Module Quote.

Local Open Scope N_scope.

Definition is_high (c : char16) : bool := (55296 <=? c) && (c <=? 56319).
Definition is_low (c : char16) : bool := (56320 <=? c) && (c <=? 57343).

(** A hexadecimal digit in lower case. *)
Definition hex_digit (d : N) : char16 := if d <? 10 then 48 + d else 87 + d.

(** [UnicodeEscape]: a backslash, [u] and four hexadecimal digits. *)
Definition unicode_escape (c : char16) : jsstring :=
  [92; 117; hex_digit (c / 4096); hex_digit ((c / 256) mod 16);
   hex_digit ((c / 16) mod 16); hex_digit (c mod 16)].

(** [QuoteJSONString] on a code point that is one code unit and not the
    first half of a pair. *)
Definition quote_unit (c : char16) : jsstring :=
  if c =? 8 then [92; ch "b"]
  else if c =? 9 then [92; ch "t"]
  else if c =? 10 then [92; ch "n"]
  else if c =? 12 then [92; ch "f"]
  else if c =? 13 then [92; ch "r"]
  else if c =? 34 then [92; 34]
  else if c =? 92 then [92; 92]
  else if (c <? 32) || is_high c || is_low c then unicode_escape c
  else [c].

(** The code points of the string in turn: a surrogate pair is written
    as it is, a surrogate on its own is escaped. *)
Fixpoint quote_body (s : jsstring) : jsstring :=
  match s with
  | [] => []
  | c :: s' =>
      if is_high c then
        match s' with
        | d :: s'' =>
            if is_low d then c :: d :: quote_body s''
            else unicode_escape c ++ quote_body s'
        | [] => unicode_escape c
        end
      else quote_unit c ++ quote_body s'
  end.

(** [JSON.stringify(s)] for a string [s] *)
Definition quote (s : jsstring) : jsstring := 34 :: quote_body s ++ [34].

(** The numbers from [from], [n] of them. *)
Fixpoint range (n : nat) (from : N) : list N :=
  match n with
  | O => []
  | S n' => from :: range n' (N.succ from)
  end.

End Quote.

Definition escape_read_back (c : char16) : bool :=
  match Quote.unicode_escape c with
  | [_; _; h1; h2; h3; h4] =>
      match JSON.hex4 h1 h2 h3 h4 with
      | Some u => N.eqb u c
      | None => false
      end
  | _ => false
  end.

(** [JSON.stringify] of an array of strings *)
Definition stringify_strings (items : list jsstring) : jsstring :=
  str "[" ++ join (str ",") (map Quote.quote items) ++ str "]".

(** Line 74: [JSON.stringify({ reviews: reviewsArr, locale: lang })] *)
Definition request_body (reviews : list jsstring) (locale : jsstring)
  : jsstring :=
  str "{" ++ Quote.quote k_reviews ++ str ":" ++ stringify_strings reviews
  ++ str "," ++ Quote.quote k_locale ++ str ":" ++ Quote.quote locale
  ++ str "}".

(** The value the body stands for. *)
Definition request_value (reviews : list jsstring) (locale : jsstring) : json :=
  JObj [(k_reviews, JArr (map JStr reviews)); (k_locale, JStr locale)].

Module Home.

(** The language selector: ['en' | 'ko'] (line 35). *)
Inductive Lang : Type := en | ko.

Definition code (l : Lang) : jsstring :=
  match l with
  | en => str "en"
  | ko => str "ko"
  end.

(** What [reviews[key]] can give: an element of the array, its
    [length], or a property the array inherits from [Array.prototype]
    or [Object.prototype] (a method such as [map], [constructor]),
    kept by its name. *)
Inductive Member : Type :=
| Review (r : jsstring)
| Length (n : nat)
| Inherited (name : jsstring).

(** The state of the component that its handlers read and write
    (lines 35-49); [null] is [JNull] for [result] and [None] for
    [error].  The states of the modal are written from the result of
    the service, which nothing validates: the keyword and the sentiment
    are parsed values or [undefined], and the reviews shown are what
    the indices of the keyword find in [reviews]. *)
Record State : Type := {
  lang : Lang;
  input : jsstring;
  result : json;
  fileName : jsstring;
  loading : bool;
  error : option jsstring;
  modalOpen : bool;
  selectedKeyword : jsvalue;
  selectedReviews : list Member;
  selectedSentiment : jsvalue;
  reviews : list jsstring
}.

Definition setInput (v : jsstring) (st : State) : State :=
  {| lang := lang st; input := v; result := result st;
     fileName := fileName st; loading := loading st; error := error st;
     modalOpen := modalOpen st; selectedKeyword := selectedKeyword st;
     selectedReviews := selectedReviews st;
     selectedSentiment := selectedSentiment st; reviews := reviews st |}.

Definition setResult (v : json) (st : State) : State :=
  {| lang := lang st; input := input st; result := v;
     fileName := fileName st; loading := loading st; error := error st;
     modalOpen := modalOpen st; selectedKeyword := selectedKeyword st;
     selectedReviews := selectedReviews st;
     selectedSentiment := selectedSentiment st; reviews := reviews st |}.

Definition setFileName (v : jsstring) (st : State) : State :=
  {| lang := lang st; input := input st; result := result st;
     fileName := v; loading := loading st; error := error st;
     modalOpen := modalOpen st; selectedKeyword := selectedKeyword st;
     selectedReviews := selectedReviews st;
     selectedSentiment := selectedSentiment st; reviews := reviews st |}.

Definition setLoading (v : bool) (st : State) : State :=
  {| lang := lang st; input := input st; result := result st;
     fileName := fileName st; loading := v; error := error st;
     modalOpen := modalOpen st; selectedKeyword := selectedKeyword st;
     selectedReviews := selectedReviews st;
     selectedSentiment := selectedSentiment st; reviews := reviews st |}.

Definition setError (v : option jsstring) (st : State) : State :=
  {| lang := lang st; input := input st; result := result st;
     fileName := fileName st; loading := loading st; error := v;
     modalOpen := modalOpen st; selectedKeyword := selectedKeyword st;
     selectedReviews := selectedReviews st;
     selectedSentiment := selectedSentiment st; reviews := reviews st |}.

Definition setModalOpen (v : bool) (st : State) : State :=
  {| lang := lang st; input := input st; result := result st;
     fileName := fileName st; loading := loading st; error := error st;
     modalOpen := v; selectedKeyword := selectedKeyword st;
     selectedReviews := selectedReviews st;
     selectedSentiment := selectedSentiment st; reviews := reviews st |}.

Definition setSelectedKeyword (v : jsvalue) (st : State) : State :=
  {| lang := lang st; input := input st; result := result st;
     fileName := fileName st; loading := loading st; error := error st;
     modalOpen := modalOpen st; selectedKeyword := v;
     selectedReviews := selectedReviews st;
     selectedSentiment := selectedSentiment st; reviews := reviews st |}.

Definition setSelectedReviews (v : list Member) (st : State) : State :=
  {| lang := lang st; input := input st; result := result st;
     fileName := fileName st; loading := loading st; error := error st;
     modalOpen := modalOpen st; selectedKeyword := selectedKeyword st;
     selectedReviews := v;
     selectedSentiment := selectedSentiment st; reviews := reviews st |}.

Definition setSelectedSentiment (v : jsvalue) (st : State) : State :=
  {| lang := lang st; input := input st; result := result st;
     fileName := fileName st; loading := loading st; error := error st;
     modalOpen := modalOpen st; selectedKeyword := selectedKeyword st;
     selectedReviews := selectedReviews st;
     selectedSentiment := v; reviews := reviews st |}.

Definition setReviews (v : list jsstring) (st : State) : State :=
  {| lang := lang st; input := input st; result := result st;
     fileName := fileName st; loading := loading st; error := error st;
     modalOpen := modalOpen st; selectedKeyword := selectedKeyword st;
     selectedReviews := selectedReviews st;
     selectedSentiment := selectedSentiment st; reviews := v |}.

(** The initial values of the [useState] calls (lines 35-49). *)
Definition initial : State :=
  {| lang := en; input := []; result := JNull; fileName := [];
     loading := false; error := None; modalOpen := false;
     selectedKeyword := Some JNull; selectedReviews := [];
     selectedSentiment := Some JNull; reviews := [] |}.

(** The argument of [fetch] (lines 71-75). *)
Record Fetch : Type := {
  url : jsstring;
  method : jsstring;
  content_type : jsstring;
  body : jsstring
}.

(** What [res.json()] settles to. *)
Inductive Received : Type :=
| Json (data : json)
| NotJson (e : Exn).

(** What [fetch] settles to: a response with its [ok] flag, or a
    rejection. *)
Inductive FetchOutcome : Type :=
| Responds (ok : bool) (received : Received)
| Fails (e : Exn).

Definition Network := Fetch -> FetchOutcome.

(** What the handlers take from the browser: the message of the
    TypeError of reading a property of [null]; the message of the
    error that [new Error(v)] leaves in the [catch] block for a truthy
    [v] that is not a string ([ToString] of [v], or the message of the
    TypeError of a [v] that has no primitive value); and whether a
    name, read on an array of which it is not an own property, finds a
    truthy value on [Array.prototype] or [Object.prototype], as [map]
    and [constructor] do.  (The own properties of an array are its
    indices and [length]; the inherited ones have the names of
    identifiers: none is a decimal numeral, the string of a Number, or
    a text with a comma.) *)
Record Browser : Type := {
  null_read_message : jsstring;
  ToString : json -> jsstring;
  inherited_truthy : jsstring -> bool
}.

(** Line 77: what [throw new Error(data.error || 'Unknown error')]
    throws. *)
Definition thrown_for (b : Browser) (data : json) : Exn :=
  match data with
  | JNull => Thrown (null_read_message b)
  | _ =>
      match prop data k_error with
      | Some v =>
          if JS.truthy (Some v) then
            Thrown (match v with
                    | JStr s => s
                    | _ => ToString b v
                    end)
          else Thrown (str "Unknown error")
      | None => Thrown (str "Unknown error")
      end
  end.

(** Lines 56-84 *)
Definition handleAnalyze (b : Browser) (net : Network) (st : State)
  : list Fetch * State :=
  let st := setResult JNull (setError None (setLoading true st)) in
  let reviewsArr := reviewsArr (input st) in
  let st := setReviews reviewsArr st in
  if length reviewsArr =? 0 then
    ([], setLoading false (setError (Some (str "No reviews found.")) st))
  else
    let request :=
      {| url := str "/api/analyze";
         method := str "POST";
         content_type := str "application/json";
         body := request_body reviewsArr (code (lang st)) |} in
    let catch err :=
      setError (Some (or_else (message_of err)
                              (str "Failed to analyze reviews."))) st in
    ([request],
     setLoading false
       match net request with
       | Fails err => catch err
       | Responds _ (NotJson err) => catch err
       | Responds ok (Json data) =>
           if negb ok then catch (thrown_for b data)
           else setResult data st
       end).

(** Lines 94-99 *)
Definition handleBack (st : State) : State :=
  setFileName [] (setInput [] (setError None (setResult JNull st))).

(** Lines 132-137 on the current path: the path handed to
    [router.push].  [segments[1] = newLocale] writes the second
    element, adding it when the array has one. *)
Definition set_second (segments : list jsstring) (v : jsstring)
  : list jsstring :=
  match segments with
  | [] => [[]; v]
  | first :: rest =>
      match rest with
      | [] => [first; v]
      | _ :: rest' => first :: v :: rest'
      end
  end.

Definition handleLocaleChange (pathname newLocale : jsstring) : jsstring :=
  join [slash] (set_second (split slash pathname) newLocale).

Definition k_keyword := str "keyword".
Definition k_sentiment := str "sentiment".

(** The integer a Number is, when it is one and is not negative; a
    negative zero is the integer 0. *)
Definition integer_value (x : float) : option Z :=
  match Prim2SF x with
  | SpecFloat.S754_zero _ => Some 0%Z
  | SpecFloat.S754_finite false m e =>
      if (0 <=? e)%Z then Some (Zpos m * 2 ^ e)%Z
      else if (Zpos m mod 2 ^ (- e) =? 0)%Z then Some (Zpos m / 2 ^ (- e))%Z
      else None
  | _ => None
  end.

(** [reviews[x]] for a Number [x]: the element at that position when
    [x] is an integer within the array, [undefined] otherwise (the
    string of any other Number names no property of an array). *)
Definition at_index (reviews : list jsstring) (x : float) : option jsstring :=
  match integer_value x with
  | Some z =>
      if (z <? Z.of_nat (length reviews))%Z
      then nth_error reviews (Z.to_nat z)
      else None
  | None => None
  end.

(** The array index a property name is: a decimal numeral in canonical
    form, that is "0" or digits that do not start with a zero. *)
Definition array_index (name : jsstring) : option nat :=
  match name with
  | [] => None
  | c :: rest =>
      if forallb is_digit name
         && (negb (is_char "0" c) || (length rest =? 0))
      then Some (Z.to_nat (Num.digits_val 10 digit_val name 0))
      else None
  end.

(** [reviews[name]] for a property name: an element, the length, or
    what the array inherits under that name. *)
Definition get_named (b : Browser) (reviews : list jsstring)
           (name : jsstring) : option Member :=
  match array_index name with
  | Some i => option_map Review (nth_error reviews i)
  | None =>
      if jsstring_eqb name (str "length") then Some (Length (length reviews))
      else if inherited_truthy b name then Some (Inherited name)
      else None
  end.

(** [reviews[idx]] for a parsed value [idx]: [ToPropertyKey] turns it
    into a property name, through [ToPrimitive] for an array or an
    object; the outer [None] is the TypeError of a value that has no
    primitive value.  An array of one element has the name of that
    element ([null] giving the empty name), an array of more elements a
    name with a comma. *)
Fixpoint get (b : Browser) (reviews : list jsstring) (idx : json)
  : option (option Member) :=
  match idx with
  | JNum x => Some (option_map Review (at_index reviews x))
  | JStr name => Some (get_named b reviews name)
  | JNull => Some (get_named b reviews (str "null"))
  | JBool t =>
      Some (get_named b reviews (if t then str "true" else str "false"))
  | JObj _ =>
      if JS.has_primitive_value idx
      then Some (get_named b reviews (str "[object Object]"))
      else None
  | JArr [] => Some (get_named b reviews [])
  | JArr [e] =>
      match e with
      | JNull => Some (get_named b reviews [])
      | _ => get b reviews e
      end
  | JArr (_ :: _ :: _) =>
      if JS.has_primitive_value idx then Some None else None
  end.

(** [Boolean(v)] on what [reviews[idx]] gave *)
Definition member_truthy (m : Member) : bool :=
  match m with
  | Review r => 0 <? length r
  | Length n => 0 <? n
  | Inherited _ => true
  end.

(** Line 114:
    [keywordObj.reviewIndices.map((idx) => reviews[idx]).filter(Boolean)];
    [None] when reading at an index throws. *)
Fixpoint reviewsToShow (b : Browser) (reviews : list jsstring)
         (indices : list json) : option (list Member) :=
  match indices with
  | [] => Some []
  | idx :: rest =>
      match get b reviews idx, reviewsToShow b reviews rest with
      | Some v, Some shown =>
          Some (match v with
                | Some m => if member_truthy m then m :: shown else shown
                | None => shown
                end)
      | _, _ => None
      end
  end.

(** How a handler that is not [async] ends: it returns, having written
    the states, or it throws. *)
Inductive Outcome : Type :=
| Done (st : State)
| Throws.

(** Lines 111-119.  The argument is an element of [result.keywords]
    (lines 295, 305 and 322, 332), a parsed value that the annotation
    [KeywordObj] does not check. *)
Definition handleKeywordClick (b : Browser) (st : State) (keywordObj : json)
  : Outcome :=
  if negb (JS.truthy (Some (result st)))
     || negb (JS.truthy (prop (result st) k_keywords))
     || negb (JS.isArray (prop (result st) k_keywords))
  then Done st
  else
    match keywordObj with
    | JNull => Throws
    | _ =>
        let reviewIndices := prop keywordObj k_reviewIndices in
        if negb (JS.truthy reviewIndices) || negb (JS.isArray reviewIndices)
        then Done st
        else
          match reviewsToShow b (reviews st) (array_elems reviewIndices) with
          | None => Throws
          | Some shown =>
              Done (setModalOpen true
                      (setSelectedSentiment (prop keywordObj k_sentiment)
                         (setSelectedReviews shown
                            (setSelectedKeyword (prop keywordObj k_keyword)
                                                st))))
          end
    end.

(** A browser with messages of V8; of the names an array inherits, the
    ones the examples read. *)
Definition chrome : Browser :=
  {| null_read_message := str "Cannot read properties of null";
     ToString := fun _ => str "[object Object]";
     inherited_truthy := fun name =>
       existsb (jsstring_eqb name)
               [str "map"; str "filter"; str "join"; str "constructor";
                str "toString"; str "hasOwnProperty"; str "__proto__"] |}.

End Home.

(** The fetch of [handleAnalyze] for a state. *)
Definition analyze_request (st : Home.State) : Home.Fetch :=
  {| Home.url := str "/api/analyze";
     Home.method := str "POST";
     Home.content_type := str "application/json";
     Home.body := request_body (reviewsArr (Home.input st))
                               (Home.code (Home.lang st)) |}.


(** Indices that are Numbers, as the declaration of [KeywordObj] has
    them. *)
Definition is_number (v : json) : bool :=
  match v with
  | JNum _ => true
  | _ => false
  end.

Definition number_of (v : json) : float :=
  match v with
  | JNum x => x
  | _ => nan
  end.

(* ================================================================= *)
(** * Properties *)

(** ** Numbers *)

Example of_decimal_half : Num.of_decimal false 5 (-1) = 0.5%float.
Proof. reflexivity. Qed.

Example of_decimal_tie_to_even :
  Num.of_decimal false 9007199254740993 0 = 9007199254740992%float.
Proof. reflexivity. Qed.

(** ** The JavaScript primitives on sample inputs *)

Example parse_nested :
  JSON.parse (str " { " ++ quoted "k" ++ str " : [1, -2.5e2, true, null, {}, "
              ++ quoted "x\u0041\n" ++ str "] } ")
  = Some (JObj [(str "k", JArr [JNum 1; JNum (-250); JBool true; JNull;
                                JObj []; JStr [120; 65; 10]%N])]).
Proof. vm_compute. reflexivity. Qed.

Example parse_duplicate_key :
  JSON.parse (str "{" ++ quoted "a" ++ str ":1," ++ quoted "b" ++ str ":2,"
              ++ quoted "a" ++ str ":3}")
  = Some (JObj [(str "a", JNum 3); (str "b", JNum 2)]).
Proof. vm_compute. reflexivity. Qed.

Example parse_rejects :
  map JSON.parse [str "{a:1}"; str "[1,]"; str "01"; str "1."; str "tru";
                  str "{} {}"; str ""; str "[1 2]"; str "+1"; str ".5"]
  = [None; None; None; None; None; None; None; None; None; None].
Proof. vm_compute. reflexivity. Qed.

Example string_to_number :
  map JS.StringToNumber
      [str ""; str " 12 "; str "-0"; str "+.5"; str "5."; str "0x1F";
       str "0b11"; str "1e3"; str "Infinity"; str "-Infinity"]
  = [0; 12; -0; 0.5; 5; 31; 3; 1000; infinity; neg_infinity]%float.
Proof. vm_compute. reflexivity. Qed.

Example string_to_number_nan :
  map (fun s => is_nan (JS.StringToNumber s))
      [str "abc"; str "1,2"; str "."; str "0x"; str "-0x10"; str "1e";
       str "1 2"; str "infinity"]
  = [true; true; true; true; true; true; true; true].
Proof. vm_compute. reflexivity. Qed.

Example to_number_of_arrays :
  map JS.ToNumber [JArr []; JArr [JNum 4]; JArr [JArr [JStr (str "4")]];
                   JArr [JNull]; JBool true; JNull]
  = map Some [0; 4; 4; 0; 1; 0]%float
  /\ map (fun v => option_map is_nan (JS.ToNumber v))
         [JArr [JNum 1; JNum 2]; JObj []; JArr [JBool true];
          JObj [(str "valueOf", JNum 1)]]
     = [Some true; Some true; Some true; Some true].
Proof. split; vm_compute; reflexivity. Qed.

(** An object with a [toString] of its own has no primitive value, nor
    has an array that holds one. *)
Example to_number_throws :
  map JS.ToNumber [JObj [(str "toString", JNum 1)];
                   JArr [JObj [(str "toString", JNull)]];
                   JArr [JNum 1; JArr [JObj [(str "toString", JStr [])]]]]
  = [None; None; None]
  /\ map JS.has_primitive_value
         [JStr []; JNum 5; JNull; JBool false; JObj []; JArr [JNull; JObj []];
          JObj [(str "toString", JNum 1)]]
     = [true; true; true; true; true; true; false].
Proof. split; vm_compute; reflexivity. Qed.

Example regex_match_samples :
  map JS.regex_match [str "a {b} c {d} e"; str "} {"; str "{ {"; str "x}{y"]
  = [Some (str "{b} c {d}"); None; None; None].
Proof. vm_compute. reflexivity. Qed.

(** ** Strings and objects *)

Lemma jsstring_eqb_eq (a b : jsstring) : jsstring_eqb a b = true <-> a = b.
Proof.
  unfold jsstring_eqb.
  destruct (list_eq_dec N.eq_dec a b); split; congruence.
Qed.

Lemma jsstring_eqb_refl (a : jsstring) : jsstring_eqb a a = true.
Proof. now apply jsstring_eqb_eq. Qed.

Lemma jsstring_eqb_neq (a b : jsstring) : a <> b -> jsstring_eqb a b = false.
Proof.
  intros H. destruct (jsstring_eqb a b) eqn:E; [|reflexivity].
  apply jsstring_eqb_eq in E. contradiction.
Qed.

Lemma obj_get_set_same (m : members_t) (k : jsstring) (v : json) :
  obj_get (obj_set m k v) k = Some v.
Proof.
  induction m as [|[k' v'] m IH]; simpl.
  - now rewrite jsstring_eqb_refl.
  - destruct (jsstring_eqb k' k) eqn:E; simpl; rewrite E; auto.
Qed.

Lemma obj_get_set_other (m : members_t) (k k' : jsstring) (v : json) :
  k' <> k -> obj_get (obj_set m k v) k' = obj_get m k'.
Proof.
  intros Hne. induction m as [|[k0 v0] m IH]; simpl.
  - rewrite jsstring_eqb_neq; auto.
  - destruct (jsstring_eqb k0 k) eqn:E; simpl.
    + apply jsstring_eqb_eq in E. subst k0.
      rewrite jsstring_eqb_neq; auto.
    + destruct (jsstring_eqb k0 k'); auto.
Qed.

Lemma prop_set_same (m : members_t) (k : jsstring) (x : json) :
  prop (set_prop (JObj m) k x) k = Some x.
Proof. apply obj_get_set_same. Qed.

Lemma prop_set_other (v : json) (k k' : jsstring) (x : json) :
  k' <> k -> prop (set_prop v k x) k' = prop v k'.
Proof.
  intros H. destruct v; simpl; auto. now apply obj_get_set_other.
Qed.

(** ** Running asynchronous computations *)

Lemma run_bind {A B : Type} (svc : Service) (m : Async A) (f : A -> Async B) :
  forall log,
    run svc log (bind m f) =
    match run svc log m with
    | (log', Fulfilled a) => run svc log' (f a)
    | (log', Rejected e) => (log', Rejected e)
    end.
Proof.
  induction m as [a|e|req k IH]; intros log; simpl; auto.
Qed.

Lemma run_try_catch {A : Type} (svc : Service) (m : Async A)
      (h : Exn -> Async A) :
  forall log,
    run svc log (try_catch m h) =
    match run svc log m with
    | (log', Fulfilled a) => (log', Fulfilled a)
    | (log', Rejected e) => run svc log' (h e)
    end.
Proof.
  induction m as [a|e|req k IH]; intros log; simpl; auto.
Qed.

Lemma run_create (svc : Service) (log : list ChatRequest) (req : ChatRequest) :
  run svc log (create req) =
  (log ++ [req],
   match svc log req with
   | Resolves c => Fulfilled c
   | Rejects e => Rejected e
   end).
Proof.
  unfold create. simpl. now destruct (svc log req).
Qed.

(** ** The parser *)

Module JSONFacts.

  Import JSON.

Lemma skip_ws_length (s : jsstring) : length (skip_ws s) <= length s.
Proof.
  induction s as [|c s IH]; simpl; [lia|].
  destruct (is_ws c); simpl; lia.
Qed.

Lemma skip_ws_cons (s r : jsstring) (c : char16) :
  skip_ws s = c :: r -> length r < length s.
Proof.
  intros H. pose proof (skip_ws_length s) as L. rewrite H in L. simpl in L. lia.
Qed.

Lemma string_body_length : forall s acc x r,
  string_body s acc = Parsed x r -> length r < length s.
Proof.
  fix IH 1. intros [|c s] acc x r H; simpl in H; [discriminate|].
  destruct (c =? 34)%N.
  - inversion H; subst. simpl. lia.
  - destruct (c =? 92)%N.
    + destruct s as [|e s]; [discriminate|].
      destruct (is_char "u" e).
      * destruct s as [|h1 [|h2 [|h3 [|h4 s]]]]; try discriminate.
        destruct (hex4 h1 h2 h3 h4); [|discriminate].
        apply IH in H. simpl. lia.
      * destruct (simple_escape e); [|discriminate].
        apply IH in H. simpl. lia.
    + destruct (c <? 32)%N; [discriminate|].
      apply IH in H. simpl. lia.
Qed.

Lemma string_body_not_exhausted : forall s acc, string_body s acc <> Exhausted.
Proof.
  fix IH 1. intros [|c s] acc; simpl; [discriminate|].
  destruct (c =? 34)%N; [discriminate|].
  destruct (c =? 92)%N.
  - destruct s as [|e s]; [discriminate|].
    destruct (is_char "u" e).
    + destruct s as [|h1 [|h2 [|h3 [|h4 s]]]]; try discriminate.
      destruct (hex4 h1 h2 h3 h4); [apply IH|discriminate].
    + destruct (simple_escape e); [apply IH|discriminate].
  - destruct (c <? 32)%N; [discriminate|apply IH].
Qed.

Lemma span_digits_length : forall s ds r,
  span_digits s = (ds, r) -> length ds + length r = length s.
Proof.
  induction s as [|c s IH]; intros ds r H; simpl in H.
  - inversion H; reflexivity.
  - destruct (is_digit c).
    + destruct (span_digits s) as [ds' r'] eqn:E.
      inversion H; subst. specialize (IH _ _ eq_refl). simpl. lia.
    + inversion H; subst. reflexivity.
Qed.

Lemma exponent_length (s : jsstring) (e : Z) (r : jsstring) :
  exponent s = Parsed e r -> length r <= length s.
Proof.
  unfold exponent. destruct s as [|c s1]; [inversion 1; lia|].
  destruct (is_char "e" c || is_char "E" c); [|inversion 1; lia].
  destruct s1 as [|g s2].
  - simpl. discriminate.
  - destruct (is_char "-" g); [|destruct (is_char "+" g)];
      match goal with |- context [span_digits ?x] =>
        destruct (span_digits x) as [[|d ds] r'] eqn:E; try discriminate;
        apply span_digits_length in E; inversion 1; subst; simpl in *; lia
      end.
Qed.

Lemma exponent_not_exhausted (s : jsstring) : exponent s <> Exhausted.
Proof.
  unfold exponent. destruct s as [|c s1]; [discriminate|].
  destruct (is_char "e" c || is_char "E" c); [|discriminate].
  destruct s1 as [|g s2].
  - simpl. discriminate.
  - destruct (is_char "-" g); [|destruct (is_char "+" g)];
      match goal with |- context [span_digits ?x] =>
        destruct (span_digits x) as [[|d ds] r'] eqn:E; discriminate
      end.
Qed.

Lemma fraction_length (s ds r : jsstring) :
  fraction s = Parsed ds r -> length r <= length s.
Proof.
  unfold fraction. destruct s as [|c s1]; [inversion 1; lia|].
  destruct (is_char "." c); [|inversion 1; lia].
  destruct (span_digits s1) as [[|d ds'] r'] eqn:E; [discriminate|].
  apply span_digits_length in E. inversion 1; subst. simpl in *. lia.
Qed.

Lemma fraction_not_exhausted (s : jsstring) : fraction s <> Exhausted.
Proof.
  unfold fraction. destruct s as [|c s1]; [discriminate|].
  destruct (is_char "." c); [|discriminate].
  destruct (span_digits s1) as [[|d ds'] r'] eqn:E; discriminate.
Qed.

Lemma number_length (s : jsstring) (x : float) (r : jsstring) :
  number s = Parsed x r -> length r < length s.
Proof.
  unfold number.
  set (sign := match s with [] => _ | _ => _ end).
  assert (Hs : length (snd sign) <= length s).
  { subst sign. destruct s as [|c s']; simpl; [lia|].
    destruct (is_char "-" c); simpl; lia. }
  destruct sign as [neg s1]. simpl in Hs.
  set (ip := match s1 with [] => _ | _ => _ end).
  assert (Hi : forall ds r', ip = Parsed ds r' -> length r' < length s1).
  { subst ip. destruct s1 as [|c s2]; [discriminate|].
    destruct (is_char "0" c); [inversion 1; subst; simpl; lia|].
    simpl. destruct (is_digit c); [|discriminate].
    destruct (span_digits s2) as [ds' r''] eqn:E.
    apply span_digits_length in E. inversion 1; subst. simpl. lia. }
  destruct ip as [ds r1| |]; try discriminate.
  specialize (Hi _ _ eq_refl).
  destruct (fraction r1) as [fd r2| |] eqn:F; try discriminate.
  apply fraction_length in F.
  destruct (exponent r2) as [e r3| |] eqn:X; try discriminate.
  apply exponent_length in X.
  inversion 1; subst. lia.
Qed.

Lemma number_not_exhausted (s : jsstring) : number s <> Exhausted.
Proof.
  unfold number.
  destruct (match s with [] => _ | _ => _ end) as [neg s1].
  set (ip := match s1 with [] => _ | _ => _ end).
  assert (Hi : ip <> Exhausted).
  { subst ip. destruct s1 as [|c s2]; [discriminate|].
    destruct (is_char "0" c); [discriminate|].
    destruct (is_digit c); [|discriminate].
    destruct (span_digits (c :: s2)); discriminate. }
  destruct ip as [ds r1| |]; try congruence.
  pose proof (fraction_not_exhausted r1).
  destruct (fraction r1) as [fd r2| |]; try congruence.
  pose proof (exponent_not_exhausted r2).
  destruct (exponent r2) as [e r3| |]; congruence.
Qed.

Lemma strip_prefix_length : forall p s r,
  strip_prefix p s = Some r -> length r + length p = length s.
Proof.
  induction p as [|a p IH]; intros s r H; simpl in H.
  - inversion H; subst. simpl. lia.
  - destruct s as [|b s]; [discriminate|].
    destruct (a =? b)%N; [|discriminate].
    apply IH in H. simpl. lia.
Qed.


Opaque strip_prefix number.

Lemma value_shrinks : forall fuel,
  (forall s, shrinks s (value fuel s))
  /\ (forall s acc, shrinks s (elements fuel s acc))
  /\ (forall s acc, shrinks s (members fuel s acc)).
Proof.
  induction fuel as [|fuel (IHv & IHe & IHm)]; [now repeat split|].
  repeat split.
  - intros s. simpl.
    destruct (skip_ws s) as [|c s'] eqn:W; [exact I|].
    apply skip_ws_cons in W.
    destruct (is_char "{" c).
    { destruct (skip_ws s') as [|c' r] eqn:W'; [exact I|].
      destruct (is_char "}" c').
      - apply skip_ws_cons in W'. simpl. lia.
      - specialize (IHm s' []).
        destruct (members fuel s' []); simpl in *; auto. lia. }
    destruct (is_char "[" c).
    { destruct (skip_ws s') as [|c' r] eqn:W'; [exact I|].
      destruct (is_char "]" c').
      - apply skip_ws_cons in W'. simpl. lia.
      - specialize (IHe s' []).
        destruct (elements fuel s' []); simpl in *; auto. lia. }
    destruct (c =? 34)%N.
    { destruct (string_body s' []) eqn:B; simpl; auto.
      apply string_body_length in B. lia. }
    do 3 (match goal with
          | |- context [strip_prefix ?p (c :: s')] =>
              let T := fresh "T" in
              destruct (strip_prefix p (c :: s')) eqn:T;
              [apply strip_prefix_length in T; simpl in *; lia|]
          end).
    destruct (number (c :: s')) eqn:Nm; simpl; auto.
    apply number_length in Nm. simpl in *. lia.
  - intros s acc. simpl.
    specialize (IHv s). destruct (value fuel s) as [v r| |]; simpl in *; auto.
    destruct (skip_ws r) as [|c r'] eqn:W; [exact I|].
    apply skip_ws_cons in W.
    destruct (is_char "," c).
    { specialize (IHe r' (v :: acc)).
      destruct (elements fuel r' (v :: acc)); simpl in *; auto. lia. }
    destruct (is_char "]" c); simpl; auto. lia.
  - intros s acc. simpl.
    destruct (skip_ws s) as [|c s1] eqn:W; [exact I|].
    apply skip_ws_cons in W.
    destruct (c =? 34)%N; [|exact I].
    destruct (string_body s1 []) as [k r| |] eqn:B; simpl; auto.
    apply string_body_length in B.
    destruct (skip_ws r) as [|c' r1] eqn:W1; [exact I|].
    apply skip_ws_cons in W1.
    destruct (is_char ":" c'); [|exact I].
    specialize (IHv r1). destruct (value fuel r1) as [v r2| |]; simpl in *; auto.
    destruct (skip_ws r2) as [|c'' r3] eqn:W2; [exact I|].
    apply skip_ws_cons in W2.
    destruct (is_char "," c'').
    { specialize (IHm r3 (obj_set acc k v)).
      destruct (members fuel r3 (obj_set acc k v)); simpl in *; auto. lia. }
    destruct (is_char "}" c''); simpl; auto. lia.
Qed.

Lemma value_not_exhausted : forall fuel,
  (forall s, 2 * length s + 1 <= fuel -> value fuel s <> Exhausted)
  /\ (forall s acc, 2 * length s + 2 <= fuel -> elements fuel s acc <> Exhausted)
  /\ (forall s acc, 2 * length s + 2 <= fuel -> members fuel s acc <> Exhausted).
Proof.
  induction fuel as [|fuel (IHv & IHe & IHm)]; [repeat split; intros; lia|].
  repeat split.
  - intros s Hf. simpl.
    destruct (skip_ws s) as [|c s'] eqn:W; [discriminate|].
    apply skip_ws_cons in W.
    destruct (is_char "{" c).
    { destruct (skip_ws s') as [|c' r] eqn:W'; [discriminate|].
      destruct (is_char "}" c'); [discriminate|]. apply IHm. lia. }
    destruct (is_char "[" c).
    { destruct (skip_ws s') as [|c' r] eqn:W'; [discriminate|].
      destruct (is_char "]" c'); [discriminate|]. apply IHe. lia. }
    destruct (c =? 34)%N.
    { pose proof (string_body_not_exhausted s' []).
      destruct (string_body s' []); congruence. }
    do 3 (match goal with
          | |- context [strip_prefix ?p (c :: s')] =>
              destruct (strip_prefix p (c :: s')); [discriminate|]
          end).
    pose proof (number_not_exhausted (c :: s')).
    destruct (number (c :: s')); congruence.
  - intros s acc Hf. simpl.
    pose proof (proj1 (value_shrinks fuel) s) as L.
    specialize (IHv s). destruct (value fuel s) as [v r| |]; simpl in *;
      [|discriminate|apply IHv; lia].
    destruct (skip_ws r) as [|c r'] eqn:W; [discriminate|].
    apply skip_ws_cons in W.
    destruct (is_char "," c); [apply IHe; lia|].
    destruct (is_char "]" c); discriminate.
  - intros s acc Hf. simpl.
    destruct (skip_ws s) as [|c s1] eqn:W; [discriminate|].
    apply skip_ws_cons in W.
    destruct (c =? 34)%N; [|discriminate].
    pose proof (string_body_not_exhausted s1 []).
    destruct (string_body s1 []) as [k r| |] eqn:B; try congruence.
    apply string_body_length in B.
    destruct (skip_ws r) as [|c' r1] eqn:W1; [discriminate|].
    apply skip_ws_cons in W1.
    destruct (is_char ":" c'); [|discriminate].
    pose proof (proj1 (value_shrinks fuel) r1) as L.
    specialize (IHv r1). destruct (value fuel r1) as [v r2| |]; simpl in *;
      [|discriminate|apply IHv; lia].
    destruct (skip_ws r2) as [|c'' r3] eqn:W2; [discriminate|].
    apply skip_ws_cons in W2.
    destruct (is_char "," c''); [apply IHm; lia|].
    destruct (is_char "}" c''); discriminate.
Qed.

Transparent strip_prefix number.

(** The budget of [parse] is never used up. *)
Lemma parse_total (text : jsstring) : value (budget text) text <> Exhausted.
Proof. apply value_not_exhausted. unfold budget. lia. Qed.

End JSONFacts.

(** ** The pattern [/\{[\s\S]*\}/] *)

Lemma match_star_rbrace_last (s : jsstring) :
  JS.match_star_rbrace s =
  option_map (fun j => firstn (j + 1) s) (last_index_of (ch "}") s).
Proof.
  induction s as [|c s IH]; [reflexivity|].
  cbn [JS.match_star_rbrace last_index_of]. rewrite IH. unfold is_char.
  destruct (last_index_of (ch "}") s) as [j|];
    [|destruct (N.eqb c (ch "}"))]; reflexivity.
Qed.

(** The match of the pattern is the span from the first opening brace
    to the last closing brace. *)
Lemma regex_match_brace_span (s : jsstring) :
  JS.regex_match s = brace_span s.
Proof.
  unfold brace_span.
  induction s as [|c s IH]; [reflexivity|].
  cbn [JS.regex_match index_of last_index_of].
  unfold is_char at 1.
  destruct (N.eqb c (ch "{")) eqn:E.
  - rewrite match_star_rbrace_last.
    destruct (last_index_of (ch "}") s) as [j|] eqn:L.
    + cbn [option_map Nat.ltb Nat.leb Nat.sub skipn].
      replace (S j + 1 - 0) with (S (j + 1)) by lia. reflexivity.
    + apply N.eqb_eq in E. subst c.
      rewrite IH. now destruct (index_of (ch "{") s).
  - rewrite IH.
    destruct (index_of (ch "{") s) as [i|]; [|reflexivity].
    destruct (last_index_of (ch "}") s) as [j|].
    + reflexivity.
    + now destruct (N.eqb c (ch "}")).
Qed.

Lemma regex_match_head (s m : jsstring) :
  JS.regex_match s = Some m -> exists m', m = ch "{" :: m'.
Proof.
  revert m. induction s as [|c s IH]; intros m H; simpl in H; [discriminate|].
  destruct (is_char "{" c) eqn:E; auto.
  unfold is_char in E. apply N.eqb_eq in E. subst c.
  destruct (JS.match_star_rbrace s); [inversion H; eauto|auto].
Qed.

(** ** Extraction *)

Lemma value_open_brace (fuel : nat) (s : jsstring) :
  JSON.value (S fuel) (ch "{" :: s) =
  match JSON.skip_ws s with
  | c' :: r => if is_char "}" c' then JSON.Parsed (JObj []) r
               else JSON.members fuel s []
  | [] => JSON.Unexpected
  end.
Proof. reflexivity. Qed.

Lemma members_object : forall fuel s acc v r,
  JSON.members fuel s acc = JSON.Parsed v r -> exists m, v = JObj m.
Proof.
  induction fuel as [|fuel IH]; intros s acc v r H; simpl in H; [discriminate|].
  repeat match goal with
         | H : context [match ?x with _ => _ end] |- _ =>
             lazymatch x with
             | JSON.members _ _ _ => fail
             | _ => destruct x eqn:?; try discriminate
             end
         end.
  - eapply IH; eauto.
  - inversion H; eauto.
Qed.

(** A text that starts with an opening brace parses to an object or
    not at all. *)
Lemma parse_object (s : jsstring) (v : json) :
  JSON.parse (ch "{" :: s) = Some v -> exists m, v = JObj m.
Proof.
  unfold JSON.parse, JSON.budget.
  replace (2 * length (ch "{" :: s) + 1) with (S (2 * length s + 2))
    by (simpl; lia).
  rewrite value_open_brace.
  destruct (JSON.skip_ws s) as [|c' r]; [discriminate|].
  destruct (is_char "}" c').
  - destruct (JSON.skip_ws r); [|discriminate]. inversion 1; eauto.
  - destruct (JSON.members _ s []) as [v' r'| |] eqn:M; try discriminate.
    apply members_object in M. destruct M as [m ->].
    destruct (JSON.skip_ws r'); [|discriminate]. inversion 1; eauto.
Qed.

Lemma brace_span_parse_object (text span : jsstring) (v : json) :
  brace_span text = Some span -> JSON.parse span = Some v ->
  exists m, v = JObj m.
Proof.
  rewrite <- regex_match_brace_span. intros M P.
  apply regex_match_head in M. destruct M as [m' ->].
  eapply parse_object; eauto.
Qed.

Section RouteFacts.

Variable rt : Runtime.

(** The extractor of lines 144-145 (and 66-67, 117-118), on the span of
    the specification. *)
Lemma extract_brace_span (text : jsstring) :
  extract rt text =
  match brace_span text with
  | None => Return JNull
  | Some span =>
      match JSON.parse span with
      | Some v => Return v
      | None => Throw (Thrown (syntax_error_message rt span))
      end
  end.
Proof.
  unfold extract, JSON_parse. now rewrite regex_match_brace_span.
Qed.

Lemma message_content_text (c : Completion) :
  message_content rt c =
  match choices c with
  | [] => Throw (Thrown (no_choice_error_message rt))
  | c0 :: _ => Return (content_text c0)
  end.
Proof.
  unfold message_content, content_text.
  destruct (choices c) as [|c0 ?]; [reflexivity|].
  destruct (content c0) as [[|]|]; reflexivity.
Qed.

(** From the completion to the response, case by case. *)
Lemma respond_brace_span (c : Completion) (no_json : jsstring) :
  respond rt c no_json =
  match choices c with
  | [] => Throw (Thrown (no_choice_error_message rt))
  | c0 :: _ =>
      match brace_span (content_text c0) with
      | None => Throw (Thrown no_json)
      | Some span =>
          match JSON.parse span with
          | Some payload =>
              match ensure_percentages payload with
              | Some result => Return (ok_response result)
              | None => Throw (Thrown (to_primitive_error_message rt))
              end
          | None => Throw (Thrown (syntax_error_message rt span))
          end
      end
  end.
Proof.
  unfold respond. rewrite message_content_text.
  destruct (choices c) as [|c0 ?]; [reflexivity|].
  cbn [bind]. rewrite extract_brace_span.
  destruct (brace_span (content_text c0)) as [span|] eqn:B; [|reflexivity].
  destruct (JSON.parse span) as [v|] eqn:P; [|reflexivity].
  destruct (brace_span_parse_object _ B P) as [m ->]. reflexivity.
Qed.

End RouteFacts.

(** ** One guarded call *)

Lemma settles_bind {A B : Type} (m : Async A) (f : A -> Async B) :
  settles m -> (forall a, settles (f a)) -> settles (bind m f).
Proof.
  intros [[a ->]|[e ->]] Hf; simpl; [apply Hf|right; eauto].
Qed.

Lemma settles_return {A : Type} (a : A) : settles (Return a).
Proof. left; eauto. Qed.

Lemma settles_throw {A : Type} (e : Exn) : settles (@Throw A e).
Proof. right; eauto. Qed.

(** [try { const c = await create(req); f c } catch ...], for an [f]
    that awaits nothing more: one call, and the handler goes on. *)
Lemma run_guarded_call {A : Type} (svc : Service) (log : list ChatRequest)
      (req : ChatRequest) (f : Completion -> Async A)
      (wrap : Response -> A) (fallback : jsstring) :
  (forall c, settles (f c)) ->
  run svc log (try_catch (bind (create req) f) (catch_500 wrap fallback)) =
  (log ++ [req],
   Fulfilled (caught wrap fallback (bind (awaited (svc log req)) f))).
Proof.
  intros Hf. unfold create. cbn [bind try_catch run].
  destruct (svc log req) as [c|e]; cbn [awaited bind].
  - destruct (Hf c) as [[a ->]|[e ->]]; reflexivity.
  - reflexivity.
Qed.

Section Steps.

Variable rt : Runtime.

Lemma message_content_settles (c : Completion) : settles (message_content rt c).
Proof.
  rewrite message_content_text.
  destruct (choices c); [apply settles_throw|apply settles_return].
Qed.

Lemma extract_settles (text : jsstring) : settles (extract rt text).
Proof.
  unfold extract, JSON_parse.
  destruct (JS.regex_match text); [|apply settles_return].
  destruct (JSON.parse _); [apply settles_return|apply settles_throw].
Qed.

Lemma check_sentiments_settles (payload : json) (reviews : list json) :
  settles (check_sentiments payload reviews).
Proof.
  unfold check_sentiments.
  destruct (_ || _); [apply settles_throw|].
  destruct (negb _); [apply settles_throw|apply settles_return].
Qed.

Lemma respond_settles (c : Completion) (no_json : jsstring) :
  settles (respond rt c no_json).
Proof.
  unfold respond.
  apply settles_bind; [apply message_content_settles|intros text].
  apply settles_bind; [apply extract_settles|intros payload].
  destruct (negb _); [apply settles_throw|].
  destruct (ensure_percentages payload);
    [apply settles_return|apply settles_throw].
Qed.

Lemma after_sentiment_call_settles (reviews : list json) (c : Completion) :
  settles (after_sentiment_call rt reviews c).
Proof.
  unfold after_sentiment_call.
  apply settles_bind; [apply message_content_settles|intros text].
  apply settles_bind; [apply extract_settles|intros payload].
  apply settles_bind; [apply check_sentiments_settles|intros s].
  apply settles_return.
Qed.

Lemma run_sentiment_step (svc : Service) (log : list ChatRequest)
      (reviews : list json) :
  run svc log (sentiment_step rt reviews) =
  (log ++ [sentiment_request reviews],
   Fulfilled (caught inl (str "OpenAI sentiment step error")
                (bind (awaited (svc log (sentiment_request reviews)))
                      (after_sentiment_call rt reviews)))).
Proof.
  apply (run_guarded_call svc log (sentiment_request reviews)
           (after_sentiment_call rt reviews) inl).
  apply after_sentiment_call_settles.
Qed.

Lemma run_keyword_step (svc : Service) (log : list ChatRequest)
      (reviews sentiments : list json) :
  run svc log (keyword_step rt reviews sentiments) =
  (log ++ [keyword_request reviews sentiments],
   Fulfilled (caught (fun r => r) (str "OpenAI keyword step error")
                (bind (awaited (svc log (keyword_request reviews sentiments)))
                      (fun c => respond rt c
                                  (str "No JSON in OpenAI keyword response"))))).
Proof.
  apply (run_guarded_call svc log (keyword_request reviews sentiments)).
  intros c. apply respond_settles.
Qed.

Lemma run_single_pass (svc : Service) (log : list ChatRequest)
      (locale : jsvalue) (reviews : list json) :
  run svc log (single_pass rt locale reviews) =
  (log ++ [single_request locale reviews],
   Fulfilled (caught (fun r => r) (str "OpenAI error")
                (bind (awaited (svc log (single_request locale reviews)))
                      (fun c => respond rt c (str "No JSON in OpenAI response"))))).
Proof.
  apply (run_guarded_call svc log (single_request locale reviews)).
  intros c. apply respond_settles.
Qed.

End Steps.

(** ** The normalizer *)

(** The test of each statement is that the field is not a number other
    than NaN; it never throws, since [isNaN] is only reached on a
    number. *)
Lemma ensure_percentage_cases (q : json) (field count : jsstring) :
  ensure_percentage q field count =
  if percentage_given (prop q field) then Some q
  else
    match fallback_percentage q count with
    | Some x => Some (set_prop q field (JNum x))
    | None => None
    end.
Proof.
  unfold ensure_percentage, percentage_given.
  destruct (prop q field) as [[| b | x | s | l | m]|]; try reflexivity.
  cbn [JS.typeof_not_number JS.isNaN JS.to_number JS.ToNumber option_map].
  now destruct (is_nan x).
Qed.

Lemma ensure_percentage_object (m : members_t) (field count : jsstring)
      (q : json) :
  ensure_percentage (JObj m) field count = Some q -> exists m', q = JObj m'.
Proof.
  rewrite ensure_percentage_cases.
  destruct (percentage_given _); [intros [= <-]; eauto|].
  destruct (fallback_percentage _ _); [|discriminate].
  intros [= <-]. simpl. eauto.
Qed.

Lemma ensure_percentage_other (payload q : json) (field count k : jsstring) :
  ensure_percentage payload field count = Some q ->
  k <> field -> prop q k = prop payload k.
Proof.
  rewrite ensure_percentage_cases.
  destruct (percentage_given _); [now intros [= <-]|].
  destruct (fallback_percentage _ _); [|discriminate].
  intros [= <-] H. now apply prop_set_other.
Qed.

Lemma ensure_percentage_given (payload : json) (field count : jsstring) :
  percentage_given (prop payload field) = true ->
  ensure_percentage payload field count = Some payload.
Proof. intros G. now rewrite ensure_percentage_cases, G. Qed.

Lemma ensure_percentage_field (m : members_t) (field count : jsstring)
      (q : json) :
  ensure_percentage (JObj m) field count = Some q ->
  percentage_given (prop (JObj m) field) = false ->
  exists x, fallback_percentage (JObj m) count = Some x
            /\ prop q field = Some (JNum x).
Proof.
  rewrite ensure_percentage_cases. intros E G. rewrite G in E.
  destruct (fallback_percentage _ _) as [x|]; [|discriminate].
  injection E as <-. exists x. split; [reflexivity|apply prop_set_same].
Qed.

Lemma fallback_percentage_ext (p q : json) (count : jsstring) :
  prop p k_totalCount = prop q k_totalCount ->
  prop p count = prop q count ->
  fallback_percentage p count = fallback_percentage q count.
Proof. unfold fallback_percentage. now intros -> ->. Qed.



Ltac distinct_keys := let H := fresh in intros H; vm_compute in H; discriminate H.

Lemma ensure_percentages_other (payload q : json) (k : jsstring) :
  ensure_percentages payload = Some q ->
  k <> k_positive -> k <> k_negative ->
  prop q k = prop payload k.
Proof.
  unfold ensure_percentages.
  destruct (ensure_percentage payload _ _) as [q1|] eqn:E1; [|discriminate].
  intros E2 Hp Hn.
  rewrite (ensure_percentage_other _ _ E2 Hn).
  exact (ensure_percentage_other _ _ E1 Hp).
Qed.

Lemma ensure_percentages_object (m : members_t) (q : json) :
  ensure_percentages (JObj m) = Some q -> exists m', q = JObj m'.
Proof.
  unfold ensure_percentages.
  destruct (ensure_percentage (JObj m) _ _) as [q1|] eqn:E1; [|discriminate].
  destruct (ensure_percentage_object _ _ _ E1) as [m1 ->].
  apply ensure_percentage_object.
Qed.

(** The two statements, each on the payload as it came: the second
    reads no field the first has written. *)
Lemma ensure_percentages_cases (m : members_t) :
  ensure_percentages (JObj m) =
  match ensure_percentage (JObj m) k_positive k_positiveCount with
  | Some q1 =>
      if percentage_given (prop (JObj m) k_negative) then Some q1
      else
        match fallback_percentage (JObj m) k_negativeCount with
        | Some x => Some (set_prop q1 k_negative (JNum x))
        | None => None
        end
  | None => None
  end.
Proof.
  unfold ensure_percentages.
  destruct (ensure_percentage (JObj m) k_positive _) as [q1|] eqn:E1;
    [|reflexivity].
  assert (Pn : prop q1 k_negative = prop (JObj m) k_negative)
    by (apply (ensure_percentage_other _ _ E1); distinct_keys).
  assert (Fb : fallback_percentage q1 k_negativeCount
               = fallback_percentage (JObj m) k_negativeCount)
    by (apply fallback_percentage_ext;
        apply (ensure_percentage_other _ _ E1); distinct_keys).
  now rewrite ensure_percentage_cases, Pn, Fb.
Qed.

Lemma ensure_percentages_positive (m : members_t) (q : json) :
  ensure_percentages (JObj m) = Some q ->
  if percentage_given (prop (JObj m) k_positive)
  then prop q k_positive = prop (JObj m) k_positive
  else exists x, fallback_percentage (JObj m) k_positiveCount = Some x
                 /\ prop q k_positive = Some (JNum x).
Proof.
  unfold ensure_percentages.
  destruct (ensure_percentage (JObj m) k_positive _) as [q1|] eqn:E1;
    [|discriminate].
  intros E2.
  rewrite (ensure_percentage_other _ _ E2) by distinct_keys.
  destruct (percentage_given _) eqn:G.
  - rewrite ensure_percentage_given in E1 by exact G. now injection E1 as <-.
  - now apply ensure_percentage_field.
Qed.

Lemma ensure_percentages_negative (m : members_t) (q : json) :
  ensure_percentages (JObj m) = Some q ->
  if percentage_given (prop (JObj m) k_negative)
  then prop q k_negative = prop (JObj m) k_negative
  else exists x, fallback_percentage (JObj m) k_negativeCount = Some x
                 /\ prop q k_negative = Some (JNum x).
Proof.
  rewrite ensure_percentages_cases.
  destruct (ensure_percentage (JObj m) k_positive _) as [q1|] eqn:E1;
    [|discriminate].
  assert (Pn : prop q1 k_negative = prop (JObj m) k_negative)
    by (apply (ensure_percentage_other _ _ E1); distinct_keys).
  destruct (percentage_given _) eqn:G; [now intros [= <-]|].
  destruct (fallback_percentage _ _) as [x|]; [|discriminate].
  intros [= <-]. exists x. split; [reflexivity|].
  destruct (ensure_percentage_object _ _ _ E1) as [m1 ->].
  apply prop_set_same.
Qed.


(** With totalCount > 0 and no count, the recomputed percentage is the
    NaN of [undefined / 1 * 100]. *)
Example fallback_of_missing_count :
  option_map (fun q => match prop q k_positive with
                       | Some (JNum x) => is_nan x
                       | _ => false
                       end)
             (ensure_percentages (JObj [(k_totalCount, JNum 1)]))
  = Some true.
Proof. vm_compute. reflexivity. Qed.

(** A count that has no primitive value makes the normalizer throw. *)
Example normalizer_throws :
  map ensure_percentages
      [JObj [(k_totalCount, JObj [(str "toString", JNum 1)])];
       JObj [(k_totalCount, JNum 4);
             (k_positiveCount, JArr [JObj [(str "toString", JNum 1)]])]]
  = [None; None]
  /\ ensure_percentages
       (JObj [(k_totalCount, JObj [(str "toString", JNum 1)]);
              (k_positive, JNum 50); (k_negative, JNum 50)])
     = Some (JObj [(k_totalCount, JObj [(str "toString", JNum 1)]);
                   (k_positive, JNum 50); (k_negative, JNum 50)]).
Proof. split; vm_compute; reflexivity. Qed.

(** ** The handler *)

Lemma or_else_not_empty (msg fallback : jsstring) :
  fallback <> [] -> or_else msg fallback <> [].
Proof. destruct msg; simpl; [auto|discriminate]. Qed.

Lemma batch_rejected_test (reviews : jsvalue) :
  negb (JS.truthy reviews) || negb (JS.isArray reviews)
  || (array_length reviews =? 0) = batch_rejected reviews.
Proof.
  destruct reviews as [[| b | x | s | [|r l] | m]|]; simpl;
    rewrite ?orb_true_r; reflexivity.
Qed.

Section Handler.

Variable rt : Runtime.
Variable svc : Service.

(** Strings, numbers, booleans and [null] always render. *)
Lemma renders_strings (reviews : list jsstring) :
  renders (map JStr reviews) = true.
Proof.
  unfold renders. induction reviews as [|r l IH]; [reflexivity|exact IH].
Qed.

Lemma interpolate_rendered (values : list json) :
  renders values = true -> interpolate rt values = Return tt.
Proof. intros R. unfold interpolate. now rewrite R. Qed.

Lemma interpolate_throws (values : list json) :
  renders values = false ->
  interpolate rt values = Throw (Thrown (to_primitive_error_message rt)).
Proof. intros R. unfold interpolate. now rewrite R. Qed.

(** The handler past its two checks. *)
Lemma POST_checked (request : json) :
  JS.truthy (option_map JStr (OPENAI_API_KEY rt)) = true ->
  batch_rejected (prop request k_reviews) = false ->
  POST rt request =
  let reviews := array_elems (prop request k_reviews) in
  _ <- interpolate rt reviews ;;
  if strict_eq_string (prop request k_locale) (str "ko") then
    _ <- interpolate rt reviews ;;
    r <- sentiment_step rt reviews ;;
    match r with
    | inl response => Return response
    | inr sentiments =>
        _ <- interpolate rt reviews ;;
        _ <- interpolate rt sentiments ;;
        keyword_step rt reviews sentiments
    end
  else single_pass rt (prop request k_locale) reviews.
Proof.
  intros K B. unfold POST.
  destruct request; try discriminate B;
    rewrite K, batch_rejected_test, B; reflexivity.
Qed.

(** A batch that does not render: [promptEn] throws at line 42, before
    the locale is looked at and outside every [try]. *)
Lemma run_POST_unrendered (request : json) :
  JS.truthy (option_map JStr (OPENAI_API_KEY rt)) = true ->
  batch_rejected (prop request k_reviews) = false ->
  renders (array_elems (prop request k_reviews)) = false ->
  run svc [] (POST rt request) =
  ([], Rejected (Thrown (to_primitive_error_message rt))).
Proof.
  intros K B R. rewrite (POST_checked _ K B). cbv zeta.
  now rewrite (interpolate_throws _ R).
Qed.

Lemma POST_accepted (request : json) :
  JS.truthy (option_map JStr (OPENAI_API_KEY rt)) = true ->
  batch_rejected (prop request k_reviews) = false ->
  renders (array_elems (prop request k_reviews)) = true ->
  POST rt request =
  let reviews := array_elems (prop request k_reviews) in
  if strict_eq_string (prop request k_locale) (str "ko") then
    r <- sentiment_step rt reviews ;;
    match r with
    | inl response => Return response
    | inr sentiments =>
        _ <- interpolate rt sentiments ;;
        keyword_step rt reviews sentiments
    end
  else single_pass rt (prop request k_locale) reviews.
Proof.
  intros K B R. rewrite (POST_checked _ K B). cbv zeta.
  rewrite !(interpolate_rendered _ R). cbn [bind].
  destruct (strict_eq_string _ _); reflexivity.
Qed.

Lemma run_POST_single (request : json) :
  JS.truthy (option_map JStr (OPENAI_API_KEY rt)) = true ->
  batch_rejected (prop request k_reviews) = false ->
  renders (array_elems (prop request k_reviews)) = true ->
  strict_eq_string (prop request k_locale) (str "ko") = false ->
  let reviews := array_elems (prop request k_reviews) in
  let locale := prop request k_locale in
  run svc [] (POST rt request) =
  ([single_request locale reviews], Fulfilled (single rt svc locale reviews)).
Proof.
  intros K B R L. rewrite (POST_accepted _ K B R). cbv zeta. rewrite L.
  apply run_single_pass.
Qed.

(** The two-pass branch: [keywordPrompt] is built between the two
    [try] blocks, so sentiments that do not render end the run there,
    after the first call and without a response. *)
Lemma run_POST_two_pass (request : json) :
  JS.truthy (option_map JStr (OPENAI_API_KEY rt)) = true ->
  batch_rejected (prop request k_reviews) = false ->
  renders (array_elems (prop request k_reviews)) = true ->
  strict_eq_string (prop request k_locale) (str "ko") = true ->
  let reviews := array_elems (prop request k_reviews) in
  run svc [] (POST rt request) =
  match stage1 rt svc reviews with
  | inl response => ([sentiment_request reviews], Fulfilled response)
  | inr sentiments =>
      if renders sentiments then
        ([sentiment_request reviews; keyword_request reviews sentiments],
         Fulfilled (stage2 rt svc reviews sentiments))
      else
        ([sentiment_request reviews],
         Rejected (Thrown (to_primitive_error_message rt)))
  end.
Proof.
  intros K B R L. rewrite (POST_accepted _ K B R). cbv zeta. rewrite L.
  rewrite run_bind, run_sentiment_step.
  fold (stage1 rt svc (array_elems (prop request k_reviews))).
  destruct (stage1 _ _ _) as [response|sentiments]; [reflexivity|].
  unfold interpolate. destruct (renders sentiments); [|reflexivity].
  cbn [bind]. apply run_keyword_step.
Qed.

End Handler.

(** ** The checks on the first answer *)

Lemma check_sentiments_cases (payload : json) (reviews : list json) :
  check_sentiments payload reviews =
  match prop payload k_sentiments with
  | Some (JArr sentiments) =>
      if length sentiments =? length reviews then Return sentiments
      else Throw (Thrown (str "Sentiment array length mismatch"))
  | _ => Throw (Thrown (str "No valid sentiments array in OpenAI response"))
  end.
Proof.
  unfold check_sentiments.
  destruct payload as [| b | x | s | l | m]; cbn [prop];
    try (now rewrite orb_true_r).
  cbn [JS.truthy negb orb].
  destruct (obj_get m k_sentiments) as [[| b | x | s | l | m']|];
    try reflexivity.
  cbn [JS.isArray negb array_elems].
  now destruct (length l =? length reviews).
Qed.

Section Answers.

Variable rt : Runtime.

Lemma after_sentiment_call_brace_span (reviews : list json) (c : Completion) :
  after_sentiment_call rt reviews c =
  match choices c with
  | [] => Throw (Thrown (no_choice_error_message rt))
  | c0 :: _ =>
      match brace_span (content_text c0) with
      | None =>
          Throw (Thrown (str "No valid sentiments array in OpenAI response"))
      | Some span =>
          match JSON.parse span with
          | Some payload =>
              sentiments <- check_sentiments payload reviews ;;
              Return (inr sentiments)
          | None => Throw (Thrown (syntax_error_message rt span))
          end
      end
  end.
Proof.
  unfold after_sentiment_call. rewrite message_content_text.
  destruct (choices c) as [|c0 ?]; [reflexivity|].
  cbn [bind]. rewrite extract_brace_span.
  destruct (brace_span (content_text c0)) as [span|]; [|reflexivity].
  now destruct (JSON.parse span).
Qed.

Lemma caught_failure (msg fallback : jsstring) :
  fallback <> [] ->
  failure (error_response (or_else msg fallback) 500).
Proof.
  intros H. exists (or_else msg fallback).
  split; [now apply or_else_not_empty|reflexivity].
Qed.

Lemma caught_respond_cases (o : ApiOutcome) (no_json fallback : jsstring) :
  fallback <> [] ->
  let response :=
    caught (fun r => r) fallback
           (bind (awaited o) (fun c => respond rt c no_json)) in
  failure response \/ success_from o response.
Proof.
  intros F. cbv zeta.
  destruct o as [[chs]|e]; cbn [awaited bind];
    [|left; now apply caught_failure].
  rewrite respond_brace_span. cbn [choices].
  destruct chs as [|c0 rest]; [left; now apply caught_failure|].
  destruct (brace_span (content_text c0)) as [span|] eqn:B;
    [|left; now apply caught_failure].
  destruct (JSON.parse span) as [payload|] eqn:P;
    [|left; now apply caught_failure].
  destruct (brace_span_parse_object _ B P) as [m ->].
  destruct (ensure_percentages (JObj m)) as [result|] eqn:E;
    [|left; now apply caught_failure].
  right. exists c0, rest, span, m, result. auto.
Qed.

Lemma stage1_cases (svc : Service) (reviews : list json) :
  match stage1 rt svc reviews with
  | inl response => failure response
  | inr sentiments =>
      exists c0 rest span payload,
        svc [] (sentiment_request reviews) = Resolves {| choices := c0 :: rest |}
        /\ brace_span (content_text c0) = Some span
        /\ JSON.parse span = Some payload
        /\ prop payload k_sentiments = Some (JArr sentiments)
        /\ length sentiments = length reviews
  end.
Proof.
  unfold stage1.
  destruct (svc [] (sentiment_request reviews)) as [[chs]|e];
    cbn [awaited bind]; [|now apply caught_failure].
  rewrite after_sentiment_call_brace_span. cbn [choices].
  destruct chs as [|c0 rest]; [now apply caught_failure|].
  destruct (brace_span (content_text c0)) as [span|] eqn:B;
    [|now apply caught_failure].
  destruct (JSON.parse span) as [payload|] eqn:P;
    [|now apply caught_failure].
  rewrite check_sentiments_cases.
  destruct (prop payload k_sentiments) as [[| b | x | s | l | m']|] eqn:S;
    try now apply caught_failure.
  destruct (length l =? length reviews) eqn:L; [|now apply caught_failure].
  apply Nat.eqb_eq in L. cbn [bind caught].
  exists c0, rest, span, payload. auto.
Qed.

End Answers.

Lemma ensure_percentages_typeof (m : members_t) (q : json) :
  ensure_percentages (JObj m) = Some q ->
  JS.typeof_not_number (prop q k_positive) = false
  /\ JS.typeof_not_number (prop q k_negative) = false.
Proof.
  intros E.
  pose proof (ensure_percentages_positive _ E) as Hp.
  pose proof (ensure_percentages_negative _ E) as Hn.
  unfold percentage_given in Hp, Hn. split.
  - destruct (prop (JObj m) k_positive) as [[| b | x | s | l | m']|];
      try (destruct Hp as (y & _ & ->); reflexivity).
    destruct (negb (is_nan x)); [now rewrite Hp|].
    destruct Hp as (y & _ & ->); reflexivity.
  - destruct (prop (JObj m) k_negative) as [[| b | x | s | l | m']|];
      try (destruct Hn as (y & _ & ->); reflexivity).
    destruct (negb (is_nan x)); [now rewrite Hn|].
    destruct Hn as (y & _ & ->); reflexivity.
Qed.

Lemma strict_eq_string_true (v : jsvalue) (s : jsstring) :
  strict_eq_string v s = true <-> v = Some (JStr s).
Proof.
  destruct v as [[| b | x | s' | l | m]|]; simpl;
    try (split; [discriminate|congruence]).
  rewrite jsstring_eqb_eq. split; congruence.
Qed.

Section Requests.

Variable rt : Runtime.
Variable svc : Service.

Lemma run_POST_no_key (m : members_t) :
  JS.truthy (option_map JStr (OPENAI_API_KEY rt)) = false ->
  run svc [] (POST rt (JObj m)) =
  ([], Fulfilled (error_response (str "OpenAI API key not set.") 500)).
Proof. intros K. unfold POST. now rewrite K. Qed.

Lemma run_POST_no_reviews (m : members_t) :
  JS.truthy (option_map JStr (OPENAI_API_KEY rt)) = true ->
  batch_rejected (prop (JObj m) k_reviews) = true ->
  run svc [] (POST rt (JObj m)) =
  ([], Fulfilled (error_response (str "No reviews provided.") 400)).
Proof.
  intros K B. unfold POST. now rewrite K, batch_rejected_test, B.
Qed.

Lemma run_POST_no_call (request : json) :
  JS.truthy (option_map JStr (OPENAI_API_KEY rt)) = false
  \/ batch_rejected (prop request k_reviews) = true ->
  fst (run svc [] (POST rt request)) = [].
Proof.
  intros H. unfold POST.
  destruct (JS.truthy (option_map JStr (OPENAI_API_KEY rt))) eqn:K;
    [|now destruct request].
  destruct H as [H|B]; [discriminate|].
  destruct request; try reflexivity; now rewrite batch_rejected_test, B.
Qed.

(** Every run on a request with a non-empty batch, case by case. *)
Lemma run_POST_cases (request : json) :
  batch_rejected (prop request k_reviews) = false ->
  exists calls outcome,
    run svc [] (POST rt request) = (calls, outcome)
    /\ match outcome with
       | Fulfilled response =>
           failure response
           \/ exists o, last_outcome svc calls = Some o
                        /\ success_from o response
       | Rejected e => unrendered rt svc request calls e
       end.
Proof.
  intros B.
  destruct (JS.truthy (option_map JStr (OPENAI_API_KEY rt))) eqn:K.
  2:{ destruct request as [| b | x | s | l | m]; try discriminate B.
      rewrite (run_POST_no_key m K).
      eexists _, _. split; [reflexivity|left].
      eexists. split; [|reflexivity]. discriminate. }
  destruct (renders (array_elems (prop request k_reviews))) eqn:R.
  2:{ rewrite (run_POST_unrendered rt svc _ K B R).
      eexists _, _. split; [reflexivity|].
      split; [reflexivity|]. left. auto. }
  destruct (strict_eq_string (prop request k_locale) (str "ko")) eqn:L.
  - rewrite (run_POST_two_pass rt svc _ K B R L).
    set (reviews := array_elems (prop request k_reviews)).
    pose proof (stage1_cases rt svc reviews) as S1.
    destruct (stage1 rt svc reviews) as [response|sentiments] eqn:E1.
    + eexists _, _. split; [reflexivity|now left].
    + destruct (renders sentiments) eqn:Rs.
      * eexists _, _. split; [reflexivity|].
        destruct (caught_respond_cases rt
                    (svc [sentiment_request reviews]
                         (keyword_request reviews sentiments))
                    (str "No JSON in OpenAI keyword response")
                    (fallback := str "OpenAI keyword step error"))
          as [F|Ok]; [discriminate|now left|].
        right. eexists. split; [reflexivity|exact Ok].
      * eexists _, _. split; [reflexivity|].
        split; [reflexivity|]. right. exists sentiments.
        repeat split; auto. now apply strict_eq_string_true.
  - rewrite (run_POST_single rt svc _ K B R L).
    eexists _, _. split; [reflexivity|].
    destruct (caught_respond_cases rt
                (svc [] (single_request (prop request k_locale)
                           (array_elems (prop request k_reviews))))
                (str "No JSON in OpenAI response")
                (fallback := str "OpenAI error"))
      as [F|Ok]; [discriminate|now left|].
    right. eexists. split; [reflexivity|exact Ok].
Qed.

End Requests.

(* ================================================================= *)
(** * The claims of the specification *)

(** C1 (as the code has it): for a request with a non-empty batch the
    handler answers whenever the reviews, and the sentiments it accepted,
    can be printed into its prompts.  A failure is exactly
    [{ error: msg }] with a non-empty message and status 500, never a
    part of a result.  A success is the object parsed from the last
    answer of the model, handed to [NextResponse.json] with [positive]
    and [negative] present and of type number; its other fields are
    those of the model, whichever they are, and no percentage is
    checked against [0,100].  The only runs without an answer are those
    in which filling in a template throws. *)
Theorem response_is_failure_or_normalized_payload
        (rt : Runtime) (svc : Service) (request : json) :
  batch_rejected (prop request k_reviews) = false ->
  exists calls outcome,
    run svc [] (POST rt request) = (calls, outcome)
    /\ match outcome with
       | Fulfilled response =>
           failure response
           \/ exists o,
                last_outcome svc calls = Some o
                /\ success_from o response
                /\ JS.typeof_not_number (prop (body response) k_positive)
                   = false
                /\ JS.typeof_not_number (prop (body response) k_negative)
                   = false
       | Rejected e => unrendered rt svc request calls e
       end
    /\ (renders (array_elems (prop request k_reviews)) = true ->
        prop request k_locale <> Some (JStr (str "ko")) ->
        exists response, outcome = Fulfilled response).
Proof.
  intros B.
  destruct (run_POST_cases rt svc request B) as (calls & outcome & R & H).
  exists calls, outcome. split; [exact R|]. split.
  - destruct outcome as [response|e]; [|exact H].
    destruct H as [F|(o & L & S)]; [now left|right].
    exists o. split; [exact L|]. split; [exact S|].
    destruct S as (c0 & rest & span & m & result & _ & _ & _ & E & ->).
    exact (ensure_percentages_typeof _ E).
  - intros Rv L. destruct outcome as [response|e]; [eauto|].
    destruct H as (_ & [(_ & U)|(sentiments & _ & _ & Lk & _)]);
      congruence.
Qed.

Lemma response_is_failure_or_normalized_payload_witness :
  exists calls outcome,
    run (scripted [text_wrapped]) []
        (POST (v8 some_key) (request_of [JStr (str "Great")] "en"))
    = (calls, outcome)
    /\ match outcome with
       | Fulfilled response =>
           failure response
           \/ exists o,
                last_outcome (scripted [text_wrapped]) calls = Some o
                /\ success_from o response
                /\ JS.typeof_not_number (prop (body response) k_positive)
                   = false
                /\ JS.typeof_not_number (prop (body response) k_negative)
                   = false
       | Rejected e =>
           unrendered (v8 some_key) (scripted [text_wrapped])
                      (request_of [JStr (str "Great")] "en") calls e
       end
    /\ (renders (array_elems (prop (request_of [JStr (str "Great")] "en")
                                   k_reviews)) = true ->
        prop (request_of [JStr (str "Great")] "en") k_locale
        <> Some (JStr (str "ko")) ->
        exists response, outcome = Fulfilled response).
Proof.
  apply (response_is_failure_or_normalized_payload
           (v8 some_key) (scripted [text_wrapped])
           (request_of [JStr (str "Great")] "en")); reflexivity.
Defined.

(** C1, counterexample: the model answers [{"a":1}] and the handler
    returns, with status 200, an object without totalCount,
    positiveCount, negativeCount and keywords; the model answers with
    positive = 150 and negative = -50 and both are returned as they
    are. *)
Lemma success_not_well_formed :
  snd (run (scripted [text_wrapped]) []
           (POST (v8 some_key) (request_of [JStr (str "Great")] "en")))
  = Fulfilled (ok_response (JObj [(str "a", JNum 1); (k_positive, JNum 0);
                                  (k_negative, JNum 0)]))
  /\ well_formed_AnalysisResult
       (JObj [(str "a", JNum 1); (k_positive, JNum 0); (k_negative, JNum 0)])
     = false
  /\ option_map (fun r => (status r, prop (body r) k_positive,
                           well_formed_AnalysisResult (body r)))
       (match snd (run (scripted [text_percentages_out_of_range]) []
                       (POST (v8 some_key)
                             (request_of [JStr (str "Great")] "en"))) with
        | Fulfilled r => Some r
        | Rejected _ => None
        end)
     = Some (200%Z, Some (JNum 150), false).
Proof. repeat split; vm_compute; reflexivity. Qed.


(** C7: the normalizer leaves every field other than [positive] and
    [negative] as the model produced it (its value, or its absence),
    and leaves a percentage that is a number other than NaN as it is:
    counts and keywords are not recomputed, and the two percentages are
    not brought to a sum of 100.  (Where the normalizer throws there is
    no result, and the response carries no field of the payload.) *)
Theorem normalizer_frame (payload : json) :
  (forall result k,
     ensure_percentages payload = Some result ->
     k <> k_positive -> k <> k_negative ->
     prop result k = prop payload k)
  /\ (forall result,
        ensure_percentages payload = Some result ->
        percentage_given (prop payload k_positive) = true ->
        prop result k_positive = prop payload k_positive)
  /\ (forall result,
        ensure_percentages payload = Some result ->
        percentage_given (prop payload k_negative) = true ->
        prop result k_negative = prop payload k_negative)
  /\ (percentage_given (prop payload k_positive) = true ->
      percentage_given (prop payload k_negative) = true ->
      ensure_percentages payload = Some payload).
Proof.
  repeat split.
  - intros result k E Hp Hn. now apply ensure_percentages_other.
  - intros result E G. unfold ensure_percentages in E.
    rewrite ensure_percentage_given in E by exact G.
    apply (ensure_percentage_other _ _ E). distinct_keys.
  - intros result E G. unfold ensure_percentages in E.
    destruct (ensure_percentage payload k_positive _) as [q1|] eqn:E1;
      [|discriminate E].
    assert (Pn : prop q1 k_negative = prop payload k_negative)
      by (apply (ensure_percentage_other _ _ E1); distinct_keys).
    rewrite ensure_percentage_given in E by (now rewrite Pn).
    injection E as <-. exact Pn.
  - intros Gp Gn. unfold ensure_percentages.
    rewrite ensure_percentage_given by exact Gp.
    now apply ensure_percentage_given.
Qed.

(** C7, at a result whose counts and percentages disagree: it is
    returned unchanged. *)
Lemma normalizer_frame_witness :
  ensure_percentages inconsistent_result = Some inconsistent_result.
Proof.
  apply (proj2 (proj2 (proj2 (normalizer_frame inconsistent_result))));
    reflexivity.
Defined.

(** C3: the span the extractor parses is the one from the first opening
    brace to the last closing brace of the text; the text
    [Sure! {"a":1} Thanks.] gives the object with a = 1; a text with no
    such span gives [null], on which the handler throws; a span that is
    not JSON makes [JSON.parse] throw, also when a shorter span would
    parse; in both cases the response is an error and nothing of the
    text is kept.  A span that parses goes to the normalizer, and to
    the response unless the normalizer throws. *)
Theorem extractor_parses_outer_brace_span (rt : Runtime) :
  (forall text, JS.regex_match text = brace_span text)
  /\ (forall text,
        extract rt text =
        match brace_span text with
        | None => Return JNull
        | Some span =>
            match JSON.parse span with
            | Some v => Return v
            | None => Throw (Thrown (syntax_error_message rt span))
            end
        end)
  /\ extract rt text_wrapped = Return (JObj [(str "a", JNum 1)])
  /\ (forall c no_json,
        respond rt c no_json =
        match choices c with
        | [] => Throw (Thrown (no_choice_error_message rt))
        | c0 :: _ =>
            match brace_span (content_text c0) with
            | None => Throw (Thrown no_json)
            | Some span =>
                match JSON.parse span with
                | Some payload =>
                    match ensure_percentages payload with
                    | Some result => Return (ok_response result)
                    | None =>
                        Throw (Thrown (to_primitive_error_message rt))
                    end
                | None => Throw (Thrown (syntax_error_message rt span))
                end
            end
        end)
  /\ (forall reviews c,
        after_sentiment_call rt reviews c =
        match choices c with
        | [] => Throw (Thrown (no_choice_error_message rt))
        | c0 :: _ =>
            match brace_span (content_text c0) with
            | None =>
                Throw (Thrown
                         (str "No valid sentiments array in OpenAI response"))
            | Some span =>
                match JSON.parse span with
                | Some payload =>
                    sentiments <- check_sentiments payload reviews ;;
                    Return (inr sentiments)
                | None => Throw (Thrown (syntax_error_message rt span))
                end
            end
        end)
  /\ respond rt (answer (str "no braces here"))
             (str "No JSON in OpenAI response")
     = Throw (Thrown (str "No JSON in OpenAI response"))
  /\ brace_span text_two_objects = Some text_two_objects
  /\ extract rt text_two_objects
     = Throw (Thrown (syntax_error_message rt text_two_objects))
  /\ extract rt text_unbalanced
     = Throw (Thrown (syntax_error_message rt
                        (str "{" ++ quoted "a" ++ str ":{" ++ quoted "b"
                         ++ str ":1}")))
  /\ (forall text, JSON.value (JSON.budget text) text <> JSON.Exhausted).
Proof.
  split; [exact regex_match_brace_span|].
  split; [exact (extract_brace_span rt)|].
  split; [reflexivity|].
  split; [exact (respond_brace_span rt)|].
  split; [exact (after_sentiment_call_brace_span rt)|].
  split; [reflexivity|].
  split; [reflexivity|].
  split; [reflexivity|].
  split; [reflexivity|].
  exact JSONFacts.parse_total.
Qed.

(** C4: in the two-pass branch, a first answer whose [sentiments] array
    is not as long as the batch ends the request with the error
    "Sentiment array length mismatch" and status 500; the log of calls
    holds the first request and nothing else, neither the second
    request nor the single-pass one.  (There is a first answer only for
    a batch that could be printed into the first prompt.) *)
Theorem length_mismatch_fails_after_first_call
        (rt : Runtime) (svc : Service) (request : json) (reviews : list json)
        (c0 : Choice) (rest : list Choice) (span : jsstring)
        (payload : json) (sentiments : list json) :
  JS.truthy (option_map JStr (OPENAI_API_KEY rt)) = true ->
  prop request k_reviews = Some (JArr reviews) ->
  reviews <> [] ->
  renders reviews = true ->
  prop request k_locale = Some (JStr (str "ko")) ->
  svc [] (sentiment_request reviews) = Resolves {| choices := c0 :: rest |} ->
  brace_span (content_text c0) = Some span ->
  JSON.parse span = Some payload ->
  prop payload k_sentiments = Some (JArr sentiments) ->
  length sentiments <> length reviews ->
  run svc [] (POST rt request) =
  ([sentiment_request reviews],
   Fulfilled (error_response (str "Sentiment array length mismatch") 500)).
Proof.
  intros K R N Rv L S B P A M.
  assert (Rj : batch_rejected (prop request k_reviews) = false)
    by (rewrite R; now destruct reviews).
  assert (Lk : strict_eq_string (prop request k_locale) (str "ko") = true)
    by (now apply strict_eq_string_true).
  assert (Rv' : renders (array_elems (prop request k_reviews)) = true)
    by (now rewrite R).
  rewrite (run_POST_two_pass rt svc _ K Rj Rv' Lk). rewrite R.
  cbn [array_elems].
  unfold stage1. rewrite S. cbn [awaited bind].
  rewrite after_sentiment_call_brace_span. cbn [choices].
  rewrite B, P, check_sentiments_cases, A.
  apply Nat.eqb_neq in M. now rewrite M.
Qed.

Lemma length_mismatch_fails_after_first_call_witness :
  run (scripted [text_one_sentiment]) []
      (POST (v8 some_key)
            (request_of [JStr (str "Great"); JStr (str "Late")] "ko"))
  = ([sentiment_request [JStr (str "Great"); JStr (str "Late")]],
     Fulfilled (error_response (str "Sentiment array length mismatch") 500)).
Proof.
  apply (length_mismatch_fails_after_first_call
           (v8 some_key) (scripted [text_one_sentiment])
           (request_of [JStr (str "Great"); JStr (str "Late")] "ko")
           (c0 := {| content := Some text_one_sentiment |}) (rest := [])
           (span := text_one_sentiment)
           (payload := JObj [(k_sentiments, JArr [JStr (str "positive")])])
           (sentiments := [JStr (str "positive")])).
  - reflexivity.
  - reflexivity.
  - discriminate.
  - reflexivity.
  - reflexivity.
  - reflexivity.
  - reflexivity.
  - reflexivity.
  - reflexivity.
  - simpl. lia.
Defined.

(** C5 (as the code has it): the first answer of the two-pass branch is
    accepted exactly when its [sentiments] is an array as long as the
    batch, and then the array is taken as it is, its elements not
    looked at; every other payload throws, and nothing of it is kept. *)
Theorem sentiments_checked_by_length (payload : json) (reviews : list json) :
  check_sentiments payload reviews =
    match prop payload k_sentiments with
    | Some (JArr sentiments) =>
        if length sentiments =? length reviews then Return sentiments
        else Throw (Thrown (str "Sentiment array length mismatch"))
    | _ => Throw (Thrown (str "No valid sentiments array in OpenAI response"))
    end
  /\ (forall sentiments,
        check_sentiments payload reviews = Return sentiments
        <-> prop payload k_sentiments = Some (JArr sentiments)
            /\ length sentiments = length reviews)
  /\ ((exists sentiments, check_sentiments payload reviews = Return sentiments)
      \/ (exists msg, msg <> []
                      /\ check_sentiments payload reviews = Throw (Thrown msg))).
Proof.
  rewrite check_sentiments_cases.
  split; [reflexivity|].
  destruct (prop payload k_sentiments) as [[| b | x | s | l | m]|];
    try (split;
         [intros sentiments; split; [discriminate|intros [E _]; discriminate E]
         |right; eexists; split; [|reflexivity]; discriminate]).
  destruct (length l =? length reviews) eqn:L.
  - apply Nat.eqb_eq in L. split; [|left; eauto].
    intros sentiments. split.
    + intros E. inversion E; subst. auto.
    + intros [E _]. inversion E; subst. reflexivity.
  - apply Nat.eqb_neq in L. split.
    + intros sentiments. split; [discriminate|].
      intros [E H]. inversion E; subst. contradiction.
    + right. eexists. split; [|reflexivity]. discriminate.
Qed.

(** C5, counterexample: the first answer [{"sentiments":["neutral"]}]
    for a batch of one review is accepted, and the second call is made
    with that array, though "neutral" is not a sentiment label. *)
Lemma non_label_sentiment_accepted :
  check_sentiments (JObj [(k_sentiments, JArr [JStr (str "neutral")])])
                   [JStr (str "Great")]
  = Return [JStr (str "neutral")]
  /\ is_SentimentLabel (JStr (str "neutral")) = false
  /\ fst (run (scripted [text_neutral_sentiment; text_index_out_of_range]) []
              (POST (v8 some_key) (request_of [JStr (str "Great")] "ko")))
     = [sentiment_request [JStr (str "Great")];
        keyword_request [JStr (str "Great")] [JStr (str "neutral")]].
Proof. repeat split; vm_compute; reflexivity. Qed.

(** C6: on a request object, a missing or empty key ends the request
    with the error "OpenAI API key not set." and status 500 whatever
    the batch is; with the key set, a batch that is missing, not an
    array or empty ends it with "No reviews provided." and status 400.
    In both cases the log of inference calls is empty, and it is empty
    for every request value, object or not. *)
Theorem invalid_request_ends_without_call
        (rt : Runtime) (svc : Service) (m : members_t) :
  (JS.truthy (option_map JStr (OPENAI_API_KEY rt)) = false ->
   run svc [] (POST rt (JObj m)) =
   ([], Fulfilled (error_response (str "OpenAI API key not set.") 500)))
  /\ (JS.truthy (option_map JStr (OPENAI_API_KEY rt)) = true ->
      batch_rejected (prop (JObj m) k_reviews) = true ->
      run svc [] (POST rt (JObj m)) =
      ([], Fulfilled (error_response (str "No reviews provided.") 400)))
  /\ (forall request,
        JS.truthy (option_map JStr (OPENAI_API_KEY rt)) = false
        \/ batch_rejected (prop request k_reviews) = true ->
        fst (run svc [] (POST rt request)) = []).
Proof.
  split; [apply run_POST_no_key|].
  split; [apply run_POST_no_reviews|apply run_POST_no_call].
Qed.

(** C6, with no key and a valid batch, and with a key and an empty
    batch. *)
Lemma invalid_request_ends_without_call_witness :
  run (scripted [text_wrapped]) []
      (POST (v8 None) (request_of [JStr (str "Great")] "en"))
  = ([], Fulfilled (error_response (str "OpenAI API key not set.") 500))
  /\ run (scripted [text_wrapped]) []
         (POST (v8 some_key) (request_of [] "en"))
     = ([], Fulfilled (error_response (str "No reviews provided.") 400)).
Proof.
  split.
  - apply (proj1 (invalid_request_ends_without_call
                    (v8 None) (scripted [text_wrapped])
                    [(k_reviews, JArr [JStr (str "Great")]);
                     (k_locale, JStr (str "en"))])).
    reflexivity.
  - apply (proj1 (proj2 (invalid_request_ends_without_call
                           (v8 some_key) (scripted [text_wrapped])
                           [(k_reviews, JArr []);
                            (k_locale, JStr (str "en"))])));
      reflexivity.
Defined.

(** C8 (as the code has it): in a successful response, [keywords], with
    the [reviewIndices] inside, and [totalCount] are those of the
    object parsed from the last answer of the model; no index is
    compared with [totalCount] or with the batch. *)
Theorem keywords_returned_as_parsed
        (rt : Runtime) (svc : Service) (request : json)
        (calls : list ChatRequest) (response : Response) :
  batch_rejected (prop request k_reviews) = false ->
  run svc [] (POST rt request) = (calls, Fulfilled response) ->
  status response = 200%Z ->
  exists c0 rest span payload,
    last_outcome svc calls = Some (Resolves {| choices := c0 :: rest |})
    /\ brace_span (content_text c0) = Some span
    /\ JSON.parse span = Some payload
    /\ prop (body response) k_keywords = prop payload k_keywords
    /\ prop (body response) k_totalCount = prop payload k_totalCount.
Proof.
  intros B R S.
  destruct (run_POST_cases rt svc request B) as (calls' & outcome & R' & H).
  rewrite R in R'. injection R' as <- <-.
  destruct H as [(msg & _ & ->)
                |(o & L & c0 & rest & span & m & result
                  & -> & Bs & P & E & ->)];
    [discriminate S|].
  exists c0, rest, span, (JObj m). repeat split; auto.
  - apply (ensure_percentages_other _ E); distinct_keys.
  - apply (ensure_percentages_other _ E); distinct_keys.
Qed.

Lemma keywords_returned_as_parsed_witness :
  let svc := scripted [text_index_out_of_range] in
  let request := single_request (Some (JStr (str "en"))) [JStr (str "Great")] in
  let response :=
    single (v8 some_key) svc (Some (JStr (str "en"))) [JStr (str "Great")] in
  exists c0 rest span payload,
    last_outcome svc [request] = Some (Resolves {| choices := c0 :: rest |})
    /\ brace_span (content_text c0) = Some span
    /\ JSON.parse span = Some payload
    /\ prop (body response) k_keywords = prop payload k_keywords
    /\ prop (body response) k_totalCount = prop payload k_totalCount.
Proof.
  intros svc request response.
  apply (keywords_returned_as_parsed
           (v8 some_key) svc (request_of [JStr (str "Great")] "en")
           (calls := [request]) (response := response));
    vm_compute; reflexivity.
Defined.

(** C8, counterexample: for a batch of one review the model answers
    with totalCount = 1 and a keyword whose reviewIndices is [7]; the
    handler returns it with status 200. *)
Lemma out_of_range_index_returned :
  option_map (fun r => (status r, indices_in_range (body r),
                        prop (body r) k_totalCount))
    (match snd (run (scripted [text_index_out_of_range]) []
                    (POST (v8 some_key)
                          (request_of [JStr (str "Great")] "en"))) with
     | Fulfilled r => Some r
     | Rejected _ => None
     end)
  = Some (200%Z, false, Some (JNum 1)).
Proof. vm_compute. reflexivity. Qed.

(** C9: the strategy is chosen by the test [locale === 'ko'] alone, for
    every request whose batch can be printed into the prompt.  When the
    test holds, the first call is the sentiment request; the handler
    stops there when that step fails, and otherwise goes on to the
    keyword request with the accepted sentiments, its second and last
    call (the run ends before that call when those sentiments cannot
    be printed into the second prompt).  When the test does not hold,
    the only call is the single-pass request.  No run mixes requests
    of the two strategies. *)
Theorem strategy_chosen_by_locale
        (rt : Runtime) (svc : Service) (request : json) :
  JS.truthy (option_map JStr (OPENAI_API_KEY rt)) = true ->
  batch_rejected (prop request k_reviews) = false ->
  renders (array_elems (prop request k_reviews)) = true ->
  let reviews := array_elems (prop request k_reviews) in
  let locale := prop request k_locale in
  (strict_eq_string locale (str "ko") = true <-> locale = Some (JStr (str "ko")))
  /\ (locale = Some (JStr (str "ko")) ->
      match stage1 rt svc reviews with
      | inl response =>
          run svc [] (POST rt request) =
          ([sentiment_request reviews], Fulfilled response)
          /\ failure response
      | inr sentiments =>
          length sentiments = length reviews
          /\ (renders sentiments = true ->
              run svc [] (POST rt request) =
              ([sentiment_request reviews;
                keyword_request reviews sentiments],
               Fulfilled (stage2 rt svc reviews sentiments)))
          /\ (renders sentiments = false ->
              run svc [] (POST rt request) =
              ([sentiment_request reviews],
               Rejected (Thrown (to_primitive_error_message rt))))
      end)
  /\ (locale <> Some (JStr (str "ko")) ->
      run svc [] (POST rt request) =
      ([single_request locale reviews], Fulfilled (single rt svc locale reviews))).
Proof.
  intros K B R. cbv zeta.
  split; [apply strict_eq_string_true|]. split.
  - intros L. apply strict_eq_string_true in L.
    rewrite (run_POST_two_pass rt svc _ K B R L).
    pose proof (stage1_cases rt svc (array_elems (prop request k_reviews))) as S.
    destruct (stage1 _ _ _) as [response|sentiments]; [now split|].
    destruct S as (c0 & rest & span & payload & _ & _ & _ & _ & E).
    split; [exact E|].
    split; intros Rs; now rewrite Rs.
  - intros L. apply run_POST_single; auto.
    destruct (strict_eq_string _ _) eqn:E; [|reflexivity].
    apply strict_eq_string_true in E. contradiction.
Qed.

(** C9, for a Korean request answered twice and for an English one. *)
Lemma strategy_chosen_by_locale_witness :
  fst (run (scripted [text_one_sentiment; text_index_out_of_range]) []
           (POST (v8 some_key) (request_of [JStr (str "Great")] "ko")))
  = [sentiment_request [JStr (str "Great")];
     keyword_request [JStr (str "Great")] [JStr (str "positive")]]
  /\ fst (run (scripted [text_wrapped]) []
              (POST (v8 some_key) (request_of [JStr (str "Great")] "en")))
     = [single_request (Some (JStr (str "en"))) [JStr (str "Great")]].
Proof.
  split.
  - pose proof (proj1 (proj2 (strategy_chosen_by_locale
                  (v8 some_key)
                  (scripted [text_one_sentiment; text_index_out_of_range])
                  (request_of [JStr (str "Great")] "ko")
                  eq_refl eq_refl eq_refl)) eq_refl) as H.
    destruct (stage1 _ _ _) as [response|sentiments] eqn:E;
      vm_compute in E; [discriminate E|].
    inversion E; subst sentiments. destruct H as (_ & H & _).
    rewrite (H eq_refl). reflexivity.
  - rewrite (proj2 (proj2 (strategy_chosen_by_locale
               (v8 some_key) (scripted [text_wrapped])
               (request_of [JStr (str "Great")] "en")
               eq_refl eq_refl eq_refl))).
    + reflexivity.
    + vm_compute. discriminate.
Defined.

(** C10 (as the code has it): with the key set, a request object is
    turned down with "No reviews provided." exactly when its batch is
    missing, not an array, or empty.  A non-empty array is never
    turned down, whatever its elements are, and when its elements can
    be printed into the prompt the first call carries the batch as it
    came, nothing trimmed or dropped: so for a batch holding one empty
    string, or blanks, a number and [null].  An element that has no
    primitive value makes the handler throw while it fills in the
    prompt, before any call. *)
Theorem batch_checked_by_length_only
        (rt : Runtime) (svc : Service) (m : members_t) :
  JS.truthy (option_map JStr (OPENAI_API_KEY rt)) = true ->
  let reviews := prop (JObj m) k_reviews in
  (run svc [] (POST rt (JObj m)) =
   ([], Fulfilled (error_response (str "No reviews provided.") 400))
   <-> batch_rejected reviews = true)
  /\ (batch_rejected reviews = false ->
      renders (array_elems reviews) = true ->
      exists req more outcome,
        run svc [] (POST rt (JObj m)) = (req :: more, outcome)
        /\ (user req = promptEn (array_elems reviews)
            \/ user req = sentimentPrompt (array_elems reviews)))
  /\ (batch_rejected reviews = false ->
      renders (array_elems reviews) = false ->
      run svc [] (POST rt (JObj m)) =
      ([], Rejected (Thrown (to_primitive_error_message rt))))
  /\ batch_rejected (Some (JArr [JStr []])) = false
  /\ renders [JStr []] = true
  /\ batch_rejected (Some (JArr [JStr (str "  "); JNum 5; JNull])) = false
  /\ renders [JStr (str "  "); JNum 5; JNull] = true.
Proof.
  intros K. cbv zeta.
  assert (A : batch_rejected (prop (JObj m) k_reviews) = false ->
              renders (array_elems (prop (JObj m) k_reviews)) = true ->
              exists req more outcome,
                run svc [] (POST rt (JObj m)) = (req :: more, outcome)
                /\ (user req = promptEn (array_elems (prop (JObj m) k_reviews))
                    \/ user req
                       = sentimentPrompt (array_elems (prop (JObj m) k_reviews)))).
  { intros B R.
    destruct (strict_eq_string (prop (JObj m) k_locale) (str "ko")) eqn:L.
    - rewrite (run_POST_two_pass rt svc _ K B R L).
      destruct (stage1 _ _ _) as [response|sentiments];
        [|destruct (renders sentiments)];
        eexists _, _, _; split; try reflexivity; now right.
    - rewrite (run_POST_single rt svc _ K B R L).
      eexists _, _, _. split; [reflexivity|now left]. }
  split; [|split; [exact A|split; [|repeat split]]].
  - split.
    + intros R. destruct (batch_rejected _) eqn:B; [reflexivity|].
      destruct (renders (array_elems (prop (JObj m) k_reviews))) eqn:Rv.
      * destruct (A eq_refl eq_refl) as (req & more & outcome & R' & _).
        rewrite R in R'. discriminate R'.
      * rewrite (run_POST_unrendered rt svc _ K B Rv) in R. discriminate R.
    + now apply run_POST_no_reviews.
  - intros B R. now apply run_POST_unrendered.
Qed.

(** C10, at the batch [[""]]: the request goes to the service with the
    empty string in it. *)
Lemma batch_checked_by_length_only_witness :
  exists req more outcome,
    run (scripted [text_wrapped]) []
        (POST (v8 some_key)
              (JObj [(k_reviews, JArr [JStr []]); (k_locale, JStr (str "en"))]))
    = (req :: more, outcome)
    /\ (user req = promptEn [JStr []] \/ user req = sentimentPrompt [JStr []]).
Proof.
  apply (proj1 (proj2 (batch_checked_by_length_only
                         (v8 some_key) (scripted [text_wrapped])
                         [(k_reviews, JArr [JStr []]);
                          (k_locale, JStr (str "en"))]
                         eq_refl))); reflexivity.
Defined.

(** C10, counterexample: the batch [[{"toString":1}]] is a non-empty
    array of a non-string; it is not turned down, and the service is
    not contacted: the handler throws at line 42 and gives no
    response. *)
Lemma unprintable_review_not_sent :
  batch_rejected (Some (JArr [JObj [(str "toString", JNum 1)]])) = false
  /\ run (scripted [text_wrapped]) []
         (POST (v8 some_key)
               (JObj [(k_reviews, JArr [JObj [(str "toString", JNum 1)]]);
                      (k_locale, JStr (str "en"))]))
     = ([], Rejected (Thrown (str "Cannot convert object to primitive value"))).
Proof. split; vm_compute; reflexivity. Qed.

(* ================================================================= *)
(** * Further properties of the route *)

Lemma obj_set_same_value (m : members_t) (k : jsstring) (v : json) :
  obj_get m k = Some v -> obj_set m k v = m.
Proof.
  induction m as [|[k' v'] m IH]; simpl; [discriminate|].
  destruct (jsstring_eqb k' k); [now intros [= ->]|].
  intros H. now rewrite IH.
Qed.

Lemma set_prop_same_value (p : json) (k : jsstring) (v : json) :
  prop p k = Some v -> set_prop p k v = p.
Proof.
  destruct p; simpl; try discriminate.
  intros H. now rewrite obj_set_same_value.
Qed.

(** One more pass over a field that a pass has already been over. *)
Lemma ensure_percentage_again (q : json) (field count : jsstring) (x : float) :
  prop q field = Some (JNum x) ->
  (is_nan x = true -> fallback_percentage q count = Some x) ->
  ensure_percentage q field count = Some q.
Proof.
  intros P F. rewrite ensure_percentage_cases, P. cbn [percentage_given].
  destruct (is_nan x) eqn:N; [|reflexivity]. cbn [negb].
  rewrite (F eq_refl). now rewrite set_prop_same_value.
Qed.

Lemma ensure_percentage_not_object (q r : json) (field count : jsstring) :
  (forall m, q <> JObj m) ->
  ensure_percentage q field count = Some r -> r = q.
Proof.
  intros H. rewrite ensure_percentage_cases.
  destruct (percentage_given _); [now intros [= <-]|].
  destruct (fallback_percentage _ _); [|discriminate].
  intros [= <-]. destruct q; try reflexivity. now elim (H members).
Qed.

Lemma ensure_percentage_settles (q r : json) (field count : jsstring) :
  field <> k_totalCount -> field <> count ->
  ensure_percentage q field count = Some r ->
  settled_field r field count.
Proof.
  intros Ht Hc E. unfold settled_field.
  destruct q as [| b | x | s | l | m];
    try (assert (Q : r = _)
           by (eapply ensure_percentage_not_object; [|exact E]; discriminate);
         subst r; exact E).
  rewrite ensure_percentage_cases in E.
  destruct (percentage_given (prop (JObj m) field)) eqn:G.
  - injection E as <-. now apply ensure_percentage_given.
  - destruct (fallback_percentage (JObj m) count) as [x|] eqn:F;
      [|discriminate E].
    assert (R : r = set_prop (JObj m) field (JNum x)) by congruence.
    rewrite R. clear R E.
    apply ensure_percentage_again with (x := x).
    + apply prop_set_same.
    + intros _. rewrite <- F.
      apply fallback_percentage_ext; apply prop_set_other; congruence.
Qed.

Lemma settled_field_kept (q r : json) (field count other count' : jsstring) :
  other <> field -> other <> k_totalCount -> other <> count ->
  settled_field q field count ->
  ensure_percentage q other count' = Some r ->
  settled_field r field count.
Proof.
  intros Hf Ht Hc S E. unfold settled_field in *.
  destruct q as [| b | x | s | l | m];
    try (assert (Q : r = _)
           by (eapply ensure_percentage_not_object; [|exact E]; discriminate);
         subst r; exact S).
  assert (Pf : prop r field = prop (JObj m) field)
    by (apply (ensure_percentage_other _ _ E); congruence).
  assert (Fb : fallback_percentage r count = fallback_percentage (JObj m) count)
    by (apply fallback_percentage_ext;
        apply (ensure_percentage_other _ _ E); congruence).
  rewrite ensure_percentage_cases in S.
  destruct (percentage_given (prop (JObj m) field)) eqn:G.
  - apply ensure_percentage_given. now rewrite Pf.
  - destruct (fallback_percentage (JObj m) count) as [x|] eqn:F;
      [|discriminate S].
    assert (S' : set_prop (JObj m) field (JNum x) = JObj m) by congruence.
    assert (P : prop (JObj m) field = Some (JNum x))
      by (rewrite <- S' at 1; apply prop_set_same).
    apply ensure_percentage_again with (x := x); [congruence|].
    intros _. congruence.
Qed.

(** X1: the percentage fallback of lines 121-126 and 148-153 is idempotent:
    applied to its own result it changes nothing, so a payload that went
    through it once is a fixed point (and where the first pass throws
    there is nothing to apply it to). *)
Theorem normalizer_idempotent (payload : json) :
  match ensure_percentages payload with
  | Some result => ensure_percentages result
  | None => None
  end = ensure_percentages payload.
Proof.
  destruct (ensure_percentages payload) as [result|] eqn:E; [|reflexivity].
  unfold ensure_percentages in E.
  destruct (ensure_percentage payload k_positive k_positiveCount)
    as [q1|] eqn:E1; [|discriminate E].
  assert (Sp : settled_field result k_positive k_positiveCount).
  { refine (@settled_field_kept q1 result k_positive k_positiveCount
                                 k_negative k_negativeCount _ _ _ _ E);
      try distinct_keys.
    refine (@ensure_percentage_settles payload q1 k_positive k_positiveCount
                                       _ _ E1); distinct_keys. }
  assert (Sn : settled_field result k_negative k_negativeCount).
  { refine (@ensure_percentage_settles q1 result k_negative k_negativeCount
                                       _ _ E); distinct_keys. }
  unfold settled_field in *. unfold ensure_percentages. now rewrite Sp, Sn.
Qed.

Lemma failure_status (response : Response) :
  failure response -> status response = 500%Z.
Proof. now intros (msg & _ & ->). Qed.

Lemma success_status (o : ApiOutcome) (response : Response) :
  success_from o response -> status response = 200%Z.
Proof. now intros (c0 & rest & span & m & result & _ & _ & _ & _ & ->). Qed.

Lemma caught_respond_status (rt : Runtime) (o : ApiOutcome)
      (no_json fallback : jsstring) :
  fallback <> [] ->
  let response :=
    caught (fun r => r) fallback
           (bind (awaited o) (fun c => respond rt c no_json)) in
  status response = 200%Z \/ status response = 500%Z.
Proof.
  intros F.
  destruct (caught_respond_cases rt o no_json F) as [H|H].
  - right. now apply failure_status.
  - left. eapply success_status; eauto.
Qed.

Lemma run_POST_rejected_batch (rt : Runtime) (svc : Service) (request : json) :
  request <> JNull ->
  JS.truthy (option_map JStr (OPENAI_API_KEY rt)) = true ->
  batch_rejected (prop request k_reviews) = true ->
  run svc [] (POST rt request) =
  ([], Fulfilled (error_response (str "No reviews provided.") 400)).
Proof.
  intros N K B. unfold POST.
  destruct request; try congruence; now rewrite K, batch_rejected_test, B.
Qed.

Lemma run_POST_key_unset (rt : Runtime) (svc : Service) (request : json) :
  request <> JNull ->
  JS.truthy (option_map JStr (OPENAI_API_KEY rt)) = false ->
  run svc [] (POST rt request) =
  ([], Fulfilled (error_response (str "OpenAI API key not set.") 500)).
Proof.
  intros N K. unfold POST. destruct request; try congruence; now rewrite K.
Qed.

Lemma answered_after_calls (calls : list ChatRequest) (response : Response) :
  calls <> [] ->
  status response = 200%Z \/ status response = 500%Z ->
  handler_status (status response) = true
  /\ (status response = 400%Z -> calls = [])
  /\ (status response = 200%Z -> calls <> []).
Proof.
  intros Hc Hs. split; [|split]; auto.
  - destruct Hs as [-> | ->]; reflexivity.
  - destruct Hs as [Hs|Hs]; rewrite Hs; discriminate.
Qed.

Lemma answered_without_call (msg : jsstring) (st : Z) :
  handler_status st = true -> st <> 200%Z ->
  handler_status (status (error_response msg st)) = true
  /\ (status (error_response msg st) = 400%Z -> @nil ChatRequest = [])
  /\ (status (error_response msg st) = 200%Z -> @nil ChatRequest <> []).
Proof.
  intros H N. cbn [status error_response].
  repeat split; auto; contradiction.
Qed.

(** X2: for every request body other than [null] and every behaviour of
    the completion service, the handler makes at most two calls, each
    with the model, the system message, the prompt and the token limit
    of one of the three call sites, and then either answers or throws.
    An answer has status 200, 400 or 500; a 400 is answered before any
    call, a 200 only after a call.  It throws only while it fills in
    a template: before any call for a review that has no primitive
    value, after the first call for such a sentiment. *)
Theorem handler_answers_or_throws
        (rt : Runtime) (svc : Service) (request : json) :
  request <> JNull ->
  exists calls outcome,
    run svc [] (POST rt request) = (calls, outcome)
    /\ length calls <= 2
    /\ Forall (fun req => request_as_written req = true) calls
    /\ match outcome with
       | Fulfilled response =>
           handler_status (status response) = true
           /\ (status response = 400%Z -> calls = [])
           /\ (status response = 200%Z -> calls <> [])
       | Rejected e => unrendered rt svc request calls e
       end.
Proof.
  intros N.
  destruct (JS.truthy (option_map JStr (OPENAI_API_KEY rt))) eqn:K.
  2:{ rewrite (run_POST_key_unset rt svc N K).
      eexists _, _. split; [reflexivity|].
      split; [simpl; lia|]. split; [constructor|].
      apply answered_without_call; [reflexivity|discriminate]. }
  destruct (batch_rejected (prop request k_reviews)) eqn:B.
  { rewrite (run_POST_rejected_batch rt svc N K B).
    eexists _, _. split; [reflexivity|].
    split; [simpl; lia|]. split; [constructor|].
    apply answered_without_call; [reflexivity|discriminate]. }
  destruct (renders (array_elems (prop request k_reviews))) eqn:R.
  2:{ rewrite (run_POST_unrendered rt svc _ K B R).
      eexists _, _. split; [reflexivity|].
      split; [simpl; lia|]. split; [constructor|].
      split; [reflexivity|]. left. auto. }
  destruct (strict_eq_string (prop request k_locale) (str "ko")) eqn:L.
  - rewrite (run_POST_two_pass rt svc _ K B R L).
    set (reviews := array_elems (prop request k_reviews)) in *.
    pose proof (stage1_cases rt svc reviews) as S1.
    destruct (stage1 rt svc reviews) as [response|sentiments] eqn:E1.
    + eexists _, _. split; [reflexivity|].
      split; [simpl; lia|]. split; [repeat constructor|].
      apply answered_after_calls;
        [discriminate|right; now apply failure_status].
    + destruct (renders sentiments) eqn:Rs.
      * eexists _, _. split; [reflexivity|].
        split; [simpl; lia|]. split; [repeat constructor|].
        apply answered_after_calls;
          [discriminate|apply caught_respond_status; discriminate].
      * eexists _, _. split; [reflexivity|].
        split; [simpl; lia|]. split; [repeat constructor|].
        split; [reflexivity|]. right. exists sentiments.
        repeat split; auto. now apply strict_eq_string_true.
  - rewrite (run_POST_single rt svc _ K B R L).
    eexists _, _. split; [reflexivity|].
    split; [simpl; lia|]. split.
    + constructor; [|constructor].
      unfold request_as_written, single_request.
      cbn [model system user max_tokens]. rewrite L. reflexivity.
    + apply answered_after_calls;
        [discriminate|apply caught_respond_status; discriminate].
Qed.

(** X2, for a sentiment that cannot be printed into the second prompt:
    the run ends after the first call, without a response. *)
Lemma handler_answers_or_throws_witness :
  let svc := replaying
               [Resolves (answer (str "{" ++ quoted "sentiments"
                                  ++ str ":[{" ++ quoted "toString"
                                  ++ str ":1}]}"))] in
  let request := request_of [JStr (str "Great")] "ko" in
  exists calls outcome,
    run svc [] (POST (v8 some_key) request) = (calls, outcome)
    /\ length calls <= 2
    /\ Forall (fun req => request_as_written req = true) calls
    /\ match outcome with
       | Fulfilled response =>
           handler_status (status response) = true
           /\ (status response = 400%Z -> calls = [])
           /\ (status response = 200%Z -> calls <> [])
       | Rejected e => unrendered (v8 some_key) svc request calls e
       end.
Proof.
  intros svc request.
  apply (@handler_answers_or_throws (v8 some_key) svc request).
  discriminate.
Defined.

(** The sentiment of that run, and the run itself. *)
Example unprintable_sentiment_run :
  run (replaying
         [Resolves (answer (str "{" ++ quoted "sentiments"
                            ++ str ":[{" ++ quoted "toString"
                            ++ str ":1}]}"))]) []
      (POST (v8 some_key) (request_of [JStr (str "Great")] "ko"))
  = ([sentiment_request [JStr (str "Great")]],
     Rejected (Thrown (str "Cannot convert object to primitive value"))).
Proof. vm_compute. reflexivity. Qed.

(** The one request the handler does not answer. *)
Lemma run_POST_null (rt : Runtime) (svc : Service) :
  run svc [] (POST rt JNull)
  = ([], Rejected (Thrown (destructure_error_message rt))).
Proof. reflexivity. Qed.

Lemma match_star_rbrace_none (post : jsstring) :
  forallb (not_char "}") post = true -> JS.match_star_rbrace post = None.
Proof.
  induction post as [|c post IH]; [reflexivity|].
  cbn [forallb JS.match_star_rbrace]. intros H.
  apply andb_true_iff in H. destruct H as [Hc Hp].
  rewrite (IH Hp). unfold not_char in Hc.
  now destruct (is_char "}" c).
Qed.

Lemma match_star_rbrace_body (body post : jsstring) :
  forallb (not_char "}") post = true ->
  JS.match_star_rbrace (body ++ ch "}" :: post) = Some (body ++ [ch "}"]).
Proof.
  intros H. induction body as [|c body IH].
  - cbn [app JS.match_star_rbrace]. now rewrite (match_star_rbrace_none _ H).
  - cbn [app JS.match_star_rbrace]. now rewrite IH.
Qed.

Lemma regex_match_prose (pre body post : jsstring) :
  forallb (not_char "{") pre = true ->
  forallb (not_char "}") post = true ->
  JS.regex_match (pre ++ ch "{" :: body ++ ch "}" :: post)
  = Some (ch "{" :: body ++ [ch "}"]).
Proof.
  intros Hpre Hpost. induction pre as [|c pre IH].
  - cbn [app JS.regex_match].
    change (is_char "{" (ch "{")) with true. cbv iota.
    now rewrite match_star_rbrace_body.
  - cbn [forallb] in Hpre. apply andb_true_iff in Hpre.
    destruct Hpre as [Hc Hp]. cbn [app JS.regex_match].
    unfold not_char in Hc. destruct (is_char "{" c); [discriminate|].
    now apply IH.
Qed.

(** X3: text around the object is ignored by the extractor: when the
    prefix holds no opening brace and the suffix no closing brace, the
    pattern matches the span between them, and extraction and the
    response are the ones of the span alone. *)
Theorem prose_around_object_ignored
        (rt : Runtime) (pre body post no_json : jsstring) :
  forallb (not_char "{") pre = true ->
  forallb (not_char "}") post = true ->
  let span := ch "{" :: body ++ [ch "}"] in
  JS.regex_match (pre ++ span ++ post) = Some span
  /\ extract rt (pre ++ span ++ post) = extract rt span
  /\ respond rt (answer (pre ++ span ++ post)) no_json
     = respond rt (answer span) no_json.
Proof.
  intros Hpre Hpost span.
  assert (E : JS.regex_match (pre ++ span ++ post) = Some span).
  { unfold span. cbn [app]. rewrite <- app_assoc. cbn [app].
    now apply regex_match_prose. }
  assert (E0 : JS.regex_match span = Some span).
  { pose proof (regex_match_prose [] body [] eq_refl eq_refl) as H.
    exact H. }
  split; [exact E|].
  assert (X : extract rt (pre ++ span ++ post) = extract rt span)
    by (unfold extract; now rewrite E, E0).
  split; [exact X|].
  rewrite !respond_brace_span. unfold answer, content_text.
  cbn [choices content]. now rewrite <- !regex_match_brace_span, E, E0.
Qed.

Lemma prose_around_object_ignored_witness :
  JS.regex_match text_wrapped = Some (str "{" ++ quoted "a" ++ str ":1}")
  /\ extract (v8 some_key) text_wrapped
     = extract (v8 some_key) (str "{" ++ quoted "a" ++ str ":1}")
  /\ respond (v8 some_key) (answer text_wrapped) (str "No JSON")
     = respond (v8 some_key) (answer (str "{" ++ quoted "a" ++ str ":1}"))
               (str "No JSON").
Proof.
  apply (@prose_around_object_ignored
           (v8 some_key) (str "Sure! ") (quoted "a" ++ str ":1")
           (str " Thanks.") (str "No JSON"));
    reflexivity.
Defined.

Section Failures.

Variable rt : Runtime.
Variable svc : Service.
Variable request : json.

Hypothesis key_set : JS.truthy (option_map JStr (OPENAI_API_KEY rt)) = true.
Hypothesis batch_accepted : batch_rejected (prop request k_reviews) = false.
Hypothesis batch_renders :
  renders (array_elems (prop request k_reviews)) = true.

Let reviews := array_elems (prop request k_reviews).

(** The run on an accepted request, from what the first call settles to. *)
Lemma run_POST_first_failure (m : Async Completion) (message : jsstring) :
  awaited (svc [] (first_request request)) = m ->
  (strict_eq_string (prop request k_locale) (str "ko") = true ->
   bind m (after_sentiment_call rt reviews) = Throw (Thrown message)) ->
  (strict_eq_string (prop request k_locale) (str "ko") = false ->
   bind m (fun c => respond rt c (str "No JSON in OpenAI response"))
   = Throw (Thrown message)) ->
  run svc [] (POST rt request) =
  ([first_request request],
   Fulfilled (error_response (or_else message (first_fallback request)) 500)).
Proof.
  unfold first_request, first_fallback. intros A Hko Hen.
  destruct (strict_eq_string (prop request k_locale) (str "ko")) eqn:L.
  - rewrite (run_POST_two_pass rt svc _ key_set batch_accepted batch_renders L).
    unfold stage1. unfold reviews in Hko. rewrite A, (Hko eq_refl). reflexivity.
  - rewrite (run_POST_single rt svc _ key_set batch_accepted batch_renders L).
    unfold single. rewrite A, (Hen eq_refl). reflexivity.
Qed.

Lemma run_POST_second_failure (sentiments : list json) (m : Async Completion)
      (message : jsstring) :
  strict_eq_string (prop request k_locale) (str "ko") = true ->
  stage1 rt svc reviews = inr sentiments ->
  renders sentiments = true ->
  awaited (svc [sentiment_request reviews]
               (keyword_request reviews sentiments)) = m ->
  bind m (fun c => respond rt c (str "No JSON in OpenAI keyword response"))
  = Throw (Thrown message) ->
  run svc [] (POST rt request) =
  ([sentiment_request reviews; keyword_request reviews sentiments],
   Fulfilled (error_response
                (or_else message (str "OpenAI keyword step error")) 500)).
Proof.
  intros L S Rs A H.
  rewrite (run_POST_two_pass rt svc _ key_set batch_accepted batch_renders L).
  unfold reviews in *. rewrite S, Rs. unfold stage2. rewrite A, H.
  reflexivity.
Qed.

End Failures.



(** X5: for a batch that is accepted and can be printed into the
    prompt, an answer in which the pattern finds no object ends in a
    500 with the message of the step: No valid sentiments array in
    OpenAI response or No JSON in OpenAI response for the first call,
    No JSON in OpenAI keyword response for the second, whatever
    further choices the completion holds. *)
Theorem answer_without_object_is_reported
        (rt : Runtime) (svc : Service) (request : json)
        (c0 : Choice) (rest : list Choice) :
  JS.truthy (option_map JStr (OPENAI_API_KEY rt)) = true ->
  batch_rejected (prop request k_reviews) = false ->
  renders (array_elems (prop request k_reviews)) = true ->
  brace_span (content_text c0) = None ->
  let reviews := array_elems (prop request k_reviews) in
  (svc [] (first_request request) = Resolves {| choices := c0 :: rest |} ->
   run svc [] (POST rt request) =
   ([first_request request],
    Fulfilled (error_response (first_no_json request) 500)))
  /\ (forall sentiments,
        strict_eq_string (prop request k_locale) (str "ko") = true ->
        stage1 rt svc reviews = inr sentiments ->
        renders sentiments = true ->
        svc [sentiment_request reviews] (keyword_request reviews sentiments)
        = Resolves {| choices := c0 :: rest |} ->
        run svc [] (POST rt request) =
        ([sentiment_request reviews; keyword_request reviews sentiments],
         Fulfilled (error_response
                      (str "No JSON in OpenAI keyword response") 500))).
Proof.
  intros K B Rv N reviews. subst reviews. split.
  - intros R.
    replace (first_no_json request)
      with (or_else (first_no_json request) (first_fallback request))
      by (unfold first_no_json; now destruct (strict_eq_string _ _)).
    apply (@run_POST_first_failure rt svc request K B Rv
             (Return {| choices := c0 :: rest |}) (first_no_json request));
      [now rewrite R|intros L; unfold first_no_json; rewrite L; cbn [bind]..].
    + rewrite after_sentiment_call_brace_span. cbn [choices]. now rewrite N.
    + rewrite respond_brace_span. cbn [choices]. now rewrite N.
  - intros sentiments L S Rs R.
    apply (@run_POST_second_failure rt svc request K B Rv sentiments
             (Return {| choices := c0 :: rest |})
             (str "No JSON in OpenAI keyword response") L S Rs);
      [now rewrite R|].
    cbn [bind]. rewrite respond_brace_span. cbn [choices]. now rewrite N.
Qed.

(** A completion whose content is [null]. *)
Lemma answer_without_object_is_reported_witness :
  run (replaying [Resolves {| choices := [ {| content := None |} ] |}]) []
      (POST (v8 some_key) (request_of [JStr (str "Great")] "ko"))
  = ([sentiment_request [JStr (str "Great")]],
     Fulfilled (error_response
                  (str "No valid sentiments array in OpenAI response") 500)).
Proof.
  apply (proj1 (@answer_without_object_is_reported
                  (v8 some_key)
                  (replaying [Resolves {| choices := [ {| content := None |} ] |}])
                  (request_of [JStr (str "Great")] "ko")
                  {| content := None |} [] eq_refl eq_refl eq_refl eq_refl)).
  reflexivity.
Defined.

(** X6: whenever the handler made a second call it made exactly two: the
    first is the sentiment request for the batch, it resolved with an
    answer whose object has a [sentiments] array as long as the batch,
    and the second is the keyword request built from the batch and
    exactly that array. *)
Theorem second_call_carries_first_answer
        (rt : Runtime) (svc : Service) (request : json)
        (req1 req2 : ChatRequest) (more : list ChatRequest)
        (response : Response) :
  run svc [] (POST rt request) = (req1 :: req2 :: more, Fulfilled response) ->
  let reviews := array_elems (prop request k_reviews) in
  more = []
  /\ req1 = sentiment_request reviews
  /\ exists c0 rest span payload sentiments,
       svc [] req1 = Resolves {| choices := c0 :: rest |}
       /\ brace_span (content_text c0) = Some span
       /\ JSON.parse span = Some payload
       /\ prop payload k_sentiments = Some (JArr sentiments)
       /\ length sentiments = length reviews
       /\ req2 = keyword_request reviews sentiments.
Proof.
  intros R reviews.
  assert (N : request <> JNull) by (intros ->; discriminate R).
  destruct (JS.truthy (option_map JStr (OPENAI_API_KEY rt))) eqn:K;
    [|rewrite (run_POST_key_unset rt svc N K) in R; discriminate R].
  destruct (batch_rejected (prop request k_reviews)) eqn:B;
    [rewrite (run_POST_rejected_batch rt svc N K B) in R; discriminate R|].
  destruct (renders (array_elems (prop request k_reviews))) eqn:Rv;
    [|rewrite (run_POST_unrendered rt svc _ K B Rv) in R; discriminate R].
  destruct (strict_eq_string (prop request k_locale) (str "ko")) eqn:L;
    [|rewrite (run_POST_single rt svc _ K B Rv L) in R; discriminate R].
  rewrite (run_POST_two_pass rt svc _ K B Rv L) in R.
  pose proof (stage1_cases rt svc reviews) as S. fold reviews in R.
  destruct (stage1 rt svc reviews) as [resp|sentiments]; [discriminate R|].
  destruct (renders sentiments); [|discriminate R].
  inversion R; subst; clear R.
  destruct S as (c0 & rest & span & payload & S1 & S2 & S3 & S4 & S5).
  split; [reflexivity|split; [reflexivity|]].
  exists c0, rest, span, payload, sentiments. auto 10.
Qed.

Lemma second_call_carries_first_answer_witness :
  exists c0 rest span payload sentiments,
    scripted [text_neutral_sentiment; text_index_out_of_range] []
             (sentiment_request [JStr (str "Great")])
    = Resolves {| choices := c0 :: rest |}
    /\ brace_span (content_text c0) = Some span
    /\ JSON.parse span = Some payload
    /\ prop payload k_sentiments = Some (JArr sentiments)
    /\ length sentiments = 1
    /\ keyword_request [JStr (str "Great")] [JStr (str "neutral")]
       = keyword_request [JStr (str "Great")] sentiments.
Proof.
  refine (proj2 (proj2 (@second_call_carries_first_answer
            (v8 some_key)
            (scripted [text_neutral_sentiment; text_index_out_of_range])
            (request_of [JStr (str "Great")] "ko")
            (sentiment_request [JStr (str "Great")])
            (keyword_request [JStr (str "Great")] [JStr (str "neutral")])
            []
            (stage2 (v8 some_key)
                    (scripted [text_neutral_sentiment; text_index_out_of_range])
                    [JStr (str "Great")] [JStr (str "neutral")])
            _))).
  vm_compute. reflexivity.
Defined.


(* ================================================================= *)
(** * Properties of the page *)

Lemma split_not_nil (sep : char16) (s : jsstring) : split sep s <> [].
Proof.
  induction s as [|c s IH]; simpl; [discriminate|].
  destruct (N.eqb c sep); [discriminate|].
  destruct (split sep s); [contradiction|discriminate].
Qed.

Lemma join_cons (sep piece : jsstring) (pieces : list jsstring) :
  pieces <> [] -> join sep (piece :: pieces) = piece ++ sep ++ join sep pieces.
Proof. destruct pieces; [contradiction|reflexivity]. Qed.

(** Joining the pieces of a split gives the string back. *)
Lemma join_split (sep : char16) (s : jsstring) :
  join [sep] (split sep s) = s.
Proof.
  induction s as [|c s IH]; [reflexivity|].
  cbn [split]. destruct (N.eqb c sep) eqn:E.
  - apply N.eqb_eq in E. subst c.
    rewrite join_cons by apply split_not_nil. now rewrite IH.
  - pose proof (split_not_nil sep s) as N.
    destruct (split sep s) as [|piece pieces]; [contradiction|].
    destruct pieces as [|p ps].
    + cbn [join] in *. now rewrite IH.
    + rewrite join_cons by discriminate.
      rewrite join_cons in IH by discriminate.
      now rewrite <- IH.
Qed.

Lemma split_free (sep : char16) (piece : jsstring) :
  ~ In sep piece -> split sep piece = [piece].
Proof.
  induction piece as [|c piece IH]; [reflexivity|]. intros Hp.
  cbn [split]. destruct (N.eqb c sep) eqn:E.
  - apply N.eqb_eq in E. subst. elim Hp. now left.
  - rewrite IH; [reflexivity|]. intros H. apply Hp. now right.
Qed.

Lemma split_app_sep (sep : char16) (piece rest : jsstring) :
  ~ In sep piece ->
  split sep (piece ++ sep :: rest) = piece :: split sep rest.
Proof.
  induction piece as [|c piece IH]; intros Hp.
  - cbn [app split]. now rewrite N.eqb_refl.
  - cbn [app split]. destruct (N.eqb c sep) eqn:E.
    + apply N.eqb_eq in E. subst. elim Hp. now left.
    + rewrite IH; [reflexivity|]. intros H. apply Hp. now right.
Qed.

(** Splitting the join of separator-free pieces gives the pieces back. *)
Lemma split_join (sep : char16) (pieces : list jsstring) :
  pieces <> [] ->
  Forall (fun piece => ~ In sep piece) pieces ->
  split sep (join [sep] pieces) = pieces.
Proof.
  induction pieces as [|piece pieces IH]; [contradiction|].
  intros _ F. inversion F as [|? ? Hp Hps]; subst.
  destruct pieces as [|p ps].
  - now apply split_free.
  - change (join [sep] (piece :: p :: ps))
      with (piece ++ sep :: join [sep] (p :: ps)).
    rewrite split_app_sep by assumption.
    now rewrite IH by (auto; discriminate).
Qed.

Lemma split_pieces_free (sep : char16) (s : jsstring) :
  Forall (fun piece => ~ In sep piece) (split sep s).
Proof.
  induction s as [|c s IH]; cbn [split].
  - constructor; [intros []|constructor].
  - destruct (N.eqb c sep) eqn:E.
    + constructor; [intros []|exact IH].
    + destruct (split sep s) as [|piece pieces]; [repeat constructor|].
      * intros [H|[]]. subst. now rewrite N.eqb_refl in E.
      * inversion IH; subst. constructor; [|assumption].
        intros [H|H]; [subst; now rewrite N.eqb_refl in E|contradiction].
Qed.

Lemma trim_start_head (s : jsstring) : head_not_ws (JS.trim_start s).
Proof.
  induction s as [|c s IH]; simpl; [exact I|].
  destruct (JS.is_str_ws c) eqn:E; [exact IH|exact E].
Qed.

Lemma trim_start_fixed (s : jsstring) :
  head_not_ws s -> JS.trim_start s = s.
Proof. destruct s as [|c s]; simpl; [reflexivity|]. now intros ->. Qed.

Lemma trim_start_nil (s : jsstring) :
  JS.trim_start s = [] <-> forallb JS.is_str_ws s = true.
Proof.
  induction s as [|c s IH]; simpl; [tauto|].
  destruct (JS.is_str_ws c); simpl; [exact IH|].
  split; discriminate.
Qed.

Lemma trim_start_In (s : jsstring) (x : char16) :
  In x (JS.trim_start s) -> In x s.
Proof.
  induction s as [|c s IH]; simpl; [tauto|].
  destruct (JS.is_str_ws c); [auto|tauto].
Qed.

Lemma trim_start_keeps_last (p : jsstring) (c : char16) :
  JS.is_str_ws c = false -> exists q, JS.trim_start (p ++ [c]) = q ++ [c].
Proof.
  intros Hc. induction p as [|d p IH]; simpl.
  - rewrite Hc. now exists [].
  - destruct (JS.is_str_ws d); [exact IH|]. now exists (d :: p).
Qed.

Lemma trim_head (s : jsstring) : head_not_ws (JS.trim s).
Proof.
  unfold JS.trim. pose proof (trim_start_head s) as H.
  destruct (JS.trim_start s) as [|c t]; [exact I|].
  cbn [rev]. destruct (trim_start_keeps_last (rev t) c H) as [q ->].
  rewrite rev_app_distr. exact H.
Qed.

Lemma trim_last (s : jsstring) : head_not_ws (rev (JS.trim s)).
Proof.
  unfold JS.trim. rewrite rev_involutive. apply trim_start_head.
Qed.

(** Trimming a trimmed string changes nothing. *)
Lemma trim_idempotent (s : jsstring) : JS.trim (JS.trim s) = JS.trim s.
Proof.
  unfold JS.trim at 1.
  rewrite (trim_start_fixed _ (trim_head s)).
  rewrite (trim_start_fixed _ (trim_last s)).
  apply rev_involutive.
Qed.

Lemma trim_In (s : jsstring) (x : char16) : In x (JS.trim s) -> In x s.
Proof.
  unfold JS.trim. intros H.
  apply in_rev in H. apply trim_start_In in H.
  apply in_rev in H. now apply trim_start_In in H.
Qed.

Lemma forallb_rev {A : Type} (f : A -> bool) (l : list A) :
  forallb f (rev l) = forallb f l.
Proof.
  induction l as [|a l IH]; [reflexivity|].
  cbn [rev forallb]. rewrite forallb_app, IH. cbn [forallb].
  rewrite andb_true_r. apply andb_comm.
Qed.

Lemma trim_nil (s : jsstring) :
  JS.trim s = [] <-> forallb JS.is_str_ws s = true.
Proof.
  unfold JS.trim. split.
  - intros H.
    assert (R : JS.trim_start (rev (JS.trim_start s)) = [])
      by (now rewrite <- (rev_involutive (JS.trim_start _)), H).
    apply trim_start_nil in R. rewrite forallb_rev in R.
    pose proof (trim_start_head s) as Hd.
    destruct (JS.trim_start s) as [|c t] eqn:T.
    + now apply trim_start_nil.
    + cbn [forallb head_not_ws] in *. rewrite Hd in R. discriminate R.
  - intros H. apply trim_start_nil in H. now rewrite H.
Qed.

Lemma split_all_ws (s : jsstring) :
  forallb (forallb JS.is_str_ws) (split line_feed s) = forallb JS.is_str_ws s.
Proof.
  induction s as [|c s IH]; [reflexivity|].
  cbn [split forallb]. destruct (N.eqb c line_feed) eqn:E.
  - apply N.eqb_eq in E. subst c. cbn [forallb]. exact IH.
  - pose proof (split_not_nil line_feed s) as N.
    destruct (split line_feed s) as [|piece pieces]; [contradiction|].
    cbn [forallb] in *. now rewrite <- IH, andb_assoc.
Qed.

Lemma filter_nil {A : Type} (f : A -> bool) (l : list A) :
  filter f l = [] <-> forallb (fun a => negb (f a)) l = true.
Proof.
  induction l as [|a l IH]; simpl; [tauto|].
  destruct (f a); simpl; [|exact IH]. split; discriminate.
Qed.

Lemma trim_empty_test (line : jsstring) :
  negb (0 <? length (JS.trim line)) = forallb JS.is_str_ws line.
Proof.
  destruct (forallb JS.is_str_ws line) eqn:W.
  - apply trim_nil in W. now rewrite W.
  - destruct (JS.trim line) eqn:T; [|reflexivity].
    apply trim_nil in T. congruence.
Qed.

(** X7: every review of the batch that [handleAnalyze] builds
    (lines 60-63) is not empty, is its own trim, holds no line feed and
    is the trim of a line of the input. *)
Theorem batch_is_clean (input : jsstring) :
  Forall (fun r =>
            r <> []
            /\ JS.trim r = r
            /\ ~ In line_feed r
            /\ exists line, In line (split line_feed input) /\ r = JS.trim line)
         (reviewsArr input).
Proof.
  apply Forall_forall. intros r H. unfold reviewsArr in H.
  apply filter_In in H. destruct H as [H L].
  apply in_map_iff in H. destruct H as (line & <- & Hl).
  split; [|split; [|split]].
  - intros E. rewrite E in L. discriminate L.
  - apply trim_idempotent.
  - intros X. apply trim_In in X.
    pose proof (split_pieces_free line_feed input) as F.
    rewrite Forall_forall in F. exact (F line Hl X).
  - now exists line.
Qed.

Lemma blank_lines_test (lines : list jsstring) :
  forallb (fun r => negb (0 <? length r)) (map JS.trim lines)
  = forallb (forallb JS.is_str_ws) lines.
Proof.
  induction lines as [|a l IH]; [reflexivity|].
  cbn [map forallb]. now rewrite trim_empty_test, IH.
Qed.

Lemma reviewsArr_nil_iff (input : jsstring) :
  reviewsArr input = [] <-> forallb JS.is_str_ws input = true.
Proof.
  unfold reviewsArr.
  now rewrite filter_nil, blank_lines_test, split_all_ws.
Qed.

Lemma reviewsArr_not_empty (input : jsstring) :
  Forall (fun r => r <> []) (reviewsArr input).
Proof.
  apply Forall_forall. intros r H. unfold reviewsArr in H.
  apply filter_In in H. destruct H as [_ L].
  intros E. rewrite E in L. discriminate L.
Qed.

Lemma split_app (sep : char16) (s rest : jsstring) :
  split sep (s ++ sep :: rest) = split sep s ++ split sep rest.
Proof.
  induction s as [|c s IH].
  - cbn [app split]. now rewrite N.eqb_refl.
  - cbn [app split]. destruct (N.eqb c sep); [now rewrite IH|].
    rewrite IH. pose proof (split_not_nil sep s) as N.
    destruct (split sep s) as [|piece pieces]; [contradiction|reflexivity].
Qed.

(** X8: the batch is empty exactly when the input holds only white space;
    the batch of two texts joined by a line feed is the batch of the
    first followed by the batch of the second; and an input of one line
    that is not blank gives that line trimmed. *)
Theorem batch_by_lines (input : jsstring) :
  (reviewsArr input = [] <-> forallb JS.is_str_ws input = true)
  /\ (forall more,
        reviewsArr (input ++ line_feed :: more)
        = reviewsArr input ++ reviewsArr more)
  /\ (~ In line_feed input -> forallb JS.is_str_ws input = false ->
      reviewsArr input = [JS.trim input]).
Proof.
  split; [apply reviewsArr_nil_iff|split].
  - intros more. unfold reviewsArr.
    now rewrite split_app, map_app, filter_app.
  - intros F W. unfold reviewsArr. rewrite split_free by exact F.
    cbn [map filter].
    pose proof (trim_empty_test input) as T. rewrite W in T.
    destruct (0 <? length (JS.trim input)); [reflexivity|discriminate T].
Qed.

Lemma range_In (n : nat) (from c : N) :
  (from <= c < from + N.of_nat n)%N -> In c (Quote.range n from).
Proof.
  revert from. induction n as [|n IH]; intros from H; [lia|].
  cbn [Quote.range]. destruct (N.eq_dec from c) as [->|Ne]; [now left|right].
  apply IH. lia.
Qed.

Lemma escape_read_back_all :
  forallb escape_read_back (Quote.range (N.to_nat 65536) 0) = true.
Proof. vm_compute. reflexivity. Qed.

Lemma hex4_unicode_escape (c : char16) :
  (c < 65536)%N ->
  JSON.hex4 (Quote.hex_digit (c / 4096)) (Quote.hex_digit ((c / 256) mod 16))
            (Quote.hex_digit ((c / 16) mod 16)) (Quote.hex_digit (c mod 16))
  = Some c.
Proof.
  intros H.
  pose proof escape_read_back_all as A. rewrite forallb_forall in A.
  assert (I : In c (Quote.range (N.to_nat 65536) 0))
    by (apply range_In; rewrite N2Nat.id; lia).
  specialize (A c I).
  unfold escape_read_back, Quote.unicode_escape in A.
  destruct (JSON.hex4 _ _ _ _) as [u|]; [|discriminate A].
  apply N.eqb_eq in A. now subst.
Qed.

Lemma string_body_unicode (h1 h2 h3 h4 u : char16) (r acc : jsstring) :
  JSON.hex4 h1 h2 h3 h4 = Some u ->
  JSON.string_body (92 :: 117 :: h1 :: h2 :: h3 :: h4 :: r)%N acc
  = JSON.string_body r (u :: acc).
Proof.
  intros H. cbn [JSON.string_body].
  change (92 =? 34)%N with false. change (92 =? 92)%N with true.
  change (is_char "u" 117%N) with true. cbv iota. now rewrite H.
Qed.

Lemma string_body_simple (e x : char16) (r acc : jsstring) :
  is_char "u" e = false -> JSON.simple_escape e = Some x ->
  JSON.string_body (92 :: e :: r)%N acc = JSON.string_body r (x :: acc).
Proof.
  intros U H. cbn [JSON.string_body].
  change (92 =? 34)%N with false. change (92 =? 92)%N with true.
  cbv iota. now rewrite U, H.
Qed.

Lemma string_body_literal (c : char16) (r acc : jsstring) :
  (c =? 34)%N = false -> (c =? 92)%N = false -> (c <? 32)%N = false ->
  JSON.string_body (c :: r) acc = JSON.string_body r (c :: acc).
Proof. intros A B C. cbn [JSON.string_body]. now rewrite A, B, C. Qed.

Lemma string_body_escaped (c : char16) (r acc : jsstring) :
  (c < 65536)%N ->
  JSON.string_body (Quote.unicode_escape c ++ r) acc
  = JSON.string_body r (c :: acc).
Proof.
  intros H. unfold Quote.unicode_escape. cbn [app].
  apply string_body_unicode. now apply hex4_unicode_escape.
Qed.

Lemma string_body_quote_unit (c : char16) (r acc : jsstring) :
  Quote.is_high c = false ->
  JSON.string_body (Quote.quote_unit c ++ r) acc
  = JSON.string_body r (c :: acc).
Proof.
  intros Hh. unfold Quote.quote_unit.
  repeat match goal with
         | |- context [if (c =? ?k)%N then _ else _] =>
             let E := fresh "E" in
             destruct (c =? k)%N eqn:E;
             [apply N.eqb_eq in E; subst c; reflexivity|]
         end.
  rewrite Hh, orb_false_r.
  destruct (c <? 32)%N eqn:L; cbn [orb].
  - apply string_body_escaped. apply N.ltb_lt in L. lia.
  - destruct (Quote.is_low c) eqn:Lo.
    + apply string_body_escaped. unfold Quote.is_low in Lo.
      apply andb_true_iff in Lo. destruct Lo as [_ Lo].
      apply N.leb_le in Lo. lia.
    + cbn [app]. now apply string_body_literal.
Qed.

Lemma surrogate_literal (c : char16) :
  Quote.is_high c = true \/ Quote.is_low c = true ->
  (c =? 34)%N = false /\ (c =? 92)%N = false /\ (c <? 32)%N = false.
Proof.
  unfold Quote.is_high, Quote.is_low.
  intros [H|H]; apply andb_true_iff in H; destruct H as [H _];
    apply N.leb_le in H;
    (split; [|split]); try (apply N.eqb_neq; lia); apply N.ltb_ge; lia.
Qed.

Lemma string_body_quote_body_bounded (n : nat) :
  forall s acc rest,
    length s <= n ->
    JSON.string_body (Quote.quote_body s ++ 34%N :: rest) acc
    = JSON.Parsed (rev acc ++ s) rest.
Proof.
  induction n as [|n IH]; intros s acc rest L.
  - destruct s; [|simpl in L; lia].
    cbn [Quote.quote_body app JSON.string_body].
    now rewrite N.eqb_refl, app_nil_r.
  - destruct s as [|c s'].
    + cbn [Quote.quote_body app JSON.string_body].
      now rewrite N.eqb_refl, app_nil_r.
    + cbn [length] in L. cbn [Quote.quote_body].
      destruct (Quote.is_high c) eqn:Hh.
      * destruct s' as [|d s''].
        -- rewrite string_body_escaped.
           ++ cbn [JSON.string_body]. now rewrite N.eqb_refl.
           ++ unfold Quote.is_high in Hh. apply andb_true_iff in Hh.
              destruct Hh as [_ Hh]. apply N.leb_le in Hh. lia.
        -- destruct (Quote.is_low d) eqn:Hl.
           ++ destruct (surrogate_literal c (or_introl Hh)) as (A & B & C).
              destruct (surrogate_literal d (or_intror Hl)) as (A' & B' & C').
              cbn [app]. rewrite string_body_literal by assumption.
              rewrite string_body_literal by assumption.
              rewrite IH by (cbn [length] in L; lia).
              cbn [rev]. now rewrite <- !app_assoc.
           ++ rewrite <- app_assoc, string_body_escaped.
              ** rewrite IH by lia. cbn [rev]. now rewrite <- app_assoc.
              ** unfold Quote.is_high in Hh. apply andb_true_iff in Hh.
                 destruct Hh as [_ Hh]. apply N.leb_le in Hh. lia.
      * rewrite <- app_assoc, string_body_quote_unit by assumption.
        rewrite IH by lia. cbn [rev]. now rewrite <- app_assoc.
Qed.

(** Round trip: the string body that [JSON.stringify] writes for [s]
    reads back as [s]. *)
Lemma string_body_quote_body (s acc rest : jsstring) :
  JSON.string_body (Quote.quote_body s ++ 34%N :: rest) acc
  = JSON.Parsed (rev acc ++ s) rest.
Proof. apply string_body_quote_body_bounded with (n := length s). lia. Qed.

Lemma value_quoted (fuel : nat) (s rest : jsstring) :
  JSON.value (S fuel) (Quote.quote s ++ rest) = JSON.Parsed (JStr s) rest.
Proof.
  unfold Quote.quote. cbn [app]. rewrite <- app_assoc. cbn [app].
  cbn [JSON.value JSON.skip_ws].
  change (JSON.is_ws 34%N) with false. cbv iota.
  change (is_char "{" 34%N) with false. change (is_char "[" 34%N) with false.
  change (34 =? 34)%N with true. cbv iota.
  now rewrite string_body_quote_body.
Qed.

Lemma skip_ws_quoted (s rest : jsstring) :
  JSON.skip_ws (Quote.quote s ++ rest) = Quote.quote s ++ rest.
Proof. reflexivity. Qed.

Lemma elements_step (fuel : nat) (s : jsstring) (acc : list json) :
  JSON.elements (S fuel) s acc =
  match JSON.value fuel s with
  | JSON.Parsed v r =>
      match JSON.skip_ws r with
      | c :: r' =>
          if is_char "," c then JSON.elements fuel r' (v :: acc)
          else if is_char "]" c then JSON.Parsed (JArr (rev (v :: acc))) r'
          else JSON.Unexpected
      | [] => JSON.Unexpected
      end
  | JSON.Unexpected => JSON.Unexpected
  | JSON.Exhausted => JSON.Exhausted
  end.
Proof. reflexivity. Qed.

Lemma elements_quoted (items : list jsstring) :
  items <> [] ->
  forall fuel acc rest,
    length items <= fuel ->
    JSON.elements (S fuel)
                  (join (str ",") (map Quote.quote items) ++ ch "]" :: rest)
                  acc
    = JSON.Parsed (JArr (rev acc ++ map JStr items)) rest.
Proof.
  induction items as [|x items IH]; [contradiction|]. intros _ fuel acc rest L.
  destruct fuel as [|fuel]; [simpl in L; lia|].
  rewrite elements_step.
  destruct items as [|y items].
  - cbn [map join]. rewrite value_quoted. reflexivity.
  - change (join (str ",") (map Quote.quote (x :: y :: items)))
      with (Quote.quote x
            ++ ch "," :: join (str ",") (map Quote.quote (y :: items))).
    rewrite <- app_assoc. cbn [app]. rewrite value_quoted.
    cbn [JSON.skip_ws]. change (JSON.is_ws (ch ",")) with false. cbv iota.
    change (is_char "," (ch ",")) with true. cbv iota.
    rewrite IH by (try discriminate; cbn [length] in *; lia).
    cbn [rev map]. now rewrite <- app_assoc.
Qed.

Lemma value_strings (items : list jsstring) (fuel : nat) (rest : jsstring) :
  length items + 2 <= fuel ->
  JSON.value fuel (stringify_strings items ++ rest)
  = JSON.Parsed (JArr (map JStr items)) rest.
Proof.
  intros L. destruct fuel as [|[|fuel]]; try lia.
  unfold stringify_strings. rewrite <- !app_assoc.
  change (str "[" ++ ?x) with (ch "[" :: x).
  change (str "]" ++ rest) with (ch "]" :: rest).
  cbn [JSON.value JSON.skip_ws].
  change (JSON.is_ws (ch "[")) with false. cbv iota.
  change (is_char "{" (ch "[")) with false.
  change (is_char "[" (ch "[")) with true. cbv iota.
  destruct items as [|x items].
  - cbn [map join app JSON.skip_ws].
    change (JSON.is_ws (ch "]")) with false. cbv iota.
    change (is_char "]" (ch "]")) with true. reflexivity.
  - assert (H : exists t, join (str ",") (map Quote.quote (x :: items))
                          ++ ch "]" :: rest = 34%N :: t).
    { cbn [map]. destruct (map Quote.quote items); cbn [join];
        unfold Quote.quote; cbn [app]; eauto. }
    destruct H as [t Ht]. rewrite Ht at 1.
    cbn [JSON.skip_ws]. change (JSON.is_ws 34%N) with false. cbv iota.
    change (is_char "]" 34%N) with false. cbv iota.
    rewrite elements_quoted; [reflexivity|discriminate|cbn [length] in *; lia].
Qed.

Lemma members_step (fuel : nat) (s : jsstring) (acc : members_t) :
  JSON.members (S fuel) s acc =
  match JSON.skip_ws s with
  | c :: s1 =>
      if (c =? 34)%N then
        match JSON.string_body s1 [] with
        | JSON.Parsed k r =>
            match JSON.skip_ws r with
            | c' :: r1 =>
                if is_char ":" c' then
                  match JSON.value fuel r1 with
                  | JSON.Parsed v r2 =>
                      match JSON.skip_ws r2 with
                      | c'' :: r3 =>
                          if is_char "," c'' then
                            JSON.members fuel r3 (obj_set acc k v)
                          else if is_char "}" c'' then
                            JSON.Parsed (JObj (obj_set acc k v)) r3
                          else JSON.Unexpected
                      | [] => JSON.Unexpected
                      end
                  | JSON.Unexpected => JSON.Unexpected
                  | JSON.Exhausted => JSON.Exhausted
                  end
                else JSON.Unexpected
            | [] => JSON.Unexpected
            end
        | JSON.Unexpected => JSON.Unexpected
        | JSON.Exhausted => JSON.Exhausted
        end
      else JSON.Unexpected
  | [] => JSON.Unexpected
  end.
Proof. reflexivity. Qed.

(** One member [key:value] whose value reads as [v], followed by the
    code unit [c]. *)
Lemma member_quoted (fuel : nat) (k vt r3 : jsstring) (c : char16)
      (v : json) (acc : members_t) :
  JSON.value fuel vt = JSON.Parsed v (c :: r3) ->
  JSON.is_ws c = false ->
  JSON.members (S fuel) (Quote.quote k ++ ch ":" :: vt) acc =
  if is_char "," c then JSON.members fuel r3 (obj_set acc k v)
  else if is_char "}" c then JSON.Parsed (JObj (obj_set acc k v)) r3
  else JSON.Unexpected.
Proof.
  intros V W. rewrite members_step.
  unfold Quote.quote. cbn [app]. rewrite <- app_assoc. cbn [app].
  cbn [JSON.skip_ws]. change (JSON.is_ws 34%N) with false. cbv iota.
  change (34 =? 34)%N with true. cbv iota.
  rewrite string_body_quote_body. cbn [rev app].
  cbn [JSON.skip_ws]. change (JSON.is_ws (ch ":")) with false. cbv iota.
  change (is_char ":" (ch ":")) with true. cbv iota.
  rewrite V. cbn [JSON.skip_ws]. now rewrite W.
Qed.

Lemma join_quoted_length (items : list jsstring) :
  length items <= length (join (str ",") (map Quote.quote items)).
Proof.
  induction items as [|x items IH]; [simpl; lia|].
  cbn [map]. destruct (map Quote.quote items) eqn:M.
  - destruct items; [|discriminate M]. cbn [join length]. unfold Quote.quote.
    cbn [length]. lia.
  - rewrite join_cons by discriminate. rewrite !length_app.
    unfold Quote.quote at 1. cbn [length] in *. lia.
Qed.

(** Round trip: the body the page sends reads back, on the side of the
    route, as the object it was written from. *)
Lemma parse_request_body (reviews : list jsstring) (locale : jsstring) :
  JSON.parse (request_body reviews locale)
  = Some (request_value reviews locale).
Proof.
  unfold JSON.parse.
  assert (B : length reviews + 5 <= JSON.budget (request_body reviews locale)).
  { unfold JSON.budget, request_body, stringify_strings.
    pose proof (join_quoted_length reviews).
    rewrite !length_app. cbn [str length] in *. lia. }
  destruct (JSON.budget _) as [|[|fuel]]; try lia.
  unfold request_body.
  change (str "{" ++ ?x) with (ch "{" :: x).
  rewrite value_open_brace.
  unfold Quote.quote at 1. cbn [app JSON.skip_ws].
  change (JSON.is_ws 34%N) with false. cbv iota.
  change (is_char "}" 34%N) with false. cbv iota.
  change (34%N :: (Quote.quote_body k_reviews ++ [34%N]) ++ ?x)
    with (Quote.quote k_reviews ++ x).
  change (str ":" ++ ?x) with (ch ":" :: x).
  rewrite member_quoted
    with (v := JArr (map JStr reviews)) (c := ch ",")
         (r3 := Quote.quote k_locale ++ ch ":" :: Quote.quote locale ++ str "}");
    [|apply value_strings; lia|reflexivity].
  change (is_char "," (ch ",")) with true. cbv iota.
  destruct fuel as [|fuel]; [lia|].
  rewrite member_quoted
    with (v := JStr locale) (c := ch "}") (r3 := []);
    [|destruct fuel; [lia|apply value_quoted]|reflexivity].
  reflexivity.
Qed.

Example integer_value_samples :
  map Home.integer_value [0; -0; 7; 4294967296; 0.5; -1; infinity; nan;
                          1e21; 9007199254740992]%float
  = [Some 0; Some 0; Some 7; Some 4294967296; None; None; None; None;
     Some 1000000000000000000000; Some 9007199254740992]%Z.
Proof. vm_compute. reflexivity. Qed.

Lemma reviewsArr_length_test (input : jsstring) :
  (length (reviewsArr input) =? 0) = forallb JS.is_str_ws input.
Proof.
  destruct (forallb JS.is_str_ws input) eqn:W.
  - apply reviewsArr_nil_iff in W. now rewrite W.
  - destruct (reviewsArr input) eqn:R; [|reflexivity].
    apply reviewsArr_nil_iff in R. congruence.
Qed.

Lemma handleAnalyze_sends (b : Home.Browser) (net : Home.Network)
      (st : Home.State) :
  forallb JS.is_str_ws (Home.input st) = false ->
  fst (Home.handleAnalyze b net st) = [analyze_request st].
Proof.
  intros W. unfold Home.handleAnalyze.
  cbn [Home.input Home.setReviews Home.setResult Home.setError
       Home.setLoading Home.lang].
  now rewrite reviewsArr_length_test, W.
Qed.

Lemma handleAnalyze_reviews (b : Home.Browser) (net : Home.Network)
      (st : Home.State) :
  Home.reviews (snd (Home.handleAnalyze b net st))
  = reviewsArr (Home.input st).
Proof.
  unfold Home.handleAnalyze.
  cbn [Home.input Home.setReviews Home.setResult Home.setError
       Home.setLoading Home.lang].
  destruct (length _ =? 0); [reflexivity|]. cbn [snd].
  destruct (net _) as [ok [data|e]|e]; [destruct ok|..]; reflexivity.
Qed.

(** X9: [handleAnalyze] (lines 56-84) always ends with [loading] false
    and with [reviews] set to the batch; a blank input makes no request
    and shows No reviews found.; any other input makes exactly the one
    POST to /api/analyze with the serialized batch and language; an
    error is never shown together with a result, and a result is shown
    only when the response was ok, as the data received; the other
    states are left alone. *)
Theorem analyze_outcome (b : Home.Browser) (net : Home.Network)
        (st : Home.State) :
  let calls := fst (Home.handleAnalyze b net st) in
  let st' := snd (Home.handleAnalyze b net st) in
  Home.loading st' = false
  /\ Home.reviews st' = reviewsArr (Home.input st)
  /\ (forallb JS.is_str_ws (Home.input st) = true ->
      calls = [] /\ Home.error st' = Some (str "No reviews found.")
      /\ Home.result st' = JNull)
  /\ (forallb JS.is_str_ws (Home.input st) = false ->
      calls = [analyze_request st])
  /\ (Home.error st' <> None -> Home.result st' = JNull)
  /\ (Home.error st' = None ->
      exists data,
        calls = [analyze_request st]
        /\ net (analyze_request st) = Home.Responds true (Home.Json data)
        /\ Home.result st' = data)
  /\ (Home.lang st', Home.input st', Home.fileName st', Home.modalOpen st',
      Home.selectedKeyword st', Home.selectedReviews st',
      Home.selectedSentiment st')
     = (Home.lang st, Home.input st, Home.fileName st, Home.modalOpen st,
        Home.selectedKeyword st, Home.selectedReviews st,
        Home.selectedSentiment st).
Proof.
  cbv zeta. unfold Home.handleAnalyze.
  cbn [Home.input Home.setReviews Home.setResult Home.setError
       Home.setLoading Home.lang].
  rewrite reviewsArr_length_test.
  fold (analyze_request st).
  destruct (forallb JS.is_str_ws (Home.input st)) eqn:W.
  - cbn. repeat split; auto; discriminate.
  - cbn [fst snd].
    destruct (net (analyze_request st)) as [ok [data|e]|e];
      [destruct ok|..]; cbn;
      repeat split; try discriminate; try congruence; eauto.
Qed.

(** X10: when the response is not ok, [handleAnalyze] shows no result
    and shows the message the response carries in [error] when that is
    a string that is not empty, Unknown error when the field is absent
    or falsy, and the message of the TypeError when the data is
    [null]. *)
Theorem failed_response_message (b : Home.Browser) (net : Home.Network)
        (st : Home.State) (data : json) :
  forallb JS.is_str_ws (Home.input st) = false ->
  net (analyze_request st) = Home.Responds false (Home.Json data) ->
  let st' := snd (Home.handleAnalyze b net st) in
  Home.result st' = JNull
  /\ Home.loading st' = false
  /\ (forall msg, prop data k_error = Some (JStr msg) -> msg <> [] ->
      Home.error st' = Some msg)
  /\ (data <> JNull -> JS.truthy (prop data k_error) = false ->
      Home.error st' = Some (str "Unknown error"))
  /\ (data = JNull ->
      Home.error st' = Some (or_else (Home.null_read_message b)
                                     (str "Failed to analyze reviews."))).
Proof.
  intros W R. cbv zeta. unfold Home.handleAnalyze.
  cbn [Home.input Home.setReviews Home.setResult Home.setError
       Home.setLoading Home.lang].
  rewrite reviewsArr_length_test, W.
  fold (analyze_request st). rewrite R.
  cbn [snd negb Home.result Home.loading Home.error Home.setLoading
       Home.setError Home.setResult Home.setReviews].
  repeat split.
  - intros msg P M. unfold Home.thrown_for.
    destruct data; try discriminate P. rewrite P.
    destruct msg as [|c msg]; [contradiction|]. reflexivity.
  - intros N T. unfold Home.thrown_for.
    destruct data; try contradiction;
      (destruct (prop _ k_error) as [v|] eqn:P; [rewrite T|]; reflexivity).
  - intros ->. reflexivity.
Qed.

Lemma failed_response_message_witness :
  let st := Home.setInput (str "good") Home.initial in
  let data := body (error_response (str "OpenAI API key not set.") 500) in
  let b := Home.chrome in
  Home.error (snd (Home.handleAnalyze b
                     (fun _ => Home.Responds false (Home.Json data)) st))
  = Some (str "OpenAI API key not set.").
Proof.
  intros st data b.
  refine (proj1 (proj2 (proj2
            (@failed_response_message b _ st data _ _))) _ _ _).
  - vm_compute. reflexivity.
  - reflexivity.
  - reflexivity.
  - discriminate.
Defined.

Lemma request_value_reviews (reviews : list jsstring) (locale : jsstring) :
  prop (request_value reviews locale) k_reviews
  = Some (JArr (map JStr reviews)).
Proof. reflexivity. Qed.

Lemma request_value_locale (reviews : list jsstring) (locale : jsstring) :
  prop (request_value reviews locale) k_locale = Some (JStr locale).
Proof. reflexivity. Qed.

(** X11: the page and the route fit: for an input that is not blank the
    body the page sends parses to an object whose [reviews] is the batch
    as an array that is not empty and whose [locale] is the language
    code; its reviews are strings, which can always be printed into the
    prompt, so a route with its key set never answers 400 to it and
    always makes its first call: the sentiment request when the
    language is ko, the single-pass request with the English system
    message when it is en, and at most one more call.  For en the route
    always answers; for ko it answers unless the sentiments it accepted
    cannot be printed into the second prompt, where it throws after the
    first call. *)
Theorem page_request_is_served (b : Home.Browser) (net : Home.Network)
        (st : Home.State) (rt : Runtime) (svc : Service) :
  forallb JS.is_str_ws (Home.input st) = false ->
  JS.truthy (option_map JStr (OPENAI_API_KEY rt)) = true ->
  let reviews := map JStr (reviewsArr (Home.input st)) in
  exists sent request more outcome,
    fst (Home.handleAnalyze b net st) = [sent]
    /\ JSON.parse (Home.body sent) = Some request
    /\ prop request k_reviews = Some (JArr reviews)
    /\ prop request k_locale = Some (JStr (Home.code (Home.lang st)))
    /\ reviews <> []
    /\ renders reviews = true
    /\ run svc [] (POST rt request)
       = (match Home.lang st with
          | Home.ko => sentiment_request reviews
          | Home.en => single_request (Some (JStr (str "en"))) reviews
          end :: more, outcome)
    /\ length more <= 1
    /\ match outcome with
       | Fulfilled response => status response <> 400%Z
       | Rejected e =>
           Home.lang st = Home.ko /\ more = []
           /\ e = Thrown (to_primitive_error_message rt)
           /\ exists sentiments,
                stage1 rt svc reviews = inr sentiments
                /\ renders sentiments = false
       end.
Proof.
  intros W K reviews.
  pose proof (@handleAnalyze_sends b net st W) as C.
  assert (A : reviewsArr (Home.input st) <> []).
  { intros E. apply reviewsArr_nil_iff in E. congruence. }
  assert (R : reviews <> []).
  { subst reviews. destruct (reviewsArr (Home.input st));
      [contradiction|discriminate]. }
  assert (Rv : renders reviews = true) by apply renders_strings.
  pose (request := request_value (reviewsArr (Home.input st))
                                 (Home.code (Home.lang st))).
  assert (B : batch_rejected (prop request k_reviews) = false).
  { unfold request. rewrite request_value_reviews. fold reviews.
    destruct reviews; [contradiction|reflexivity]. }
  assert (P : JSON.parse (Home.body (analyze_request st)) = Some request)
    by apply parse_request_body.
  assert (V : prop request k_reviews = Some (JArr reviews)) by reflexivity.
  assert (Rv' : renders (array_elems (prop request k_reviews)) = true)
    by (now rewrite V).
  assert (L : prop request k_locale = Some (JStr (Home.code (Home.lang st))))
    by reflexivity.
  exists (analyze_request st), request.
  destruct (Home.lang st) eqn:E.
  - pose proof (@run_POST_single rt svc request K B Rv') as Q.
    rewrite L, V in Q. specialize (Q eq_refl). cbn [array_elems] in Q.
    eexists [], _. repeat split; eauto.
    unfold single. intros S.
    match type of S with
    | status (caught _ ?f (bind (awaited ?o) (fun c => respond _ c ?m))) = _ =>
        destruct (@caught_respond_status rt o m f) as [S1|S1];
          [discriminate|..]; cbv zeta in S1; rewrite S1 in S; discriminate S
    end.
  - pose proof (@run_POST_two_pass rt svc request K B Rv') as Q.
    rewrite L, V in Q. specialize (Q eq_refl). cbn [array_elems] in Q.
    pose proof (stage1_cases rt svc reviews) as S1.
    destruct (stage1 rt svc reviews) as [response|sentiments].
    + eexists [], _. repeat split; eauto.
      intros S. apply failure_status in S1. rewrite S1 in S. discriminate S.
    + destruct (renders sentiments) eqn:Rs.
      * eexists [_], _. repeat split; eauto.
        unfold stage2. intros S.
        match type of S with
        | status (caught _ ?f (bind (awaited ?o) (fun c => respond _ c ?m)))
          = _ =>
            destruct (@caught_respond_status rt o m f) as [S2|S2];
              [discriminate|..]; cbv zeta in S2; rewrite S2 in S;
              discriminate S
        end.
      * exists [], (Rejected (Thrown (to_primitive_error_message rt))).
        repeat split; auto. exists sentiments. now split.
Qed.

Lemma page_request_is_served_witness :
  let st := Home.setInput (str "good") Home.initial in
  let b := Home.chrome in
  exists sent request,
    fst (Home.handleAnalyze b (fun _ => Home.Fails (Thrown [])) st) = [sent]
    /\ JSON.parse (Home.body sent) = Some request
    /\ prop request k_reviews = Some (JArr [JStr (str "good")]).
Proof.
  intros st b.
  destruct (@page_request_is_served b (fun _ => Home.Fails (Thrown [])) st
              (v8 some_key) (fun _ _ => Rejects (Thrown [])))
    as (sent & request & _ & _ & F & P & V & _).
  - vm_compute. reflexivity.
  - reflexivity.
  - exists sent, request. repeat split; [exact F|exact P|exact V].
Defined.

(** X12: [handleLocaleChange] (lines 132-137) replaces the text between
    the first and the second slash of the path by the new locale and
    keeps what is before and after it; a path without a slash gets a
    slash and the locale appended; and changing the locale twice gives
    the path of the last change when the first locale holds no slash. *)
Theorem locale_segment_replaced (first old rest newLocale : jsstring) :
  ~ In slash first -> ~ In slash old ->
  rest = [] \/ hd_error rest = Some slash ->
  Home.handleLocaleChange (first ++ slash :: old ++ rest) newLocale
  = first ++ slash :: newLocale ++ rest
  /\ Home.handleLocaleChange first newLocale = first ++ slash :: newLocale
  /\ (~ In slash newLocale ->
      forall again,
        Home.handleLocaleChange
          (Home.handleLocaleChange (first ++ slash :: old ++ rest) newLocale)
          again
        = first ++ slash :: again ++ rest).
Proof.
  intros F O R.
  assert (G : forall x, ~ In slash x ->
                Home.handleLocaleChange (first ++ slash :: x ++ rest) newLocale
                = first ++ slash :: newLocale ++ rest).
  { intros x X. unfold Home.handleLocaleChange.
    rewrite split_app_sep by exact F.
    destruct R as [->|R].
    - rewrite app_nil_r, split_free by exact X. now rewrite app_nil_r.
    - destruct rest as [|c r]; [discriminate R|].
      injection R as ->. rewrite split_app_sep by exact X.
      cbn [Home.set_second].
      rewrite !join_cons by (try apply split_not_nil; discriminate).
      now rewrite join_split. }
  split; [now apply G|split].
  - unfold Home.handleLocaleChange. now rewrite split_free.
  - intros N again. rewrite G by exact O.
    clear G. revert newLocale N. intros x X.
    unfold Home.handleLocaleChange.
    rewrite split_app_sep by exact F.
    destruct R as [->|R].
    + rewrite app_nil_r, split_free by exact X. now rewrite app_nil_r.
    + destruct rest as [|c r]; [discriminate R|].
      injection R as ->. rewrite split_app_sep by exact X.
      cbn [Home.set_second].
      rewrite !join_cons by (try apply split_not_nil; discriminate).
      now rewrite join_split.
Qed.

Lemma locale_segment_replaced_witness :
  Home.handleLocaleChange (str "/en/about") (str "ko") = str "/ko/about".
Proof.
  refine (proj1 (@locale_segment_replaced [] (str "en") (str "/about")
                   (str "ko") _ _ _)).
  - intros [].
  - vm_compute. intuition discriminate.
  - right. reflexivity.
Defined.

Lemma at_index_In (reviews : list jsstring) (x : float) (r : jsstring) :
  Home.at_index reviews x = Some r -> In r reviews.
Proof.
  unfold Home.at_index. destruct (Home.integer_value x) as [z|]; [|discriminate].
  destruct (z <? Z.of_nat (length reviews))%Z; [|discriminate].
  apply nth_error_In.
Qed.

(** The first guard of the handler is the array test alone. *)
Lemma keywords_guard_test (result : json) :
  negb (JS.truthy (Some result))
  || negb (JS.truthy (prop result k_keywords))
  || negb (JS.isArray (prop result k_keywords))
  = negb (JS.isArray (prop result k_keywords)).
Proof.
  destruct result as [| b | x | s | l | m]; cbn [prop JS.isArray negb];
    rewrite ?orb_true_r; try reflexivity.
  cbn [JS.truthy negb orb].
  destruct (obj_get m k_keywords) as [[| b | x | s | l | m']|];
    cbn [JS.isArray negb]; rewrite ?orb_true_r; reflexivity.
Qed.

(** So is the second. *)
Lemma indices_guard_test (v : jsvalue) :
  negb (JS.truthy v) || negb (JS.isArray v) = negb (JS.isArray v).
Proof.
  destruct v as [[| b | x | s | l | m]|]; cbn [JS.isArray negb];
    rewrite ?orb_true_r; reflexivity.
Qed.






Lemma reviewsToShow_numbers (b : Home.Browser) (reviews : list jsstring) :
  forall indices : list json,
    forallb is_number indices = true ->
    exists shown,
      Home.reviewsToShow b reviews indices = Some (map Home.Review shown)
      /\ (forall r, In r shown <->
                    r <> [] /\ exists idx, In idx indices
                                /\ Home.at_index reviews (number_of idx)
                                   = Some r)
      /\ (Forall (fun r => r <> []) reviews ->
          Forall (fun idx => Home.at_index reviews (number_of idx) <> None)
                 indices ->
          Forall2 (fun idx r => Home.at_index reviews (number_of idx) = Some r)
                  indices shown).
Proof.
  induction indices as [|idx indices IH]; intros N.
  - exists []. split; [reflexivity|]. split; [|constructor].
    intros r. split; [intros []|]. now intros (_ & idx & [] & _).
  - cbn [forallb] in N. apply andb_true_iff in N. destruct N as [Ni N].
    destruct (IH N) as (shown & E & F & A).
    destruct idx as [| t | x | name | l | o]; try discriminate Ni.
    cbn [Home.reviewsToShow Home.get]. rewrite E.
    destruct (Home.at_index reviews x) as [r|] eqn:X; cbn [option_map].
    + pose proof (at_index_In _ _ X) as I.
      destruct r as [|c r].
      * exists shown. split; [reflexivity|]. split.
        -- intros r. rewrite F. split.
           ++ intros (Nr & idx & Hi & Hr). split; [exact Nr|].
              exists idx. split; [now right|exact Hr].
           ++ intros (Nr & idx & [<-|Hi] & Hr).
              ** cbn [number_of] in Hr. rewrite X in Hr.
                 injection Hr as <-. now elim Nr.
              ** split; [exact Nr|eauto].
        -- intros Ne _. rewrite Forall_forall in Ne. now elim (Ne [] I).
      * exists ((c :: r) :: shown). split; [reflexivity|]. split.
        -- intros r'. cbn [In]. rewrite F. split.
           ++ intros [<-|(Nr & idx & Hi & Hr)].
              ** split; [discriminate|]. exists (JNum x).
                 split; [now left|exact X].
              ** split; [exact Nr|]. exists idx. split; [now right|exact Hr].
           ++ intros (Nr & idx & [<-|Hi] & Hr).
              ** cbn [number_of] in Hr. rewrite X in Hr.
                 injection Hr as <-. now left.
              ** right. split; [exact Nr|eauto].
        -- intros Ne H. inversion H; subst.
           constructor; [exact X|now apply A].
    + exists shown. split; [reflexivity|]. split.
      * intros r. rewrite F. split.
        -- intros (Nr & idx & Hi & Hr). split; [exact Nr|].
           exists idx. split; [now right|exact Hr].
        -- intros (Nr & idx & [<-|Hi] & Hr).
           ++ cbn [number_of] in Hr. rewrite X in Hr. discriminate Hr.
           ++ split; [exact Nr|eauto].
      * intros _ H. inversion H as [|? ? H1 H2]; subst.
        cbn [number_of] in H1. now elim H1.
Qed.

(** The handler, its guards reduced to the two array tests. *)
Lemma handleKeywordClick_cases (b : Home.Browser) (st : Home.State)
      (keywordObj : json) :
  Home.handleKeywordClick b st keywordObj =
  if JS.isArray (prop (Home.result st) k_keywords) then
    match keywordObj with
    | JNull => Home.Throws
    | _ =>
        if JS.isArray (prop keywordObj k_reviewIndices) then
          match Home.reviewsToShow b (Home.reviews st)
                  (array_elems (prop keywordObj k_reviewIndices)) with
          | None => Home.Throws
          | Some shown =>
              Home.Done
                (Home.setModalOpen true
                   (Home.setSelectedSentiment (prop keywordObj Home.k_sentiment)
                      (Home.setSelectedReviews shown
                         (Home.setSelectedKeyword
                            (prop keywordObj Home.k_keyword) st))))
          end
        else Home.Done st
    end
  else Home.Done st.
Proof.
  unfold Home.handleKeywordClick. rewrite keywords_guard_test.
  destruct (JS.isArray (prop (Home.result st) k_keywords)); cbn [negb];
    [|reflexivity].
  destruct keywordObj; try reflexivity;
    rewrite indices_guard_test;
    now destruct (JS.isArray _).
Qed.


(** X13, with indices that are strings: "1" finds the second review,
    "length" the number of reviews, "map" a method of arrays, and "7"
    nothing. *)
Example string_indices_shown :
  let st := Home.setReviews [str "a"; str "b"; str "c"]
              (Home.setResult (JObj [(k_keywords, JArr [])]) Home.initial) in
  let keywordObj :=
    JObj [(Home.k_keyword, JStr (str "price"));
          (Home.k_sentiment, JStr (str "positive"));
          (k_reviewIndices,
           JArr [JStr (str "1"); JStr (str "length"); JStr (str "map");
                 JStr (str "7"); JNum 2; JArr [JNum 0]; JNull])] in
  match Home.handleKeywordClick Home.chrome st keywordObj with
  | Home.Done after => Some (Home.selectedReviews after)
  | Home.Throws => None
  end
  = Some [Home.Review (str "b"); Home.Length 3; Home.Inherited (str "map");
          Home.Review (str "c"); Home.Review (str "a")]
  /\ Home.handleKeywordClick Home.chrome st
       (JObj [(k_reviewIndices, JArr [JObj [(str "toString", JNum 1)]])])
     = Home.Throws.
Proof. split; vm_compute; reflexivity. Qed.

(** X14: after [handleAnalyze], a keyword click whose indices are
    Numbers shows only reviews of the batch of that analysis, and when
    every index is an integer within the batch it shows one review for
    each index, in the order of the indices: no review of a batch is
    empty, so the filter of line 114 drops none. *)
Theorem keyword_click_after_analysis (b : Home.Browser) (net : Home.Network)
        (st : Home.State) (keywordObj : json) :
  let analysed := snd (Home.handleAnalyze b net st) in
  let batch := reviewsArr (Home.input st) in
  let indices := array_elems (prop keywordObj k_reviewIndices) in
  JS.isArray (prop (Home.result analysed) k_keywords) = true ->
  JS.isArray (prop keywordObj k_reviewIndices) = true ->
  forallb is_number indices = true ->
  exists after shown,
    Home.handleKeywordClick b analysed keywordObj = Home.Done after
    /\ Home.selectedReviews after = map Home.Review shown
    /\ Forall (fun r => In r batch) shown
    /\ (Forall (fun idx => Home.at_index batch (number_of idx) <> None)
               indices ->
        Forall2 (fun idx r => Home.at_index batch (number_of idx) = Some r)
                indices shown).
Proof.
  intros analysed batch indices A I N.
  rewrite handleKeywordClick_cases, A, I.
  assert (R : Home.reviews analysed = batch) by apply handleAnalyze_reviews.
  rewrite R. fold indices.
  destruct (reviewsToShow_numbers b batch indices N) as (shown & E & F & G).
  rewrite E. eexists _, shown. split.
  { destruct keywordObj; try reflexivity. discriminate I. }
  split; [reflexivity|]. split.
  - apply Forall_forall. intros r H. apply F in H.
    destruct H as (_ & idx & _ & X). now apply at_index_In in X.
  - apply G. apply reviewsArr_not_empty.
Qed.

Lemma keyword_click_after_analysis_witness :
  let net := fun _ : Home.Fetch =>
               Home.Responds true (Home.Json (JObj [(k_keywords, JArr [])])) in
  let st := Home.setInput (str "good") Home.initial in
  let keywordObj := JObj [(Home.k_keyword, JStr (str "price"));
                          (Home.k_sentiment, JStr (str "positive"));
                          (k_reviewIndices, JArr [JNum 0; JNum 5])] in
  exists after shown,
    Home.handleKeywordClick Home.chrome
      (snd (Home.handleAnalyze Home.chrome net st)) keywordObj
    = Home.Done after
    /\ Home.selectedReviews after = map Home.Review shown
    /\ Forall (fun r => In r (reviewsArr (str "good"))) shown.
Proof.
  intros net st keywordObj.
  destruct (@keyword_click_after_analysis Home.chrome net st keywordObj
              eq_refl eq_refl eq_refl)
    as (after & shown & D & S & F & _).
  exists after, shown. repeat split; [exact D|exact S|exact F].
Defined.
